(** * Agentarium: the hook correlator, the event store and the guarded query

    A shallow embedding of the tracking plugin's storage layer
    ([lib/database.ts]), its context file ([lib/context.ts]), the six
    lifecycle hooks ([hooks/*.ts]), the raw-query guard of the MCP
    server, the project metadata and the registration of hooks in the
    settings file ([lib/project.ts] and the tools of the MCP server), the
    reports and the server's main loop, followed by the properties stated
    about them.

    Modelling conventions.
    - A JavaScript string is a [string]; each character stands for a code
      unit below 256.
    - SQLite's [datetime('now')] has a resolution of one second and a fixed
      width, so that between stored times the text order is the order of
      time: a stored time is a [Z], the number of seconds since the epoch,
      within the years 0000 to 9999 that SQLite's dates cover.  Where the
      code compares a stored time with a string of the caller, the
      comparison is that of the texts ([Db.datetime]).  A hook is a
      short-lived process: it reads the clock once.
    - A REAL is the rational that the double stands for, and arithmetic on
      REALs rounds to the nearest double ([Double]).
    - The tool input of a pre-invocation and the output and the error of
      a post-invocation are the [json] values they are, of whatever type;
      the other fields of a hook's input are the strings they are declared
      to be.
    - The bytes that the server reads are decoded as UTF-8, chunk by
      chunk, into UTF-16 code units.
    - A table is the list of its rows in insertion (rowid) order.
    - A JavaScript object used as a map is the list of its properties in
      insertion order.
    - A payload that the code serialises with [JSON.stringify] is kept as
      the [json] value it serialises.
    - Foreign keys are declared by the schema but never enforced (the code
      does not switch [PRAGMA foreign_keys] on): they are not modelled. *)

From Stdlib Require Import ZArith List String Ascii Bool Lia.
From Stdlib Require Import Sorting.Sorted Sorting.Permutation.
From Stdlib Require Import DecimalString.
From Stdlib Require Import QArith Qround Qpower Lqa.
Import ListNotations.
Local Open Scope string_scope.
Local Open Scope Z_scope.

Set Implicit Arguments.
Set Warnings "-register-all".

(** ** JavaScript values and the operators the code relies on *)
Module Js.

(** A parsed JSON document; a number is an integer that a double holds
    exactly. *)
Inductive json : Type :=
| JNull
| JBool (b : bool)
| JNum (z : Z)
| JStr (s : string)
| JArr (l : list json)
| JObj (fields : list (string * json)).

(** [ToBoolean] on strings: only the empty string is falsy. *)
Definition truthy_string (s : string) : bool :=
  negb (String.eqb s "").

(** [ToBoolean] on a JSON value. *)
Definition truthy (j : json) : bool :=
  match j with
  | JNull => false
  | JBool b => b
  | JNum z => negb (z =? 0)
  | JStr s => truthy_string s
  | JArr _ => true
  | JObj _ => true
  end.

(** [x || undefined] followed by [y || null] on an optional string: an
    absent or empty string becomes SQL NULL. *)
Definition or_null (x : option string) : option string :=
  match x with
  | Some s => if truthy_string s then Some s else None
  | None => None
  end.

(** [x || d] on an optional string. *)
Definition or_default (x : option string) (d : string) : string :=
  match or_null x with
  | Some s => s
  | None => d
  end.

(** [v ? JSON.stringify(v) : null] on an optional JSON value. *)
Definition json_or_null (x : option json) : option json :=
  match x with
  | Some j => if truthy j then Some j else None
  | None => None
  end.

(** [n || d] on an optional number. *)
Definition num_or (x : option Z) (d : Z) : Z :=
  match x with
  | Some n => if n =? 0 then d else n
  | None => d
  end.

(** [x || d] on an optional JSON value. *)
Definition json_or (x : option json) (d : json) : json :=
  match json_or_null x with
  | Some j => j
  | None => d
  end.

Fixpoint assoc (f : string) (fields : list (string * json)) : option json :=
  match fields with
  | [] => None
  | (k, v) :: rest => if String.eqb k f then Some v else assoc f rest
  end.

(** [o?.f] for a name [f] that nothing inherits: the field of an object,
    undefined on null, on undefined and on any other value. *)
Definition field (o : option json) (f : string) : option json :=
  match o with
  | Some (JObj fields) => assoc f fields
  | _ => None
  end.

(** [hay.includes(needle)]. *)
Fixpoint includes (hay needle : string) : bool :=
  String.prefix needle hay
  || match hay with
     | EmptyString => false
     | String _ rest => includes rest needle
     end.

(** White space as [String.prototype.trim] sees it, among the code units
    below 256: TAB, LF, VT, FF, CR, SPACE and NBSP. *)
Definition is_space (c : ascii) : bool :=
  let n := nat_of_ascii c in
  ((9 <=? n) && (n <=? 13) || (n =? 32) || (n =? 160))%nat.

Fixpoint trim_start (s : string) : string :=
  match s with
  | EmptyString => EmptyString
  | String c rest => if is_space c then trim_start rest else s
  end.

(** Dropping trailing white space: a character is kept when it is not a
    space or when something is kept after it. *)
Fixpoint trim_end (s : string) : string :=
  match s with
  | EmptyString => EmptyString
  | String c rest =>
      match trim_end rest with
      | EmptyString => if is_space c then EmptyString else String c EmptyString
      | kept => String c kept
      end
  end.

Definition trim (s : string) : string := trim_end (trim_start s).

(** [toLowerCase] on one code unit below 256: A-Z and the Latin-1 capitals
    (all of 192..222 but the multiplication sign) move up by 32. *)
Definition lower_char (c : ascii) : ascii :=
  let n := nat_of_ascii c in
  if ((65 <=? n) && (n <=? 90)
      || (192 <=? n) && (n <=? 222) && negb (n =? 215))%nat
  then ascii_of_nat (n + 32) else c.

Fixpoint toLowerCase (s : string) : string :=
  match s with
  | EmptyString => EmptyString
  | String c rest => String (lower_char c) (toLowerCase rest)
  end.

(** [s.startsWith(p)]. *)
Definition startsWith (s p : string) : bool := String.prefix p s.

End Js.
Import Js.

(** ** Double-precision arithmetic *)

(** SQLite computes on REAL values with the machine's doubles.  A finite
    double is the rational it stands for; an operation returns the double
    nearest to the exact result, the one with an even significand when two
    are as near.  Results beyond the largest double do not occur here and
    are not modelled. *)
Module Double.

(** The exponent of a positive [x]: [2^k <= x < 2^(k+1)]. *)
Definition floor_log2 (x : Q) : Z :=
  let k := Z.log2 (Qnum x) - Z.log2 (Zpos (Qden x)) in
  if Qle_bool (2 ^ k) x then k else k - 1.

(** The integer nearest to [x], the even one of the two when [x] is half
    way between them. *)
Definition nearest_even (x : Q) : Z :=
  let f := Qfloor x in
  match (x - inject_Z f ?= 1 # 2)%Q with
  | Lt => f
  | Gt => f + 1
  | Eq => if Z.even f then f else f + 1
  end.

(** A significand of 53 bits, the unit in the last place never below
    [2^-1074]. *)
Definition round_pos (x : Q) : Q :=
  let e := Z.max (floor_log2 x - 52) (- 1074) in
  Qred (inject_Z (nearest_even (x / 2 ^ e)) * 2 ^ e).

Definition round (x : Q) : Q :=
  match (x ?= 0)%Q with
  | Eq => 0%Q
  | Gt => round_pos x
  | Lt => Qred (- round_pos (- x))
  end.

Definition sub (x y : Q) : Q := round (x - y).
Definition mul (x y : Q) : Q := round (x * y).
Definition div (x y : Q) : Q := round (x / y).

End Double.

(** ** The event store ([lib/database.ts]) *)
Module Db.

Definition time := Z.

(** *** The text of a time *)

(** [datetime('now')] is a text, 'YYYY-MM-DD HH:MM:SS' in UTC, and that
    is what the time columns hold; SQLite's dates run from year 0000 to
    year 9999. *)
Definition digit (n : Z) : ascii := ascii_of_nat (48 + Z.to_nat (n mod 10)).

Definition pad2 (n : Z) : string :=
  String (digit (n / 10)) (String (digit n) EmptyString).

Definition pad4 (n : Z) : string :=
  String (digit (n / 1000)) (String (digit (n / 100)) (pad2 n)).

(** The year, month and day of a day counted from 1970-01-01, in the
    proleptic Gregorian calendar: the day is placed in its 400-year era,
    the years of which begin on the first of March. *)
Definition civil (days : Z) : Z * Z * Z :=
  let z := days + 719468 in
  let era := z / 146097 in
  let doe := z mod 146097 in
  let yoe := (doe - doe / 1460 + doe / 36524 - doe / 146096) / 365 in
  let doy := doe - (365 * yoe + yoe / 4 - yoe / 100) in
  let mp := (5 * doy + 2) / 153 in
  let d := doy - (153 * mp + 2) / 5 + 1 in
  let m := if mp <? 10 then mp + 3 else mp - 9 in
  (if m <=? 2 then yoe + era * 400 + 1 else yoe + era * 400, m, d).

Definition datetime (t : time) : string :=
  let '(y, m, d) := civil (t / 86400) in
  let s := t mod 86400 in
  pad4 y ++ "-" ++ pad2 m ++ "-" ++ pad2 d ++ " "
  ++ pad2 (s / 3600) ++ ":" ++ pad2 (s mod 3600 / 60) ++ ":" ++ pad2 (s mod 60).

(** [julianday(t)] of such a text: SQLite holds the moment as a whole
    number of milliseconds since noon of 24 November 4714 BC, and returns
    it divided by the 86400000.0 milliseconds of a day. *)
Definition julianday (t : time) : Q :=
  Double.div (inject_Z (t * 1000 + 210866760000000)) 86400000.

Record Session : Type := mkSession {
  s_id : string;
  s_started_at : time;
  s_ended_at : option time;
  s_project_root : option string;
  s_working_directory : option string;
  s_model : option string;
  s_git_branch : option string;
  s_metadata : option json
}.

Record Agent : Type := mkAgent {
  a_id : string;
  a_session_id : string;
  a_parent_agent_id : option string;
  a_agent_type : option string;
  a_description : option string;
  a_started_at : time;
  a_ended_at : option time;
  a_status : string
}.

Record ToolUse : Type := mkToolUse {
  t_id : Z;
  t_session_id : string;
  t_agent_id : option string;
  t_tool_name : string;
  t_tool_input : option json;
  t_tool_output : option json;
  t_started_at : time;
  t_ended_at : option time;
  t_duration_ms : option Q;
  t_status : string;
  t_error : option string
}.

Record Event : Type := mkEvent {
  e_id : Z;
  e_session_id : string;
  e_agent_id : option string;
  e_event_type : string;
  e_event_data : option json;
  e_timestamp : time
}.

(** The four tables the hooks write, and the two AUTOINCREMENT counters
    (the largest rowid ever handed out, which survives deletions).  The
    columns no statement of the code ever writes ([total_cost],
    [total_tokens], [total_turns]) and the [hooks] table are left out. *)
Record Database : Type := mkDatabase {
  sessions : list Session;
  agents : list Agent;
  tool_uses : list ToolUse;
  events : list Event;
  seq_tool_uses : Z;
  seq_events : Z
}.

Definition empty : Database := mkDatabase [] [] [] [] 0 0.

Definition set_sessions (l : list Session) (db : Database) : Database :=
  mkDatabase l (agents db) (tool_uses db) (events db)
             (seq_tool_uses db) (seq_events db).

Definition set_agents (l : list Agent) (db : Database) : Database :=
  mkDatabase (sessions db) l (tool_uses db) (events db)
             (seq_tool_uses db) (seq_events db).

Definition set_tool_uses (l : list ToolUse) (db : Database) : Database :=
  mkDatabase (sessions db) (agents db) l (events db)
             (seq_tool_uses db) (seq_events db).

Definition set_events (l : list Event) (db : Database) : Database :=
  mkDatabase (sessions db) (agents db) (tool_uses db) l
             (seq_tool_uses db) (seq_events db).

(** *** SQL clauses *)

(** [x IN (?, ?, ...)]. *)
Definition sql_in (x : string) (ids : list string) : bool :=
  existsb (String.eqb x) ids.

(** [LIMIT l OFFSET o]: a negative limit means no limit, a negative offset
    means none. *)
Definition sql_limit (A : Type) (limit offset : Z) (rows : list A) : list A :=
  let rest := skipn (Z.to_nat offset) rows in
  if limit <? 0 then rest else firstn (Z.to_nat limit) rest.

(** [ORDER BY key DESC].  SQLite leaves the order of rows with equal keys
    open; this sort keeps them in table order. *)
Fixpoint insert_desc (A : Type) (key : A -> Z) (x : A) (l : list A) : list A :=
  match l with
  | [] => [x]
  | y :: rest =>
      if key y <=? key x then x :: l else y :: insert_desc key x rest
  end.

Definition order_by_desc (A : Type) (key : A -> Z) (l : list A) : list A :=
  fold_right (insert_desc key) [] l.

(** [col = ?] for a nullable column: NULL never equals a parameter. *)
Definition col_eq (col : option string) (v : string) : bool :=
  match col with
  | Some c => String.eqb c v
  | None => false
  end.

(** An optional filter of a query: left out when the argument is absent or
    falsy ([if (filters.x)]). *)
Definition opt_filter (A : Type) (arg : option string)
    (test : string -> A -> bool) (row : A) : bool :=
  match or_null arg with
  | Some v => test v row
  | None => true
  end.

(** *** Session operations *)

Record SessionData : Type := mkSessionData {
  projectRoot : option string;
  workingDirectory : option string;
  model : option string;
  gitBranch : option string;
  metadata : option json
}.

(** [INSERT OR REPLACE]: a row with the same primary key is dropped, the
    new row goes to the end of the table. *)
Definition createSession (now : time) (sessionId : string)
    (data : SessionData) (db : Database) : Database :=
  set_sessions
    (filter (fun r => negb (String.eqb (s_id r) sessionId)) (sessions db)
     ++ [mkSession sessionId now None
           (or_null (projectRoot data))
           (or_null (workingDirectory data))
           (or_null (model data))
           (or_null (gitBranch data))
           (json_or_null (metadata data))])
    db.

Definition close_session (now : time) (r : Session) : Session :=
  mkSession (s_id r) (s_started_at r) (Some now) (s_project_root r)
            (s_working_directory r) (s_model r) (s_git_branch r)
            (s_metadata r).

Definition endSession (now : time) (sessionId : string) (db : Database)
    : Database :=
  set_sessions
    (map (fun r => if String.eqb (s_id r) sessionId
                   then close_session now r else r)
         (sessions db))
    db.

Definition delete_tool_uses (ids : list string) (db : Database) : Database :=
  set_tool_uses
    (filter (fun r => negb (sql_in (t_session_id r) ids)) (tool_uses db)) db.

Definition delete_events (ids : list string) (db : Database) : Database :=
  set_events
    (filter (fun r => negb (sql_in (e_session_id r) ids)) (events db)) db.

Definition delete_agents (ids : list string) (db : Database) : Database :=
  set_agents
    (filter (fun r => negb (sql_in (a_session_id r) ids)) (agents db)) db.

Definition delete_session_rows (ids : list string) (db : Database)
    : Database :=
  set_sessions
    (filter (fun r => negb (sql_in (s_id r) ids)) (sessions db)) db.

(** The store after each of the four statements of [deleteSessions], in
    the order they are run; none is run for an empty list. *)
Definition deleteSessions_steps (sessionIds : list string) (db : Database)
    : list Database :=
  match sessionIds with
  | [] => []
  | _ =>
      let db1 := delete_tool_uses sessionIds db in
      let db2 := delete_events sessionIds db1 in
      let db3 := delete_agents sessionIds db2 in
      let db4 := delete_session_rows sessionIds db3 in
      [db1; db2; db3; db4]
  end.

Definition deleteSessions (sessionIds : list string) (db : Database)
    : Database :=
  last (deleteSessions_steps sessionIds db) db.

(** [getSessions(limit = 50, offset = 0, gitBranch?)]. *)
Definition getSessions (limit offset : option Z) (branch : option string)
    (db : Database) : list Session :=
  let l := match limit with Some n => n | None => 50 end in
  let o := match offset with Some n => n | None => 0 end in
  sql_limit l o
    (order_by_desc s_started_at
       (filter (opt_filter branch (fun v r => col_eq (s_git_branch r) v))
               (sessions db))).

(** *** Agent operations *)

(** What the caller passes: the type and the description are whatever
    values the hook read from the tool input. *)
Record AgentData : Type := mkAgentData {
  ad_id : string;
  ad_sessionId : string;
  ad_parentAgentId : option string;
  ad_agentType : option json;
  ad_description : option json
}.

Definition decimal (z : Z) : string :=
  NilZero.string_of_int (Z.to_int z).

(** Trailing zeros dropped: a digit is kept when it is not a zero or when
    something is kept after it. *)
Fixpoint drop_zeros (s : string) : string :=
  match s with
  | EmptyString => EmptyString
  | String c rest =>
      match drop_zeros rest with
      | EmptyString => if Ascii.eqb c "0" then EmptyString else String c ""
      | kept => String c kept
      end
  end.

(** A REAL that holds the integer [z], [10^15 <= |z|], as SQLite turns it
    into text (its [%!.15g]): fifteen significant digits, rounded half up,
    no trailing zeros but for one decimal, and the exponent. *)
Definition real_text (z : Z) : string :=
  let a := Z.abs z in
  let n := Z.of_nat (String.length (decimal a)) in
  let m := (a + 5 * 10 ^ (n - 16)) / 10 ^ (n - 15) in
  let '(m, e) := if m =? 10 ^ 15 then (10 ^ 14, n) else (m, n - 1) in
  let fraction :=
    match drop_zeros (String.substring 1 14 (decimal m)) with
    | EmptyString => "0"
    | kept => kept
    end in
  let sign := if z <? 0 then "-" else "" in
  (sign ++ String.substring 0 1 (decimal m) ++ "." ++ fraction ++ "e+"
   ++ decimal e)%string.

(** A number bound to a TEXT column: the runtime binds an integer of at
    most 52 bits as an SQL integer, whose text is its decimal writing, and
    any other number as a REAL. *)
Definition number_text (z : Z) : string :=
  if (- 2 ^ 51 <=? z) && (z <? 2 ^ 51) then decimal z else real_text z.

(** A parameter bound to a TEXT column: null stays NULL, a string is
    stored as it is, a number as its text, a boolean (which is bound as 1
    or 0) as that digit; an array or an object cannot be bound, and the
    call throws ([None]). *)
Definition bind_text (v : option json) : option (option string) :=
  match v with
  | None | Some JNull => Some None
  | Some (JStr s) => Some (Some s)
  | Some (JNum z) => Some (Some (number_text z))
  | Some (JBool b) => Some (Some (if b then "1" else "0"))
  | Some (JArr _) | Some (JObj _) => None
  end.

(** [INSERT] into a table with a primary key: the statement fails, and the
    call throws, when the id is taken.  The status is the column's default,
    'running'. *)
Definition createAgent (now : time) (data : AgentData) (db : Database)
    : option Database :=
  match bind_text (json_or_null (ad_agentType data)),
        bind_text (json_or_null (ad_description data)) with
  | Some agent_type, Some description =>
      if existsb (fun r => String.eqb (a_id r) (ad_id data)) (agents db)
      then None
      else Some (set_agents
                   (agents db ++
                    [mkAgent (ad_id data) (ad_sessionId data)
                             (or_null (ad_parentAgentId data))
                             agent_type description now None "running"])
                   db)
  | _, _ => None
  end.

Definition close_agent (now : time) (status : string) (r : Agent) : Agent :=
  mkAgent (a_id r) (a_session_id r) (a_parent_agent_id r) (a_agent_type r)
          (a_description r) (a_started_at r) (Some now) status.

(** [endAgent(agentId, status = 'completed')]. *)
Definition endAgent (now : time) (agentId : string) (status : option string)
    (db : Database) : Database :=
  let st := match status with Some s => s | None => "completed" end in
  set_agents
    (map (fun r => if String.eqb (a_id r) agentId
                   then close_agent now st r else r)
         (agents db))
    db.

(** [getAgents(sessionId?, limit = 100)]. *)
Definition getAgents (sessionId : option string) (limit : option Z)
    (db : Database) : list Agent :=
  let l := match limit with Some n => n | None => 100 end in
  sql_limit l 0
    (order_by_desc a_started_at
       (filter (opt_filter sessionId
                  (fun v r => String.eqb (a_session_id r) v))
               (agents db))).

(** *** Tool use operations *)

Record ToolStart : Type := mkToolStart {
  ts_sessionId : string;
  ts_agentId : option string;
  ts_toolName : string;
  ts_toolInput : option json
}.

(** Returns the store and [lastInsertRowid].  The status is the column's
    default, 'pending'. *)
Definition recordToolStart (now : time) (data : ToolStart) (db : Database)
    : Database * Z :=
  let id := seq_tool_uses db + 1 in
  (mkDatabase (sessions db) (agents db)
     (tool_uses db ++
      [mkToolUse id (ts_sessionId data) (or_null (ts_agentId data))
                 (ts_toolName data) (json_or_null (ts_toolInput data))
                 None now None None "pending" None])
     (events db) id (seq_events db),
   id).

Record ToolEnd : Type := mkToolEnd {
  te_output : option json;
  te_status : string;
  te_error : option json
}.

(** [(julianday(datetime('now')) - julianday(started_at)) * 86400000]:
    the difference of two doubles, in days, times the milliseconds of a
    day.  The column has INTEGER affinity, which turns a REAL into an
    integer only when nothing is lost: the value is kept as it is. *)
Definition elapsed_ms (now started : time) : Q :=
  Double.mul (Double.sub (julianday now) (julianday started)) 86400000.

Definition finish_tool (now : time) (output : option json) (status : string)
    (error : option string) (r : ToolUse) : ToolUse :=
  mkToolUse (t_id r) (t_session_id r) (t_agent_id r) (t_tool_name r)
            (t_tool_input r) output (t_started_at r) (Some now)
            (Some (elapsed_ms now (t_started_at r))) status error.

(** The error is bound to a TEXT column; when it cannot be bound the call
    throws ([None]) and no row is updated. *)
Definition recordToolEnd (now : time) (id : Z) (data : ToolEnd)
    (db : Database) : option Database :=
  match bind_text (json_or_null (te_error data)) with
  | None => None
  | Some error =>
      Some (set_tool_uses
              (map (fun r => if t_id r =? id
                             then finish_tool now
                                    (json_or_null (te_output data))
                                    (te_status data) error r
                             else r)
                   (tool_uses db))
              db)
  end.

(** The three sweeping updates leave [tool_output] as it is. *)
Definition interrupt_tool (now : time) (error : string) (r : ToolUse)
    : ToolUse :=
  finish_tool now (t_tool_output r) "interrupted" (Some error) r.

Definition is_pending (r : ToolUse) : bool := String.eqb (t_status r) "pending".

Definition markPendingToolsInterrupted (now : time) (sessionId : string)
    (db : Database) : Database :=
  set_tool_uses
    (map (fun r => if String.eqb (t_session_id r) sessionId && is_pending r
                   then interrupt_tool now
                          "Session ended before tool completed" r
                   else r)
         (tool_uses db))
    db.

(** [SELECT id FROM sessions WHERE ended_at IS NOT NULL]. *)
Definition ended_session_ids (db : Database) : list string :=
  map s_id
      (filter (fun s => match s_ended_at s with Some _ => true | None => false end)
              (sessions db)).

(** First statement of the sweep: pending rows of ended sessions. *)
Definition sweep_ended (now : time) (db : Database) : Database :=
  set_tool_uses
    (map (fun r => if is_pending r
                      && sql_in (t_session_id r) (ended_session_ids db)
                   then interrupt_tool now "Session ended abnormally" r
                   else r)
         (tool_uses db))
    db.

(** Second statement: pending rows started more than an hour ago. *)
Definition sweep_old (now : time) (db : Database) : Database :=
  set_tool_uses
    (map (fun r => if is_pending r && (t_started_at r <? now - 3600)
                   then interrupt_tool now
                          "Stale pending tool (session likely ended abnormally)"
                          r
                   else r)
         (tool_uses db))
    db.

Definition cleanupStalePendingTools (now : time) (db : Database) : Database :=
  sweep_old now (sweep_ended now db).

Record ToolFilters : Type := mkToolFilters {
  tf_sessionId : option string;
  tf_agentId : option string;
  tf_toolName : option string;
  tf_status : option string;
  tf_limit : option Z;
  tf_offset : option Z
}.

Definition getToolUses (f : ToolFilters) (db : Database) : list ToolUse :=
  sql_limit (num_or (tf_limit f) 100) (num_or (tf_offset f) 0)
    (order_by_desc t_started_at
       (filter (fun r =>
                  opt_filter (tf_sessionId f)
                    (fun v r => String.eqb (t_session_id r) v) r
                  && opt_filter (tf_agentId f)
                       (fun v r => col_eq (t_agent_id r) v) r
                  && opt_filter (tf_toolName f)
                       (fun v r => String.eqb (t_tool_name r) v) r
                  && opt_filter (tf_status f)
                       (fun v r => String.eqb (t_status r) v) r)
               (tool_uses db))).

(** *** Event operations *)

Record EventData : Type := mkEventData {
  ev_sessionId : string;
  ev_agentId : option string;
  ev_eventType : string;
  ev_eventData : option json
}.

Definition recordEvent (now : time) (data : EventData) (db : Database)
    : Database :=
  let id := seq_events db + 1 in
  mkDatabase (sessions db) (agents db) (tool_uses db)
    (events db ++
     [mkEvent id (ev_sessionId data) (or_null (ev_agentId data))
              (ev_eventType data) (json_or_null (ev_eventData data)) now])
    (seq_tool_uses db) id.

Record EventFilters : Type := mkEventFilters {
  ef_sessionId : option string;
  ef_agentId : option string;
  ef_eventType : option string;
  ef_limit : option Z
}.

Definition getEvents (f : EventFilters) (db : Database) : list Event :=
  sql_limit (num_or (ef_limit f) 100) 0
    (order_by_desc e_timestamp
       (filter (fun r =>
                  opt_filter (ef_sessionId f)
                    (fun v r => String.eqb (e_session_id r) v) r
                  && opt_filter (ef_agentId f)
                       (fun v r => col_eq (e_agent_id r) v) r
                  && opt_filter (ef_eventType f)
                       (fun v r => String.eqb (e_event_type r) v) r)
               (events db))).

(** *** Timeline *)

(** One row of the unified timeline. *)
Record TimelineRow : Type := mkTimelineRow {
  tl_type : string;
  tl_id : Z;
  tl_session_id : string;
  tl_agent_id : option string;
  tl_name : string;
  tl_timestamp : time;
  tl_status : option string;
  tl_duration_ms : option Q;
  tl_data : option json
}.

Definition tool_row (r : ToolUse) : TimelineRow :=
  mkTimelineRow "tool" (t_id r) (t_session_id r) (t_agent_id r)
                (t_tool_name r) (t_started_at r) (Some (t_status r))
                (t_duration_ms r) (t_tool_input r).

Definition event_row (r : Event) : TimelineRow :=
  mkTimelineRow "event" (e_id r) (e_session_id r) (e_agent_id r)
                (e_event_type r) (e_timestamp r) None None (e_event_data r).

(** The time bounds are optional too, and are the caller's strings. *)
Record TimelineFilters : Type := mkTimelineFilters {
  lf_sessionId : option string;
  lf_startTime : option string;
  lf_endTime : option string;
  lf_limit : option Z
}.

(** [col >= ?] and [col <= ?] on a time column and a bound string: SQLite
    compares the two texts, byte by byte. *)
Definition time_ge (t : time) (bound : string) : bool :=
  String.leb bound (datetime t).

Definition time_le (t : time) (bound : string) : bool :=
  String.leb (datetime t) bound.

(** The WHERE clause built for [tool_uses]. *)
Definition toolWhere (f : TimelineFilters) (r : ToolUse) : bool :=
  opt_filter (lf_sessionId f) (fun v r => String.eqb (t_session_id r) v) r
  && opt_filter (lf_startTime f) (fun v r => time_ge (t_started_at r) v) r
  && opt_filter (lf_endTime f) (fun v r => time_le (t_started_at r) v) r.

(** The WHERE clause built for [events]. *)
Definition eventWhere (f : TimelineFilters) (r : Event) : bool :=
  opt_filter (lf_sessionId f) (fun v r => String.eqb (e_session_id r) v) r
  && opt_filter (lf_startTime f) (fun v r => time_ge (e_timestamp r) v) r
  && opt_filter (lf_endTime f) (fun v r => time_le (e_timestamp r) v) r.

(** [... UNION ALL ... ORDER BY timestamp DESC LIMIT ?] with
    [filters.limit || 200]. *)
Definition getTimeline (f : TimelineFilters) (db : Database)
    : list TimelineRow :=
  sql_limit (num_or (lf_limit f) 200) 0
    (order_by_desc tl_timestamp
       (map tool_row (filter (toolWhere f) (tool_uses db))
        ++ map event_row (filter (eventWhere f) (events db)))).

End Db.
Import Db.

(** ** The context file ([lib/context.ts]) *)
Module Context.

Record AgentariumContext : Type := mkContext {
  currentSessionId : option string;
  currentAgentId : option string;
  pendingToolUseId : option Z;
  agentStack : list string
}.

(** The value [getContext] falls back to. *)
Definition default : AgentariumContext := mkContext None None None [].

(** The file [context.json]: [None] when it is absent or does not parse. *)
Definition File : Type := option AgentariumContext.

Definition getContext (file : File) : AgentariumContext :=
  match file with
  | Some ctx => ctx
  | None => default
  end.

Definition saveContext (ctx : AgentariumContext) : File := Some ctx.

(** [Partial<AgentariumContext>]: the fields an update carries. *)
Record Updates : Type := mkUpdates {
  u_currentSessionId : option (option string);
  u_currentAgentId : option (option string);
  u_pendingToolUseId : option (option Z);
  u_agentStack : option (list string)
}.

(** [Object.assign(ctx, updates)]. *)
Definition assign (ctx : AgentariumContext) (u : Updates)
    : AgentariumContext :=
  mkContext
    (match u_currentSessionId u with Some v => v | None => currentSessionId ctx end)
    (match u_currentAgentId u with Some v => v | None => currentAgentId ctx end)
    (match u_pendingToolUseId u with Some v => v | None => pendingToolUseId ctx end)
    (match u_agentStack u with Some v => v | None => agentStack ctx end).

(** Reads the file again, merges, writes the file back. *)
Definition updateContext (u : Updates) (file : File) : File :=
  saveContext (assign (getContext file) u).

(** [`${Date.now()}-${Math.random().toString(36).substring(2, 9)}`], from
    the clock in milliseconds and the random digits. *)
Definition generateId (date_now : Z) (random36 : string) : string :=
  NilZero.string_of_int (Z.to_int date_now) ++ "-" ++ random36.

End Context.
Import Context.

(** ** The lifecycle hooks ([hooks/*.ts]) *)
Module Hooks.

(** What one hook process reads from its environment. *)
Record Env : Type := mkEnv {
  now : time;            (* datetime('now') *)
  date_now : Z;          (* Date.now() *)
  iso : string;          (* new Date().toISOString() *)
  random36 : string      (* Math.random().toString(36).substring(2, 9) *)
}.

(** The two files the hooks share. *)
Record State : Type := mkState {
  db : Database;
  context_file : File
}.

Definition init : State := mkState Db.empty None.

(** A field of an object literal: [JSON.stringify] leaves out a field
    whose value is undefined. *)
Definition opt_field (name : string) (v : option json)
    : list (string * json) :=
  match v with
  | Some j => [(name, j)]
  | None => []
  end.

(** *** session-start.ts *)

(** The project metadata the hook also touches ([project.json], the
    needs-restart flag) is not part of the state. *)
Definition session_start (env : Env) (data : SessionData) (st : State)
    : State :=
  let db1 := cleanupStalePendingTools (now env) (db st) in
  let sessionId := generateId (date_now env) (random36 env) in
  let db2 := createSession (now env) sessionId data db1 in
  mkState db2
    (updateContext
       (mkUpdates (Some (Some sessionId)) (Some None) (Some None) (Some []))
       (context_file st)).

(** *** pre-tool.ts *)
Record PreToolData : Type := mkPreToolData {
  pre_tool_name : option string;
  pre_tool_input : option json
}.

(** [taskInput?.description || taskInput?.prompt?.substring(0, 100)]:
    the description when it is truthy, whatever it is; else the first
    hundred characters of the prompt, undefined when there is no prompt or
    it is null.  A prompt that is anything else has no [substring]: the
    call throws ([None]). *)
Definition task_description (taskInput : option json)
    : option (option json) :=
  match json_or_null (field taskInput "description") with
  | Some d => Some (Some d)
  | None =>
      match field taskInput "prompt" with
      | None | Some JNull => Some None
      | Some (JStr p) => Some (Some (JStr (String.substring 0 100 p)))
      | Some _ => None
      end
  end.

(** The hook keeps the context it read at start in a local [ctx]; pushing
    on [ctx.agentStack] changes that local object, while [updateContext]
    works on a fresh copy read from the file, so that [ctx.currentAgentId]
    is still the one read at start when the tool use is recorded.  When
    reading the description or [createAgent] throws, the process dies
    before it has written anything. *)
Definition pre_tool (env : Env) (hookData : option PreToolData) (st : State)
    : State :=
  let ctx := getContext (context_file st) in
  match or_null (currentSessionId ctx) with
  | None => st
  | Some sessionId =>
      let toolName :=
        or_default (match hookData with
                    | Some d => pre_tool_name d
                    | None => None
                    end) "unknown" in
      let toolInput :=
        match hookData with Some d => pre_tool_input d | None => None end in
      let spawned : option State :=
        if String.eqb toolName "Task" then
          let agentId := generateId (date_now env) (random36 env) in
          match
            match task_description toolInput with
            | Some description =>
                createAgent (now env)
                  (mkAgentData agentId sessionId
                     (or_null (currentAgentId ctx))
                     (Some (json_or (field toolInput "subagent_type")
                                    (JStr "unknown")))
                     description)
                  (db st)
            | None => None
            end
          with
          | None => None
          | Some db1 =>
              let stack := (agentStack ctx ++ [agentId])%list in
              let file1 :=
                updateContext
                  (mkUpdates None (Some (Some agentId)) None (Some stack))
                  (context_file st) in
              let db2 :=
                recordEvent (now env)
                  (mkEventData sessionId (Some agentId) "agent_start"
                     (Some (JObj (opt_field "toolInput" toolInput))))
                  db1 in
              Some (mkState db2 file1)
          end
        else Some st in
      match spawned with
      | None => st
      | Some st1 =>
          let '(db3, toolUseId) :=
            recordToolStart (now env)
              (mkToolStart sessionId (or_null (currentAgentId ctx))
                           toolName toolInput)
              (db st1) in
          mkState db3
            (updateContext
               (mkUpdates None None (Some (Some toolUseId)) None)
               (context_file st1))
      end
  end.

(** *** post-tool.ts *)
Record PostToolData : Type := mkPostToolData {
  post_tool_output : option json;
  post_error : option json
}.

(** [hookData?.error || (typeof hookData?.tool_output === 'string' &&
    hookData.tool_output.includes('error'))], as a boolean. *)
Definition hasError (hookData : option PostToolData) : bool :=
  match hookData with
  | None => false
  | Some d =>
      match json_or_null (post_error d) with
      | Some _ => true
      | None =>
          match post_tool_output d with
          | Some (JStr s) => includes s "error"
          | _ => false
          end
      end
  end.

(** When [recordToolEnd] throws, the process dies before it has cleared
    the pending id. *)
Definition post_tool (env : Env) (hookData : option PostToolData)
    (st : State) : State :=
  let ctx := getContext (context_file st) in
  match pendingToolUseId ctx with
  | None => st
  | Some id =>
      if id =? 0 then st
      else
        match
          recordToolEnd (now env) id
            (mkToolEnd
               (match hookData with Some d => post_tool_output d | None => None end)
               (if hasError hookData then "error" else "success")
               (match hookData with Some d => post_error d | None => None end))
            (db st)
        with
        | None => st
        | Some db1 =>
            mkState db1
              (updateContext (mkUpdates None None (Some None) None)
                             (context_file st))
        end
  end.

(** *** subagent-stop.ts *)
Definition subagent_stop (env : Env) (result : option json) (st : State)
    : State :=
  let ctx := getContext (context_file st) in
  match or_null (currentSessionId ctx), rev (agentStack ctx) with
  | Some sessionId, completedAgentId :: below =>
      let stack := rev below in
      let db1 := endAgent (now env) completedAgentId (Some "completed") (db st) in
      let db2 :=
        recordEvent (now env)
          (mkEventData sessionId (Some completedAgentId) "agent_complete"
             (Some (JObj (opt_field "result" result
                          ++ [("timestamp", JStr (iso env))])%list)))
          db1 in
      mkState db2
        (updateContext
           (mkUpdates None (Some (hd_error below)) None (Some stack))
           (context_file st))
  | _, _ => st
  end.

(** *** stop.ts *)
Definition stop (env : Env) (stop_reason : option string) (st : State)
    : State :=
  let ctx := getContext (context_file st) in
  match or_null (currentSessionId ctx) with
  | Some sessionId =>
      mkState
        (recordEvent (now env)
           (mkEventData sessionId (or_null (currentAgentId ctx)) "turn_complete"
              (Some (JObj (opt_field "stopReason" (option_map JStr stop_reason)
                           ++ [("timestamp", JStr (iso env))])%list)))
           (db st))
        (context_file st)
  | None => st
  end.

(** *** session-end.ts *)
Definition session_end (env : Env) (st : State) : State :=
  let ctx := getContext (context_file st) in
  let db1 :=
    match or_null (currentSessionId ctx) with
    | Some sessionId =>
        endSession (now env) sessionId
          (recordEvent (now env)
             (mkEventData sessionId None "session_end"
                (Some (JObj [("endedAt", JStr (iso env))])))
             (markPendingToolsInterrupted (now env) sessionId (db st)))
    | None => db st
    end in
  mkState db1
    (updateContext
       (mkUpdates (Some None) (Some None) (Some None) (Some []))
       (context_file st)).

(** *** The correlator as a transition system *)
Inductive Hook : Type :=
| SessionStart (data : SessionData)
| PreToolInvocation (hookData : option PreToolData)
| PostToolInvocation (hookData : option PostToolData)
| SubagentStop (result : option json)
| Stop (stop_reason : option string)
| SessionEnd.

Definition step (env : Env) (h : Hook) (st : State) : State :=
  match h with
  | SessionStart data => session_start env data st
  | PreToolInvocation d => pre_tool env d st
  | PostToolInvocation d => post_tool env d st
  | SubagentStop r => subagent_stop env r st
  | Stop r => stop env r st
  | SessionEnd => session_end env st
  end.

(** Running a sequence of hook invocations, each with its environment. *)
Fixpoint run (trace : list (Env * Hook)) (st : State) : State :=
  match trace with
  | [] => st
  | (env, h) :: rest => run rest (step env h st)
  end.

End Hooks.
Import Hooks.

(** ** The raw-query tool of the MCP server *)
Module Mcp.

(** What a request handler does: it returns a value or throws an [Error]
    with a message. *)
Inductive Outcome (A : Type) : Type :=
| Returns (value : A)
| Throws (message : string).
Arguments Throws {A} message.

(** A JSON-RPC response: [{id, result}] or [{id, error: {code, message}}]. *)
Inductive Response (A : Type) : Type :=
| RpcResult (content : A)
| RpcError (code : Z) (message : string).
Arguments RpcError {A} code message.

Section RawQuery.

(** The storage engine: [db.query(sql).all()] on a store gives the store
    afterwards and the rows, or throws the engine's own error. *)
Variable Rows : Type.
Variable sqlite_all : string -> Database -> Database * Outcome Rows.

(** [case "agentarium_query_db"] of [handleToolCall]. *)
Definition query_db (query : string) (store : Database)
    : Database * Outcome Rows :=
  let folded := toLowerCase (trim query) in
  if negb (startsWith folded "select")
  then (store, Throws "Only SELECT queries are allowed")
  else sqlite_all query store.

(** [case "tools/call"] of [handleRequest] for this tool, with the
    surrounding [try]/[catch]: the value returned is the result (which the
    code wraps as pretty-printed JSON text), a thrown [Error] becomes the
    internal-error response carrying its message. *)
Definition handleRequest_query_db (query : string) (store : Database)
    : Database * Response Rows :=
  match query_db query store with
  | (store', Returns rows) => (store', RpcResult rows)
  | (store', Throws message) => (store', RpcError (-32603) message)
  end.

End RawQuery.

End Mcp.

(** ** The project metadata file ([lib/project.ts]) *)
Module Project.

Record ProjectMetadata : Type := mkProjectMetadata {
  initialized : bool;
  created_at : string;
  auto_open_dashboard : bool;
  dashboard_port : Z;
  needs_restart : option bool
}.

(** The file [project.json]: it is not there, it is there and does not
    parse, or it holds the metadata. *)
Inductive File : Type :=
| Absent
| Corrupt
| Stored (m : ProjectMetadata).

(** [existsSync(PROJECT_FILE)]. *)
Definition isProjectInitialized (file : File) : bool :=
  match file with
  | Absent => false
  | _ => true
  end.

Definition getProjectMetadata (file : File) : option ProjectMetadata :=
  match file with
  | Stored m => Some m
  | _ => None
  end.

Definition saveProjectMetadata (m : ProjectMetadata) : File := Stored m.

(** [DEFAULT_PROJECT_METADATA] with [created_at] set to the time of the
    call. *)
Definition default_metadata (iso : string) : ProjectMetadata :=
  mkProjectMetadata true iso true 3847 (Some true).

(** Returns the message and the file afterwards ([success] is always
    true and [path] a constant). *)
Definition initializeProject (iso : string) (file : File) : string * File :=
  if isProjectInitialized file
  then ("Project already initialized", file)
  else ("Project initialized successfully",
        saveProjectMetadata (default_metadata iso)).

(** [Partial<ProjectMetadata>]. *)
Record MetadataUpdates : Type := mkMetadataUpdates {
  up_initialized : option bool;
  up_created_at : option string;
  up_auto_open_dashboard : option bool;
  up_dashboard_port : option Z;
  up_needs_restart : option bool
}.

(** [{ ...metadata, ...updates }]. *)
Definition spread (m : ProjectMetadata) (u : MetadataUpdates)
    : ProjectMetadata :=
  mkProjectMetadata
    (match up_initialized u with Some v => v | None => initialized m end)
    (match up_created_at u with Some v => v | None => created_at m end)
    (match up_auto_open_dashboard u with
     | Some v => v
     | None => auto_open_dashboard m
     end)
    (match up_dashboard_port u with Some v => v | None => dashboard_port m end)
    (match up_needs_restart u with
     | Some v => Some v
     | None => needs_restart m
     end).

Definition updateProjectMetadata (u : MetadataUpdates) (file : File)
    : option ProjectMetadata * File :=
  match getProjectMetadata file with
  | None => (None, file)
  | Some m => (Some (spread m u), saveProjectMetadata (spread m u))
  end.

Definition clearNeedsRestart (file : File) : File :=
  match getProjectMetadata file with
  | Some m =>
      match needs_restart m with
      | Some true =>
          saveProjectMetadata
            (spread m (mkMetadataUpdates None None None None (Some false)))
      | _ => file
      end
  | None => file
  end.

(** What [session-start.ts] does to the file: it initialises the project
    when the file is absent, and clears the restart flag at the end. *)
Definition session_start_project (iso : string) (file : File) : File :=
  let file1 :=
    if negb (isProjectInitialized file)
    then snd (initializeProject iso file) else file in
  clearNeedsRestart file1.

(** [case "agentarium_update_project_settings"] of [handleToolCall]: the
    thrown message, or the metadata returned, and the file. *)
Definition update_project_settings (auto_open : option bool)
    (port : option Z) (file : File)
    : (string + option ProjectMetadata) * File :=
  if negb (isProjectInitialized file)
  then (inl "Project not initialized. Run agentarium_initialize first.", file)
  else
    let '(updated, file') :=
      updateProjectMetadata
        (mkMetadataUpdates None None auto_open port None) file in
    (inr updated, file').

(** [GET /api/project-status]: initialized, needs_restart,
    auto_open_dashboard, dashboard_port. *)
Definition project_status (file : File) : bool * bool * bool * Z :=
  match getProjectMetadata file with
  | Some m =>
      (true,
       match needs_restart m with Some b => b | None => false end,
       auto_open_dashboard m,
       dashboard_port m)
  | None => (false, false, true, 3847)
  end.

End Project.

(** ** JavaScript objects with string keys *)
Module Obj.

Section Obj.

Variable V : Type.

(** The own properties of an object, in insertion order, which is the
    order of [Object.entries] and [Object.keys] for names that are not
    array indices, as event names are. *)
Definition t : Type := list (string * V).

Fixpoint get (k : string) (o : t) : option V :=
  match o with
  | [] => None
  | (k', v) :: rest => if String.eqb k' k then Some v else get k rest
  end.

(** [o[k] = v]: a property that is there keeps its place. *)
Fixpoint set (k : string) (v : V) (o : t) : t :=
  match o with
  | [] => [(k, v)]
  | (k', v') :: rest =>
      if String.eqb k' k then (k, v) :: rest else (k', v') :: set k v rest
  end.

(** [delete o[k]]. *)
Definition delete (k : string) (o : t) : t :=
  filter (fun kv => negb (String.eqb (fst kv) k)) o.

Definition keys (o : t) : list string := map fst o.

End Obj.

(** The names every object inherits from [Object.prototype].  Read on an
    object that has no own property of that name, each gives a function
    or, for ["__proto__"], the prototype itself: a value that is truthy and
    is not an array. *)
Definition inherited (k : string) : bool :=
  existsb (String.eqb k)
    ["constructor"; "toString"; "toLocaleString"; "valueOf";
     "hasOwnProperty"; "isPrototypeOf"; "propertyIsEnumerable";
     "__proto__"; "__defineGetter__"; "__defineSetter__";
     "__lookupGetter__"; "__lookupSetter__"].

End Obj.

(** ** Hook registration in the settings file *)
Module Settings.

Record HookEntry : Type := mkHookEntry {
  command : string
}.

Record HookMatcher : Type := mkHookMatcher {
  tools : option (list string)
}.

Record HookDefinition : Type := mkHookDefinition {
  matcher : option HookMatcher;
  hooks : list HookEntry
}.

(** Event name to definitions.  The event names are not numbers, so the
    keys come in insertion order. *)
Definition HooksConfig : Type := Obj.t (list HookDefinition).

(** The settings document: its [hooks] key and the keys it does not
    look at. *)
Record SettingsJson : Type := mkSettingsJson {
  s_hooks : option HooksConfig;
  s_other : list (string * json)
}.

(** The file [settings.local.json]: [None] when absent or unparsable. *)
Definition File : Type := option SettingsJson.

Definition readSettings (file : File) : SettingsJson :=
  match file with
  | Some s => s
  | None => mkSettingsJson None []
  end.

Definition writeSettings (s : SettingsJson) : File := Some s.

Definition set_hooks (h : option HooksConfig) (s : SettingsJson)
    : SettingsJson :=
  mkSettingsJson h (s_other s).

(** The double quote character, as a string. *)
Definition dquote : string := String (ascii_of_nat 34) EmptyString.

Section Root.

(** [AGENTARIUM_ROOT]: the plugin's directory. *)
Variable AGENTARIUM_ROOT : string.

Definition isAgentariumHookDefinition (def : HookDefinition) : bool :=
  existsb (fun h => includes (command h) "agentarium"
                    || includes (command h) AGENTARIUM_ROOT)
          (hooks def).

Definition hasAgentariumHooks (config : HooksConfig) : bool :=
  existsb (fun kv => existsb isAgentariumHookDefinition (snd kv)) config.

(** [`bun "${AGENTARIUM_ROOT}/hooks/<script>"`]. *)
Definition tracking_command (script : string) : string :=
  "bun " ++ dquote ++ AGENTARIUM_ROOT ++ "/hooks/" ++ script ++ dquote.

Definition tracking_hook (script : string) : list HookDefinition :=
  [mkHookDefinition None [mkHookEntry (tracking_command script)]].

Definition getTrackingHooks : HooksConfig :=
  [("SessionStart", tracking_hook "session-start.ts");
   ("SessionEnd", tracking_hook "session-end.ts");
   ("PreToolUse", tracking_hook "pre-tool.ts");
   ("PostToolUse", tracking_hook "post-tool.ts");
   ("Stop", tracking_hook "stop.ts");
   ("SubagentStop", tracking_hook "subagent-stop.ts")].

Definition removeAgentariumHooksFromConfig (config : HooksConfig)
    : HooksConfig :=
  fold_left
    (fun result kv =>
       let filtered :=
         filter (fun def => negb (isAgentariumHookDefinition def)) (snd kv) in
       match filtered with
       | [] => result
       | _ => Obj.set (fst kv) filtered result
       end)
    config [].

Definition mergeHooks (existing toAdd : HooksConfig) : HooksConfig :=
  fold_left
    (fun result kv =>
       let result1 :=
         match Obj.get (fst kv) result with
         | Some _ => result
         | None => Obj.set (fst kv) [] result
         end in
       Obj.set (fst kv)
         (match Obj.get (fst kv) result1 with
          | Some defs => defs
          | None => []
          end ++ snd kv)%list
         result1)
    toAdd existing.

Definition areHooksInstalled (file : File) : bool :=
  match s_hooks (readSettings file) with
  | Some config => hasAgentariumHooks config
  | None => false
  end.

(** [installHooks], and [case "agentarium_install_tracking"], which is the
    same code. *)
Definition installHooks (file : File) : File :=
  let settings := readSettings file in
  let cleanedHooks :=
    match s_hooks settings with
    | Some config => removeAgentariumHooksFromConfig config
    | None => []
    end in
  writeSettings
    (set_hooks (Some (mergeHooks cleanedHooks getTrackingHooks)) settings).

(** [case "agentarium_uninstall_tracking"]: the [removed] flag and the
    file. *)
Definition uninstall_tracking (file : File) : bool * File :=
  let settings := readSettings file in
  let hadHooks :=
    match s_hooks settings with
    | Some config => hasAgentariumHooks config
    | None => false
    end in
  let settings' :=
    match s_hooks settings with
    | Some config =>
        match removeAgentariumHooksFromConfig config with
        | [] => set_hooks None settings
        | cleaned => set_hooks (Some cleaned) settings
        end
    | None => settings
    end in
  (hadHooks, writeSettings settings').

(** [case "agentarium_check_tracking"]: the installed and the missing
    events. *)
Definition check_tracking (file : File) : list string * list string :=
  let config :=
    match s_hooks (readSettings file) with Some c => c | None => [] end in
  let installed (event : string) : bool :=
    match Obj.get event config with
    | Some defs => existsb isAgentariumHookDefinition defs
    | None => false
    end in
  (filter installed (Obj.keys getTrackingHooks),
   filter (fun e => negb (installed e)) (Obj.keys getTrackingHooks)).

(** [case "agentarium_add_custom_hook"]: a falsy matcher is left out.
    [settings.hooks[event]] is the event's own list when it has one.  When
    it has none and the name is one that objects inherit, the value read is
    the inherited one: it is truthy, so no list is created, and it has no
    [push], so the call throws before anything is written ([None]). *)
Definition add_custom_hook (event script : string)
    (toolMatcher : option string) (file : File) : option File :=
  let settings := readSettings file in
  let newHookDef :=
    mkHookDefinition
      (match or_null toolMatcher with
       | Some m => Some (mkHookMatcher (Some [m]))
       | None => None
       end)
      [mkHookEntry script] in
  let config := match s_hooks settings with Some c => c | None => [] end in
  let added (defs : list HookDefinition) : option File :=
    Some (writeSettings
            (set_hooks
               (Some (Obj.set event (defs ++ [newHookDef])%list config))
               settings)) in
  match Obj.get event config with
  | Some defs => added defs
  | None => if Obj.inherited event then None else added []
  end.

(** [eventHooks.splice(index, 1)] for an integer index that has passed the
    bounds test, or for a missing index, which splices at 0. *)
Fixpoint splice1 (A : Type) (index : nat) (l : list A) : list A :=
  match index, l with
  | _, [] => []
  | O, _ :: rest => rest
  | S i, x :: rest => x :: splice1 i rest
  end.

(** [case "agentarium_remove_hook"]: the thrown message, or the removed
    definition, and the file. *)
Definition remove_hook (event : option string) (index : option Z)
    (file : File)
    : (string + option HookDefinition) * File :=
  let settings := readSettings file in
  let config := match s_hooks settings with Some c => c | None => [] end in
  match or_null event with
  | None => (inl "Event type is required for removing hooks", file)
  | Some ev =>
      let out_of_range (defs : list HookDefinition) : bool :=
        match index with
        | Some i => (i <? 0) || (Z.of_nat (List.length defs) <=? i)
        | None => false
        end in
      let invalid :=
        "Invalid hook index: "
        ++ match index with
           | Some i => NilZero.string_of_int (Z.to_int i)
           | None => "undefined"
           end
        ++ " for event " ++ ev in
      match Obj.get ev config with
      | None => (inl invalid, file)
      | Some eventHooks =>
          if out_of_range eventHooks then (inl invalid, file)
          else
            let i := match index with Some i => Z.to_nat i | None => O end in
            let removed := nth_error eventHooks i in
            let rest := splice1 i eventHooks in
            let config1 :=
              match rest with
              | [] => Obj.delete ev config
              | _ => Obj.set ev rest config
              end in
            let settings' :=
              match config1 with
              | [] => set_hooks None settings
              | _ => set_hooks (Some config1) settings
              end in
            (inr removed, writeSettings settings')
      end
  end.

(** One line of [case "agentarium_list_project_hooks"]. *)
Record ListedHook : Type := mkListedHook {
  lh_event : string;
  lh_command : string;
  lh_matcher : option HookMatcher;
  lh_is_agentarium : bool
}.

(** [case "agentarium_list_project_hooks"]: one line per hook entry. *)
Definition list_project_hooks (file : File) : list ListedHook :=
  let config :=
    match s_hooks (readSettings file) with Some c => c | None => [] end in
  flat_map
    (fun kv =>
       flat_map
         (fun def =>
            map (fun h => mkListedHook (fst kv) (command h) (matcher def)
                            (isAgentariumHookDefinition def))
                (hooks def))
         (snd kv))
    config.

End Root.

End Settings.

(** ** The reports of the event store ([lib/database.ts]) *)
Module Reports.

(** [ORDER BY col] on a text column: ascending, byte by byte. *)
Fixpoint insert_text (x : string) (l : list string) : list string :=
  match l with
  | [] => [x]
  | y :: rest => if String.leb x y then x :: l else y :: insert_text x rest
  end.

Definition order_by_text (l : list string) : list string :=
  fold_right insert_text [] l.

(** [SELECT DISTINCT git_branch FROM sessions WHERE git_branch IS NOT NULL
    ORDER BY git_branch]. *)
Definition getGitBranches (d : Database) : list string :=
  order_by_text
    (nodup string_dec
       (flat_map (fun s => match s_git_branch s with
                           | Some b => [b]
                           | None => []
                           end)
                 (sessions d))).

Section Groups.

Variables (Row Key : Type).
Variable key_eqb : Key -> Key -> bool.

(** The distinct keys of a table, each at its first occurrence. *)
Fixpoint distinct (seen : list Key) (ks : list Key) : list Key :=
  match ks with
  | [] => []
  | k :: rest =>
      if existsb (key_eqb k) seen then distinct seen rest
      else k :: distinct (k :: seen) rest
  end.

(** [SELECT key, COUNT( * ) ... GROUP BY key]: one line per distinct key,
    with the rows of its group. *)
Definition group_by (key : Row -> Key) (rows : list Row)
    : list (Key * list Row) :=
  map (fun k => (k, filter (fun r => key_eqb (key r) k) rows))
      (distinct [] (map key rows)).

End Groups.

Definition opt_string_eqb (a b : option string) : bool :=
  match a, b with
  | Some x, Some y => String.eqb x y
  | None, None => true
  | _, _ => false
  end.

(** [AVG(duration_ms)] over the rows whose duration is not NULL: kept as
    the durations it is the mean of; NULL when there is none. *)
Definition avg_duration (rows : list ToolUse) : option (list Q) :=
  let ds := flat_map (fun r => match t_duration_ms r with
                               | Some d => [d]
                               | None => []
                               end) rows in
  match ds with
  | [] => None
  | _ => Some ds
  end.

Record ToolCount : Type := mkToolCount {
  tc_tool_name : string;
  tc_count : Z;
  tc_avg_duration : option (list Q)
}.

(** [strftime('%Y-%m-%d %H:00', started_at)]: the hour a time falls in,
    as the number of hours since the epoch. *)
Definition hour_of (t : time) : Z := t / 3600.

Record Analytics : Type := mkAnalytics {
  toolCounts : list ToolCount;
  statusCounts : list (string * Z);
  agentCounts : list (option string * Z);
  hourlyActivity : list (Z * Z)
}.

Definition count_of (A K : Type) (g : K * list A) : K * Z :=
  (fst g, Z.of_nat (List.length (snd g))).

(** [getAnalytics(sessionId?)]: the same optional session filter on the
    four queries. *)
Definition getAnalytics (sessionId : option string) (d : Database)
    : Analytics :=
  let tools :=
    filter (opt_filter sessionId (fun v r => String.eqb (t_session_id r) v))
           (tool_uses d) in
  let agts :=
    filter (opt_filter sessionId (fun v r => String.eqb (a_session_id r) v))
           (agents d) in
  mkAnalytics
    (order_by_desc tc_count
       (map (fun g => mkToolCount (fst g) (Z.of_nat (List.length (snd g)))
                                  (avg_duration (snd g)))
            (group_by String.eqb t_tool_name tools)))
    (map (@count_of _ _) (group_by String.eqb t_status tools))
    (map (@count_of _ _) (group_by opt_string_eqb a_agent_type agts))
    (sql_limit 24 0
       (order_by_desc fst
          (map (@count_of _ _)
               (group_by Z.eqb (fun r => hour_of (t_started_at r)) tools)))).

End Reports.

(** ** The MCP server: bootstrap and main loop *)
Module Server.


(** *** The text read from the input *)

(** The input arrives as bytes; a JavaScript string is a list of UTF-16
    code units, kept here as numbers. *)
Definition bytes : Type := list Z.
Definition text : Type := list Z.

(** The state of the UTF-8 decoder: the code point under construction,
    the continuation bytes seen and needed, and the range the next byte
    has to lie in. *)
Record Decoder : Type := mkDecoder {
  code_point : Z;
  bytes_seen : Z;
  bytes_needed : Z;
  lower : Z;
  upper : Z
}.

Definition start : Decoder := mkDecoder 0 0 0 128 191.

(** The replacement character, which stands for a malformed sequence. *)
Definition replacement : Z := 65533.

(** A byte read when no sequence is under way. *)
Definition lead (b : Z) : Decoder * list Z :=
  if b <=? 127 then (start, [b])
  else if (194 <=? b) && (b <=? 223)
  then (mkDecoder (Z.land b 31) 0 1 128 191, [])
  else if (224 <=? b) && (b <=? 239)
  then (mkDecoder (Z.land b 15) 0 2
                  (if b =? 224 then 160 else 128)
                  (if b =? 237 then 159 else 191), [])
  else if (240 <=? b) && (b <=? 244)
  then (mkDecoder (Z.land b 7) 0 3
                  (if b =? 240 then 144 else 128)
                  (if b =? 244 then 143 else 191), [])
  else (start, [replacement]).

(** One byte: a continuation byte out of its range ends the sequence with
    a replacement character and is read again as a first byte. *)
Definition decode_byte (d : Decoder) (b : Z) : Decoder * list Z :=
  if bytes_needed d =? 0 then lead b
  else if (lower d <=? b) && (b <=? upper d)
  then
    let cp := code_point d * 64 + Z.land b 63 in
    if bytes_seen d + 1 =? bytes_needed d then (start, [cp])
    else (mkDecoder cp (bytes_seen d + 1) (bytes_needed d) 128 191, [])
  else let '(d', out) := lead b in (d', replacement :: out).

Fixpoint decode_bytes (d : Decoder) (input : bytes) : Decoder * list Z :=
  match input with
  | [] => (d, [])
  | b :: rest =>
      let '(d1, out1) := decode_byte d b in
      let '(d2, out2) := decode_bytes d1 rest in
      (d2, (out1 ++ out2)%list)
  end.

(** The code points of a chunk decoded on its own: a sequence cut by the
    end of the chunk gives a replacement character. *)
Definition code_points (input : bytes) : list Z :=
  let '(d, out) := decode_bytes start input in
  (out ++ if bytes_needed d =? 0 then [] else [replacement])%list.

(** A byte order mark at the head of what a call decodes is dropped. *)
Definition strip_bom (points : list Z) : list Z :=
  match points with
  | p :: rest => if p =? 65279 then rest else points
  | [] => []
  end.

(** A code point above the basic plane is a pair of surrogates. *)
Definition code_units (p : Z) : list Z :=
  if p <? 65536 then [p]
  else [55296 + (p - 65536) / 1024; 56320 + (p - 65536) mod 1024].

(** [new TextDecoder().decode(chunk)]: each call starts afresh. *)
Definition decode (chunk : bytes) : text :=
  flat_map code_units (strip_bom (code_points chunk)).

(** White space and line terminators, as [String.prototype.trim] sees
    them. *)
Definition is_space_unit (c : Z) : bool :=
  (9 <=? c) && (c <=? 13) || (c =? 32) || (c =? 160) || (c =? 5760)
  || (8192 <=? c) && (c <=? 8202) || (c =? 8232) || (c =? 8233)
  || (c =? 8239) || (c =? 8287) || (c =? 12288) || (c =? 65279).

(** [s.split("\n")]. *)
Fixpoint split_lines (s : text) : list text :=
  match s with
  | [] => [[]]
  | c :: rest =>
      if c =? 10 then [] :: split_lines rest
      else
        match split_lines rest with
        | [] => [[c]]
        | line :: lines => (c :: line) :: lines
        end
  end.

(** One read of the main loop, [buffer += decoder.decode(chunk)]: the
    complete lines and the new buffer ([lines.pop() || ""]). *)
Definition read_chunk (buffer : text) (chunk : bytes) : list text * text :=
  let lines := split_lines (buffer ++ decode chunk)%list in
  (removelast lines, last lines []).

Section Loop.

(** The server's state and what it does with a line that is not blank:
    parse it, handle the request, and print the response, if any. *)
Variable St : Type.
Variable handle_line : text -> St -> St * option string.

(** [if (!line.trim()) continue]: a line of white space only is
    skipped. *)
Definition process_line (line : text) (st : St) : St * list string :=
  if forallb is_space_unit line then (st, [])
  else
    match handle_line line st with
    | (st', Some response) => (st', [response])
    | (st', None) => (st', [])
    end.

Fixpoint process_lines (lines : list text) (st : St) : St * list string :=
  match lines with
  | [] => (st, [])
  | line :: rest =>
      let '(st1, out1) := process_line line st in
      let '(st2, out2) := process_lines rest st1 in
      (st2, (out1 ++ out2)%list)
  end.

(** The loop over the chunks read from the input: the buffer and the
    state at the end, and everything printed. *)
Fixpoint main_loop (chunks : list bytes) (buffer : text) (st : St)
    : text * St * list string :=
  match chunks with
  | [] => (buffer, st, [])
  | chunk :: rest =>
      let '(lines, buffer1) := read_chunk buffer chunk in
      let '(st1, out1) := process_lines lines st in
      let '(buffer2, st2, out2) := main_loop rest buffer1 st1 in
      (buffer2, st2, (out1 ++ out2)%list)
  end.

End Loop.

End Server.

(** * Vocabulary of the properties *)
Module Terms.

(** ** Sorted lists *)

(** Non-increasing keys along a list. *)
Definition desc (A : Type) (key : A -> Z) : list A -> Prop :=
  StronglySorted (fun x y => key y <= key x).

(** ** The sweep, row by row *)

(** What the two statements of the sweep do to one row, the set of ended
    sessions being fixed. *)
Definition sweep_row (now : time) (ended : list string) (r : ToolUse)
    : ToolUse :=
  let r1 := if is_pending r && sql_in (t_session_id r) ended
            then interrupt_tool now "Session ended abnormally" r else r in
  if is_pending r1 && (t_started_at r1 <? now - 3600)
  then interrupt_tool now
         "Stale pending tool (session likely ended abnormally)" r1
  else r1.

(** ** Sequences of hooks *)

Definition ctx (st : State) : AgentariumContext := getContext (context_file st).

(** The hooks that fire between SessionStart and SessionEnd. *)
Definition inner (h : Hook) : bool :=
  match h with
  | SessionStart _ | SessionEnd => false
  | _ => true
  end.

(** A sequence of paired pre- and post-invocations. *)
Definition paired
    (pairs : list ((Env * option PreToolData) * (Env * option PostToolData)))
    : list (Env * Hook) :=
  flat_map (fun p =>
              [(fst (fst p), PreToolInvocation (snd (fst p)));
               (fst (snd p), PostToolInvocation (snd (snd p)))])
           pairs.

(** ** The status of a finished tool use *)

(** The two fields of a post-invocation, undefined when there is no
    input. *)
Definition output_of (d : option PostToolData) : option json :=
  match d with Some x => post_tool_output x | None => None end.

Definition error_of (d : option PostToolData) : option json :=
  match d with Some x => post_error x | None => None end.

(** The explicit error of a post-invocation, as the hook tests it: the
    field is there and is truthy. *)
Definition error_given (d : option PostToolData) : bool :=
  match d with
  | Some (mkPostToolData _ (Some e)) => truthy e
  | _ => false
  end.

(** The heuristic on the output: it is a string and contains "error". *)
Definition output_signals_failure (d : option PostToolData) : bool :=
  match d with
  | Some (mkPostToolData (Some (JStr s)) _) => includes s "error"
  | _ => false
  end.

Definition final_status (d : option PostToolData) : string :=
  if error_given d || output_signals_failure d then "error" else "success".

(** The scenario of a read: SessionStart, pre-invocation of "Read",
    post-invocation with output "contents". *)
Definition read_scenario (env0 env1 env2 : Env) (data : SessionData)
    : list (Env * Hook) :=
  [(env0, SessionStart data);
   (env1, PreToolInvocation
            (Some (mkPreToolData (Some "Read")
                     (Some (JObj [("path", JStr "a.txt")])))));
   (env2, PostToolInvocation
            (Some (mkPostToolData (Some (JStr "contents")) None)))].

Definition of_session (s : string) (r : ToolUse) : bool :=
  String.eqb (t_session_id r) s.

(** ** Spawning *)

Definition task (input : option json) : option PreToolData :=
  Some (mkPreToolData (Some "Task") input).

(** The type and the description that end up in the agent row, when the
    hook gets as far as the insert and the insert binds them. *)
Definition spawn_fields (input : option json)
    : option (option string * option string) :=
  match task_description input with
  | None => None
  | Some description =>
      match bind_text
              (json_or_null
                 (Some (json_or (field input "subagent_type")
                                (JStr "unknown")))),
            bind_text (json_or_null description) with
      | Some ty, Some desc => Some (ty, desc)
      | _, _ => None
      end
  end.

(** A field read as the string it is declared to be. *)
Definition string_field (o : option json) (f : string) : option string :=
  match field o f with
  | Some (JStr s) => Some s
  | _ => None
  end.

(** The field is absent or holds a string. *)
Definition textual (o : option json) (f : string) : Prop :=
  field o f = None \/ exists s, field o f = Some (JStr s).

(** The description of a task whose fields are strings: the description
    when it is not empty, else the head of the prompt. *)
Definition typed_description (input : option json) : option string :=
  match or_null (string_field input "description") with
  | Some d => Some d
  | None =>
      or_null (option_map (String.substring 0 100)
                          (string_field input "prompt"))
  end.

(** ** Open sessions *)

Definition is_open (r : Session) : bool :=
  match s_ended_at r with
  | None => true
  | Some _ => false
  end.

Definition open_sessions (d : Database) : list Session :=
  filter is_open (sessions d).

(** The hooks arrive in order when a SessionStart fires only if no session
    is under way: at the beginning, or after the SessionEnd of the session
    before.  [under_way] tells whether a session has started and not
    ended. *)
Fixpoint in_order (under_way : bool) (trace : list (Env * Hook)) : bool :=
  match trace with
  | [] => true
  | (_, SessionStart _) :: rest => negb under_way && in_order true rest
  | (_, SessionEnd) :: rest => in_order false rest
  | _ :: rest => in_order under_way rest
  end.

(** The session ids are a key, and an open row is the row of the session
    the context names. *)
Definition tracked (st : State) : Prop :=
  NoDup (map s_id (sessions (db st)))
  /\ forall r, In r (sessions (db st)) -> is_open r = true ->
               or_null (currentSessionId (ctx st)) = Some (s_id r).

(** ** The keys of the timeline *)

(** A primary key of the merged feed: the table and the rowid. *)
Definition key (x : TimelineRow) : string * Z := (tl_type x, tl_id x).

(** A time is in the range when its text, as the store holds it, is not
    below the lower bound and not above the upper bound in the order of
    texts; a bound that is absent or the empty string bounds nothing. *)
Definition in_range (lo hi : option string) (t : time) : bool :=
  match or_null lo with
  | Some b => String.leb b (datetime t)
  | None => true
  end
  && match or_null hi with
     | Some b => String.leb (datetime t) b
     | None => true
     end.

(** The keys the timeline of session [s] is about: those of the tool uses
    and of the events of that session, within the time range. *)
Definition matching_keys (s : string) (lo hi : option string)
    (d : Database)
    : list (string * Z) :=
  (map (fun r => ("tool", t_id r))
       (filter (fun r => String.eqb (t_session_id r) s
                         && in_range lo hi (t_started_at r))
               (tool_uses d))
   ++ map (fun e => ("event", e_id e))
          (filter (fun e => String.eqb (e_session_id e) s
                            && in_range lo hi (e_timestamp e))
                  (events d)))%list.

(** The two sides of the UNION ALL, before sorting and truncating. *)
Definition merged (f : TimelineFilters) (d : Database) : list TimelineRow :=
  (map tool_row (filter (toolWhere f) (tool_uses d))
   ++ map event_row (filter (eventWhere f) (events d)))%list.

(** The limit in force: [filters.limit || 200]. *)
Definition limit_of (f : TimelineFilters) : Z := num_or (lf_limit f) 200.

Definition key_eqb (k1 k2 : string * Z) : bool :=
  String.eqb (fst k1) (fst k2) && (snd k1 =? snd k2).

(** ** The agent forest *)

(** The row an agent id names. *)
Definition find_agent (tbl : list Agent) (id : string) : option Agent :=
  find (fun r => String.eqb (a_id r) id) tbl.

(** How many times [parent_agent_id] is followed from agent [id] before
    null is reached; [None] when an id names no row or the fuel runs out. *)
Fixpoint parent_steps (fuel : nat) (tbl : list Agent) (id : string)
    : option nat :=
  match fuel with
  | O => None
  | S fuel' =>
      match find_agent tbl id with
      | None => None
      | Some r =>
          match a_parent_agent_id r with
          | None => Some 1%nat
          | Some p => option_map S (parent_steps fuel' tbl p)
          end
      end
  end.

(** The top of the stack: the last element of the array. *)
Definition top (stack : list string) : option string := hd_error (rev stack).

(** Every parent is an earlier row of the same session. *)
Definition parents_earlier (tbl : list Agent) : Prop :=
  forall i r p,
    nth_error tbl i = Some r -> a_parent_agent_id r = Some p ->
    exists j q,
      (j < i)%nat /\ nth_error tbl j = Some q
      /\ a_id q = p /\ a_session_id q = a_session_id r.

(** Closing agents changes neither ids nor parents, hence no walk. *)
Definition close_if (now : time) (id : string) (r : Agent) : Agent :=
  if String.eqb (a_id r) id then close_agent now "completed" r else r.

(** What one hook does to the agents table and to the stack: nothing, a
    reset of the stack, a push with a new row, or a pop that closes a row. *)
Inductive effect (env : Env) (st st' : State) : Prop :=
| Keep :
    agents (db st') = agents (db st) ->
    agentStack (ctx st') = agentStack (ctx st) ->
    currentAgentId (ctx st') = currentAgentId (ctx st) ->
    currentSessionId (ctx st') = currentSessionId (ctx st) ->
    effect env st st'
| Reset :
    agents (db st') = agents (db st) ->
    agentStack (ctx st') = [] ->
    currentAgentId (ctx st') = None ->
    effect env st st'
| Push (sid : string) (new : Agent) :
    or_null (currentSessionId (ctx st)) = Some sid ->
    ~ In (a_id new) (map a_id (agents (db st))) ->
    a_id new = generateId (date_now env) (random36 env) ->
    a_session_id new = sid ->
    a_parent_agent_id new = or_null (currentAgentId (ctx st)) ->
    agents (db st') = (agents (db st) ++ [new])%list ->
    agentStack (ctx st') = (agentStack (ctx st) ++ [a_id new])%list ->
    currentAgentId (ctx st') = Some (a_id new) ->
    currentSessionId (ctx st') = currentSessionId (ctx st) ->
    effect env st st'
| Pop (c : string) (below : list string) :
    rev (agentStack (ctx st)) = c :: below ->
    agents (db st') = map (close_if (now env) c) (agents (db st)) ->
    agentStack (ctx st') = rev below ->
    currentAgentId (ctx st') = hd_error below ->
    currentSessionId (ctx st') = currentSessionId (ctx st) ->
    effect env st st'.

(** The invariant of the correlator: agent ids are a key; every parent is
    an earlier row of the same session; the current agent is the top of the
    stack; the agents on the stack are rows of the current session; and the
    agent at position [i] of the stack reaches null in [i + 1] steps. *)
Record forest (st : State) : Prop := mkForest {
  f_ids : NoDup (map a_id (agents (db st)));
  f_parents : parents_earlier (agents (db st));
  f_top : currentAgentId (ctx st) = top (agentStack (ctx st));
  f_rows : forall a, In a (agentStack (ctx st)) ->
             a <> ""
             /\ exists sid q,
                  or_null (currentSessionId (ctx st)) = Some sid
                  /\ In q (agents (db st)) /\ a_id q = a
                  /\ a_session_id q = sid;
  f_depth : forall i a, nth_error (agentStack (ctx st)) i = Some a ->
              forall fuel, (i + 1 <= fuel)%nat ->
                parent_steps fuel (agents (db st)) a = Some (i + 1)%nat
}.

(** ** The text the guard accepts *)

Fixpoint all_space (s : string) : bool :=
  match s with
  | EmptyString => true
  | String c rest => is_space c && all_space rest
  end.

(** What the guard lets through, said on the text itself: after leading
    white space come six characters that read "select" once folded to
    lower case. *)
Definition begins_with_select (q : string) : Prop :=
  exists ws w rest,
    q = ws ++ w ++ rest /\ all_space ws = true /\ toLowerCase w = "select".

End Terms.
Import Terms.

(** * Vocabulary of the further properties *)
Module MoreTerms.

(** ** The life of a tool use *)

(** A terminal status. *)
Definition terminal (s : string) : Prop :=
  s = "success" \/ s = "error" \/ s = "interrupted".

(** A row is in flight, with no end and no duration, or it is finished,
    with both. *)
Definition lifecycle (r : ToolUse) : Prop :=
  (t_status r = "pending" /\ t_ended_at r = None /\ t_duration_ms r = None)
  \/ (terminal (t_status r)
      /\ exists e, t_ended_at r = Some e
                   /\ t_duration_ms r = Some (elapsed_ms e (t_started_at r))).

(** What one hook does to the tool uses: nothing; it closes pending rows
    as interrupted; it finishes the rows of the pending id; it starts a
    row. *)
Inductive tool_effect (env : Env) (st st' : State) : Prop :=
| Untouched :
    tool_uses (db st') = tool_uses (db st) ->
    seq_tool_uses (db st') = seq_tool_uses (db st) ->
    (pendingToolUseId (ctx st') = None
     \/ (pendingToolUseId (ctx st') = pendingToolUseId (ctx st)
         /\ currentSessionId (ctx st') = currentSessionId (ctx st))) ->
    tool_effect env st st'
| Interrupted (f : ToolUse -> ToolUse) :
    tool_uses (db st') = map f (tool_uses (db st)) ->
    seq_tool_uses (db st') = seq_tool_uses (db st) ->
    pendingToolUseId (ctx st') = None ->
    (forall r, f r = r
               \/ (t_status r = "pending"
                   /\ exists msg, f r = interrupt_tool (now env) msg r)) ->
    tool_effect env st st'
| Finished (id : Z) (out : option json) (status : string)
           (err : option string) :
    pendingToolUseId (ctx st) = Some id ->
    status = "success" \/ status = "error" ->
    tool_uses (db st')
    = map (fun r => if t_id r =? id
                    then finish_tool (now env) out status err r else r)
          (tool_uses (db st)) ->
    seq_tool_uses (db st') = seq_tool_uses (db st) ->
    pendingToolUseId (ctx st') = None ->
    tool_effect env st st'
| Started (sid : string) (agent : option string) (name : string)
          (input : option json) :
    or_null (currentSessionId (ctx st)) = Some sid ->
    tool_uses (db st')
    = (tool_uses (db st)
       ++ [mkToolUse (seq_tool_uses (db st) + 1) sid agent name input None
                     (now env) None None "pending" None])%list ->
    seq_tool_uses (db st') = seq_tool_uses (db st) + 1 ->
    pendingToolUseId (ctx st') = Some (seq_tool_uses (db st) + 1) ->
    currentSessionId (ctx st') = currentSessionId (ctx st) ->
    tool_effect env st st'.

(** The invariant of the tool uses: rowids grow along the table and stay
    between 1 and the counter; every row is in flight or finished; the
    pending id of the context, when set, names a pending row of the current
    session. *)
Record tools_ok (st : State) : Prop := mkToolsOk {
  ok_sorted : StronglySorted Z.lt (map t_id (tool_uses (db st)));
  ok_range : forall r, In r (tool_uses (db st)) ->
               1 <= t_id r <= seq_tool_uses (db st);
  ok_counter : 0 <= seq_tool_uses (db st);
  ok_life : forall r, In r (tool_uses (db st)) -> lifecycle r;
  ok_pending : forall id, pendingToolUseId (ctx st) = Some id ->
                 exists r, In r (tool_uses (db st)) /\ t_id r = id
                           /\ t_status r = "pending"
                           /\ currentSessionId (ctx st)
                              = Some (t_session_id r)
}.

(** The clocks of a trace never go back, starting from [t]. *)
Fixpoint clock_ok (t : time) (trace : list (Env * Hook)) : Prop :=
  match trace with
  | [] => True
  | (env, _) :: rest => t <= now env /\ clock_ok (now env) rest
  end.

(** No row starts after [t], and no finished row ends before it
    starts. *)
Definition timed (t : time) (st : State) : Prop :=
  forall r, In r (tool_uses (db st)) ->
    t_started_at r <= t
    /\ forall e, t_ended_at r = Some e -> t_started_at r <= e.

(** ** The hooks of the user in the settings *)

(** The definitions of an event that are not Agentarium's. *)
Definition user_defs (root : string) (defs : list Settings.HookDefinition)
    : list Settings.HookDefinition :=
  filter (fun def => negb (Settings.isAgentariumHookDefinition root def)) defs.

(** The configuration without Agentarium's definitions and without the
    events left empty, in the order of the events. *)
Definition user_hooks (root : string) (config : Settings.HooksConfig)
    : Settings.HooksConfig :=
  flat_map (fun kv => match user_defs root (snd kv) with
                      | [] => []
                      | defs => [(fst kv, defs)]
                      end)
           config.

(** The definitions registered for an event, none when the event is not
    there. *)
Definition defs_of (config : Settings.HooksConfig) (event : string)
    : list Settings.HookDefinition :=
  match Obj.get event config with
  | Some defs => defs
  | None => []
  end.

(** The configuration a settings file holds, empty when it has none. *)
Definition config_of (file : Settings.File) : Settings.HooksConfig :=
  match Settings.s_hooks (Settings.readSettings file) with
  | Some c => c
  | None => []
  end.

(** One turn of the loop of [mergeHooks]. *)
Definition merge_one (result : Settings.HooksConfig)
    (kv : string * list Settings.HookDefinition) : Settings.HooksConfig :=
  let result1 :=
    match Obj.get (fst kv) result with
    | Some _ => result
    | None => Obj.set (fst kv) [] result
    end in
  Obj.set (fst kv)
    (match Obj.get (fst kv) result1 with
     | Some defs => defs
     | None => []
     end ++ snd kv)%list
    result1.

(** The definition [add_custom_hook] builds from its arguments. *)
Definition custom_def (script : string) (toolMatcher : option string)
    : Settings.HookDefinition :=
  Settings.mkHookDefinition
    (match or_null toolMatcher with
     | Some m => Some (Settings.mkHookMatcher (Some [m]))
     | None => None
     end)
    [Settings.mkHookEntry script].

(** A configuration is an object: no event name occurs twice. *)
Definition is_object (config : Settings.HooksConfig) : Prop :=
  NoDup (Obj.keys config).

(** ** The input of the server *)

(** A chunk that can be read on its own: it ends where a character ends,
    and does not begin with a byte order mark. *)
Definition whole (chunk : Server.bytes) : Prop :=
  fst (Server.decode_bytes Server.start chunk) = Server.start
  /\ hd_error (Server.code_points chunk) <> Some 65279.

(** A chunk of ASCII. *)
Definition ascii_only (chunk : Server.bytes) : Prop :=
  Forall (fun b => 0 <= b < 128) chunk.

(** ** Hooks outside a session and around a subagent *)

(** No SessionStart in a trace. *)
Definition no_start (trace : list (Env * Hook)) : bool :=
  forallb (fun eh => match snd eh with SessionStart _ => false | _ => true end)
          trace.

(** The hooks that fire inside a subagent and neither spawn nor stop
    one: a pre-invocation of a tool other than "Task", a post-invocation,
    the end of a turn. *)
Definition plain (h : Hook) : bool :=
  match h with
  | PreToolInvocation d =>
      negb (String.eqb
              (or_default (match d with
                           | Some d => pre_tool_name d
                           | None => None
                           end) "unknown")
              "Task")
  | PostToolInvocation _ | Stop _ => true
  | _ => false
  end.

(** The types of the events the hooks record. *)
Definition hook_events : list string :=
  ["agent_start"; "agent_complete"; "turn_complete"; "session_end"].

(** An event recorded by a hook that ran at [env] in state [st]: it takes
    the next rowid, the hook's time and the current session. *)
Definition recorded_by (env : Env) (st : State) (e : Event) : Prop :=
  e_id e = seq_events (db st) + 1
  /\ e_timestamp e = now env
  /\ In (e_event_type e) hook_events
  /\ or_null (currentSessionId (ctx st)) = Some (e_session_id e).

(** ** Rows and their sessions *)

(** The session is in the sessions table. *)
Definition stored (d : Database) (sid : string) : Prop :=
  In sid (map s_id (sessions d)).

(** Session ids are a key; every tool use, agent and event belongs to a
    stored session; and the current session, when there is one, is a
    stored session that has not ended. *)
Record refs_ok (st : State) : Prop := mkRefsOk {
  r_sessions : NoDup (map s_id (sessions (db st)));
  r_tools : forall r, In r (tool_uses (db st)) ->
              stored (db st) (t_session_id r);
  r_agents : forall r, In r (agents (db st)) ->
               stored (db st) (a_session_id r);
  r_events : forall e, In e (events (db st)) ->
               stored (db st) (e_session_id e);
  r_current : forall sid,
                or_null (currentSessionId (ctx st)) = Some sid ->
                exists s, In s (sessions (db st)) /\ s_id s = sid
                          /\ s_ended_at s = None
}.

(** ** Queries and reports *)

(** A filter argument that is given (and not the empty string) is the
    value of the column. *)
Definition wanted (arg col : option string) : Prop :=
  forall v, or_null arg = Some v -> col = Some v.

(** Ascending order of text. *)
Definition text_le (a b : string) : Prop := String.leb a b = true.

Definition total (counts : list Z) : Z := fold_right Z.add 0 counts.

End MoreTerms.
Import MoreTerms.

(** * Example stores and traces *)
Module Cases.
Import Mcp.

(** A store with one session, "A", which owns one tool use, one event and
    one agent. *)
Definition store_A : Database :=
  mkDatabase
    [mkSession "A" 10 None None None None None None]
    [mkAgent "a1" "A" None (Some "explorer") None 11 None "running"]
    [mkToolUse 1 "A" None "Read" None None 12 None None "pending" None]
    [mkEvent 1 "A" None "agent_start" None 11]
    1 1.

(** Three readings of the environment, one per hook of the scenario. *)
Definition env_a : Env := mkEnv 100 1700000000000 "2023-11-14T22:13:20.000Z" "k3x9q2a".
Definition env_b : Env := mkEnv 101 1700000001000 "2023-11-14T22:13:21.000Z" "m1n2b3v".
Definition env_c : Env := mkEnv 103 1700000003000 "2023-11-14T22:13:23.000Z" "q7w8e9r".
Definition no_data : SessionData := mkSessionData None None None None None.

(** A session "S" whose read is pending, as the pre-tool hook leaves it. *)
Definition pending_read : State :=
  mkState
    (mkDatabase [mkSession "S" 100 None None None None None None] []
       [mkToolUse 1 "S" None "Read" None None 101 None None "pending" None]
       [] 1 0)
    (Some (mkContext (Some "S") None (Some 1) [])).

(** A session that has just started. *)
Definition started : State := session_start env_a no_data init.

(** A task with a type and a description, and one whose prompt is a
    number. *)
Definition explore_task : json :=
  JObj [("subagent_type", JStr "explorer");
        ("description", JStr "map the hooks");
        ("prompt", JStr "List the hooks and what they write.")].

Definition numeric_prompt : json :=
  JObj [("subagent_type", JStr "explorer"); ("prompt", JNum 7)].

(** A task whose type and description are numbers. *)
Definition numeric_fields : json :=
  JObj [("subagent_type", JNum 7); ("description", JNum 5);
        ("prompt", JStr "List the hooks and what they write.")].

(** A store with two sessions; "S" owns two tool uses and one event. *)
Definition two_sessions : Database :=
  mkDatabase
    [mkSession "S" 10 None None None None None None;
     mkSession "T" 20 None None None None None None]
    []
    [mkToolUse 1 "S" None "Read" None None 12 (Some 13)
               (Some (elapsed_ms 13 12)) "success" None;
     mkToolUse 2 "T" None "Bash" None None 21 None None "pending" None;
     mkToolUse 3 "S" None "Edit" None None 15 None None "pending" None]
    [mkEvent 1 "S" None "turn_complete" None 14]
    3 1.

(** A session with 201 tool uses, one per second. *)
Definition busy : Database :=
  mkDatabase
    [mkSession "S" 0 None None None None None None]
    []
    (map (fun n => mkToolUse (Z.of_nat n) "S" None "Read" None None
                             (Z.of_nat n) (Some (Z.of_nat n)) (Some 0%Q)
                             "success" None)
         (seq 1 201))
    []
    201 0.

(** An engine for the examples: it knows one query, which returns the
    session ids, and rejects anything else as a syntax error. *)
Definition toy_engine (q : string) (store : Database)
    : Database * Outcome (list string) :=
  if String.eqb q "SELECT * FROM sessions LIMIT 1"
  then (store, Returns (firstn 1 (map s_id (sessions store))))
  else (store, Throws "near: syntax error").

(** A later reading of the environment. *)
Definition env_d : Env :=
  mkEnv 105 1700000005000 "2023-11-14T22:13:25.000Z" "a5s6d7f".

(** A pre-invocation of "Read" whose post-invocation never comes. *)
Definition unanswered : list (Env * Hook) :=
  [(env_b, PreToolInvocation (Some (mkPreToolData (Some "Read") None)))].

(** A session in which a first agent has been spawned. *)
Definition nested : list (Env * Hook) :=
  [(env_a, SessionStart no_data);
   (env_b, PreToolInvocation (task None))].

(** The state after the first "Task" of a session. *)
Definition spawned : State :=
  pre_tool env_b (task None) started.

(** A store with a pending tool use of a session that ended a minute
    ago, one that started two hours ago in a session that has not ended,
    and a recent one of that session. *)
Definition stale : Database :=
  mkDatabase
    [mkSession "old" 7000 (Some 7240) None None None None None;
     mkSession "cur" 0 None None None None None None]
    []
    [mkToolUse 1 "old" None "Bash" None None 7200 None None "pending" None;
     mkToolUse 2 "cur" None "Read" None None 100 None None "pending" None;
     mkToolUse 3 "cur" None "Edit" None None 7100 None None "pending" None]
    [] 3 0.

End Cases.
Import Cases.

(** ** Further examples *)
Module MoreCases.

(** Where the plugin is installed. *)
Definition plugin_root : string := "/opt/claude/plugins/tracker".

(** A hook of the user's, and a settings file that holds it together with
    a tracking hook left by an older installation. *)
Definition lint_def : Settings.HookDefinition :=
  Settings.mkHookDefinition None [Settings.mkHookEntry "npm run lint"].

Definition user_settings : Settings.File :=
  Some (Settings.mkSettingsJson
          (Some [("PreToolUse",
                  [lint_def;
                   Settings.mkHookDefinition None
                     [Settings.mkHookEntry
                        "bun /old/agentarium/hooks/pre-tool.ts"]]);
                 ("Stop",
                  [Settings.mkHookDefinition None
                     [Settings.mkHookEntry
                        "bun /opt/claude/plugins/tracker/hooks/stop.ts"]])])
          [("model", JStr "opus")]).

(** A session in which a tool has been started. *)
Definition reading : list (Env * Hook) :=
  [(env_a, SessionStart no_data);
   (env_b, PreToolInvocation (Some (mkPreToolData (Some "Read") None)))].

(** A session with a read that ends two seconds after it starts. *)
Definition read_done : list (Env * Hook) :=
  (reading ++ [(env_c, PostToolInvocation
                         (Some (mkPostToolData (Some (JStr "contents"))
                                               None)))])%list.

(** The row of that read once it has ended. *)
Definition finished_read : ToolUse :=
  mkToolUse 1 "1700000000000-k3x9q2a" None "Read" None
            (Some (JStr "contents")) 101 (Some 103)
            (Some (elapsed_ms 103 101)) "success" None.

(** Hooks that arrive when no session is under way. *)
Definition stray : list (Env * Hook) :=
  [(env_b, PreToolInvocation (Some (mkPreToolData (Some "Read") None)));
   (env_c, Stop (Some "end_turn"));
   (env_d, SessionEnd)].

(** What happens inside the subagent of the example: one read. *)
Definition inside : list (Env * Hook) :=
  [(env_c, PreToolInvocation (Some (mkPreToolData (Some "Read") None)))].

(** A request line that arrives in two chunks, the second of which
    carries the beginning of the next line; and a server that counts the
    code units of the lines it handles. *)
Definition cut_input : list Server.bytes :=
  [[112; 105]; [110; 103; 10; 112]].

Definition counting (line : Server.text) (n : Z) : Z * option string :=
  (n + Z.of_nat (List.length line), Some "ok").

(** A line of one character, e with an acute accent, whose two bytes
    arrive in different chunks. *)
Definition cut_character : list Server.bytes := [[195]; [169; 10]].

(** Three sessions, two of them on a branch. *)
Definition on_branches : Database :=
  mkDatabase
    [mkSession "S1" 10 (Some 20) None None None (Some "main") None;
     mkSession "S2" 30 (Some 40) None None None None None;
     mkSession "S3" 50 None None None None (Some "dev") None]
    [] [] [] 0 0.

End MoreCases.
Import MoreCases.

(** * Properties *)

(** ** Basic facts about the embedded operators *)

Lemma generateId_truthy (ms : Z) (rnd : string) :
  truthy_string (generateId ms rnd) = true.
Proof.
  unfold generateId, truthy_string.
  destruct (NilZero.string_of_int (Z.to_int ms)); reflexivity.
Qed.

Lemma or_null_generateId (ms : Z) (rnd : string) :
  or_null (Some (generateId ms rnd)) = Some (generateId ms rnd).
Proof. unfold or_null. now rewrite generateId_truthy. Qed.

Lemma or_null_Some (x : option string) (s : string) :
  or_null x = Some s -> x = Some s /\ s <> "".
Proof.
  unfold or_null, truthy_string. destruct x as [t|]; [|discriminate].
  destruct (String.eqb_spec t ""); simpl; [discriminate|].
  intros [= <-]. now split.
Qed.

Lemma or_null_nonempty (s : string) : s <> "" -> or_null (Some s) = Some s.
Proof.
  intros H. unfold or_null, truthy_string.
  destruct (String.eqb_spec s ""); [contradiction|reflexivity].
Qed.

Lemma or_null_idem (x : option string) : or_null (or_null x) = or_null x.
Proof.
  destruct x as [s|]; [|reflexivity]. simpl.
  destruct (truthy_string s) eqn:E; [|reflexivity]. simpl. now rewrite E.
Qed.

(** ** Rounding to the nearest double *)
Module Rounding.
Import Double.

Lemma two_pos (k : Z) : (0 < 2 ^ k)%Q.
Proof. apply Qpower_0_lt. reflexivity. Qed.

Lemma two_plus (a b : Z) : (2 ^ (a + b) == 2 ^ a * 2 ^ b)%Q.
Proof. apply Qpower_plus. discriminate. Qed.

Lemma two_le (a b : Z) : a <= b -> (2 ^ a <= 2 ^ b)%Q.
Proof. intros H. apply Qpower_le_compat_l; [exact H|]. discriminate. Qed.

Lemma two_lt_inv (a b : Z) : (2 ^ a < 2 ^ b)%Q -> a < b.
Proof.
  intros H. destruct (Z.lt_ge_cases a b) as [L|G]; [exact L|].
  apply two_le in G. lra.
Qed.

Lemma two_Z (k : Z) : 0 <= k -> (2 ^ k == inject_Z (2 ^ k))%Q.
Proof. intros H. symmetry. apply (Zpower_Qpower 2 k H). Qed.

Lemma floor_log2_spec (x : Q) :
  (0 < x)%Q -> (2 ^ floor_log2 x <= x < 2 ^ (floor_log2 x + 1))%Q.
Proof.
  intros Hx. unfold floor_log2.
  destruct x as [n d]. cbn [Qnum Qden].
  assert (Hn : 0 < n) by (unfold Qlt in Hx; simpl in Hx; lia).
  pose proof (Z.log2_spec n Hn) as [An Bn].
  pose proof (Z.log2_spec (Zpos d) (Pos2Z.is_pos d)) as [Ad Bd].
  pose proof (Z.log2_nonneg n) as Pa.
  pose proof (Z.log2_nonneg (Zpos d)) as Pb.
  set (a := Z.log2 n) in *. set (b := Z.log2 (Zpos d)) in *.
  assert (X : (n # d == inject_Z n / inject_Z (Zpos d))%Q)
    by apply Qmake_Qdiv.
  assert (Dpos : (0 < inject_Z (Zpos d))%Q) by (unfold Qlt; simpl; lia).
  assert (Ua : (2 ^ (a + 1) == inject_Z (2 ^ (a + 1)))%Q)
    by (apply two_Z; lia).
  assert (Ub : (2 ^ (b + 1) == inject_Z (2 ^ (b + 1)))%Q)
    by (apply two_Z; lia).
  assert (La : (2 ^ a == inject_Z (2 ^ a))%Q) by (apply two_Z; lia).
  assert (Lb : (2 ^ b == inject_Z (2 ^ b))%Q) by (apply two_Z; lia).
  assert (In1 : (inject_Z n < 2 ^ (a + 1))%Q)
    by (rewrite Ua; rewrite <- Zlt_Qlt; exact Bn).
  assert (In2 : (2 ^ a <= inject_Z n)%Q)
    by (rewrite La; rewrite <- Zle_Qle; exact An).
  assert (Id1 : (inject_Z (Zpos d) < 2 ^ (b + 1))%Q)
    by (rewrite Ub; rewrite <- Zlt_Qlt; exact Bd).
  assert (Id2 : (2 ^ b <= inject_Z (Zpos d))%Q)
    by (rewrite Lb; rewrite <- Zle_Qle; exact Ad).
  pose proof (two_pos a) as Ha. pose proof (two_pos b) as Hb.
  destruct (Qle_bool (2 ^ (a - b)) (n # d)) eqn:E.
  - apply Qle_bool_iff in E. split; [exact E|].
    rewrite X. apply Qlt_shift_div_r; [exact Dpos|].
    replace (a - b + 1) with ((a + 1) + - b) by lia.
    rewrite two_plus.
    assert (I : (2 ^ (- b) * 2 ^ b == 1)%Q).
    { rewrite <- two_plus. replace (- b + b) with 0 by lia. reflexivity. }
    pose proof (two_pos (- b)) as Hmb. pose proof (two_pos (a + 1)) as Ha1.
    assert (J : (1 <= 2 ^ (- b) * inject_Z (Zpos d))%Q) by nra.
    assert (K : (2 ^ (a + 1) <= 2 ^ (a + 1) * (2 ^ (- b) * inject_Z (Zpos d)))%Q)
      by nra.
    lra.
  - assert (E' : (n # d < 2 ^ (a - b))%Q).
    { apply Qnot_le_lt. intros C. apply Qle_bool_iff in C. congruence. }
    split.
    + rewrite X. apply Qle_shift_div_l; [exact Dpos|].
      replace (a - b - 1) with (a + - (b + 1)) by lia.
      rewrite two_plus.
      assert (I : (2 ^ (- (b + 1)) * 2 ^ (b + 1) == 1)%Q).
      { rewrite <- two_plus. replace (- (b + 1) + (b + 1)) with 0 by lia.
        reflexivity. }
      pose proof (two_pos (- (b + 1))) as Hmb. pose proof (two_pos (b + 1)).
      assert (J : (2 ^ (- (b + 1)) * inject_Z (Zpos d) <= 1)%Q) by nra.
      assert (K : (2 ^ a * (2 ^ (- (b + 1)) * inject_Z (Zpos d)) <= 2 ^ a)%Q)
        by nra.
      lra.
    + replace (a - b - 1 + 1) with (a - b) by lia. exact E'.
Qed.

Lemma nearest_even_bounds (x : Q) :
  Qfloor x <= nearest_even x <= Qfloor x + 1.
Proof.
  unfold nearest_even.
  destruct (x - inject_Z (Qfloor x) ?= 1 # 2)%Q; [|lia..].
  destruct (Z.even (Qfloor x)); lia.
Qed.

Lemma nearest_even_near (x : Q) :
  (x - (1 # 2) <= inject_Z (nearest_even x) <= x + (1 # 2))%Q.
Proof.
  unfold nearest_even.
  pose proof (Qfloor_le x) as L. pose proof (Qlt_floor x) as U.
  rewrite inject_Z_plus in U. change (inject_Z 1) with 1%Q in U.
  destruct (Qcompare_spec (x - inject_Z (Qfloor x)) (1 # 2)) as [E|E|E];
    [destruct (Z.even (Qfloor x))| |];
    rewrite ?inject_Z_plus; change (inject_Z 1) with 1%Q; lra.
Qed.

Lemma nearest_even_mono (x y : Q) :
  (x <= y)%Q -> nearest_even x <= nearest_even y.
Proof.
  intros H. pose proof (Qfloor_resp_le _ _ H) as F.
  destruct (Z.eq_dec (Qfloor x) (Qfloor y)) as [E|N].
  - unfold nearest_even. rewrite E.
    destruct (Qcompare_spec (x - inject_Z (Qfloor y)) (1 # 2)) as [A|A|A];
      destruct (Qcompare_spec (y - inject_Z (Qfloor y)) (1 # 2)) as [B|B|B];
      try lra; try lia; destruct (Z.even (Qfloor y)); lia.
  - pose proof (nearest_even_bounds x). pose proof (nearest_even_bounds y).
    lia.
Qed.

Lemma nearest_even_Z (m : Z) : nearest_even (inject_Z m) = m.
Proof.
  unfold nearest_even. rewrite Qfloor_Z.
  destruct (Qcompare_spec (inject_Z m - inject_Z m) (1 # 2)) as [A|A|A];
    [lra|reflexivity|lra].
Qed.

Lemma round_pos_nonneg (x : Q) : (0 <= x)%Q -> (0 <= round_pos x)%Q.
Proof.
  intros H. unfold round_pos. rewrite Qred_correct.
  set (e := Z.max _ _). pose proof (two_pos e) as P.
  assert (Q0 : (0 <= x / 2 ^ e)%Q).
  { apply Qle_shift_div_l; [exact P|lra]. }
  apply nearest_even_mono in Q0. change 0%Q with (inject_Z 0) in Q0.
  rewrite nearest_even_Z in Q0. rewrite Zle_Qle in Q0.
  change (inject_Z 0) with 0%Q in *. nra.
Qed.

(** The scaled value lies in [[2^52, 2^53)] unless the number is
    subnormal. *)
Lemma round_pos_upper (x : Q) :
  (0 < x)%Q ->
  let e := Z.max (floor_log2 x - 52) (- 1074) in
  (round_pos x <= 2 ^ (e + 53))%Q.
Proof.
  intros H e. unfold round_pos. fold e. rewrite Qred_correct.
  pose proof (two_pos e) as P.
  destruct (floor_log2_spec H) as [_ U].
  assert (L : (2 ^ (floor_log2 x + 1) <= 2 ^ (e + 53))%Q)
    by (apply two_le; unfold e; lia).
  assert (S : (x / 2 ^ e <= inject_Z (2 ^ 53))%Q).
  { apply Qle_shift_div_r; [exact P|]. rewrite <- two_Z by lia.
    rewrite <- two_plus. replace (53 + e) with (e + 53) by lia. lra. }
  apply nearest_even_mono in S. rewrite nearest_even_Z in S.
  rewrite Zle_Qle in S. rewrite <- two_Z in S by lia.
  rewrite (Z.add_comm e 53), two_plus. nra.
Qed.

Lemma round_pos_lower (x : Q) :
  (0 < x)%Q -> - 1074 <= floor_log2 x - 52 ->
  (2 ^ floor_log2 x <= round_pos x)%Q.
Proof.
  intros H N. unfold round_pos.
  replace (Z.max (floor_log2 x - 52) (- 1074)) with (floor_log2 x - 52)
    by lia.
  set (e := floor_log2 x - 52). rewrite Qred_correct.
  pose proof (two_pos e) as P.
  destruct (floor_log2_spec H) as [L _].
  assert (S : (inject_Z (2 ^ 52) <= x / 2 ^ e)%Q).
  { apply Qle_shift_div_l; [exact P|]. rewrite <- two_Z by lia.
    rewrite <- two_plus. replace (52 + e) with (floor_log2 x)
      by (unfold e; lia). exact L. }
  apply nearest_even_mono in S. rewrite nearest_even_Z in S.
  rewrite Zle_Qle in S. rewrite <- two_Z in S by lia.
  replace (floor_log2 x) with (52 + e) at 1 by (unfold e; lia).
  rewrite two_plus. nra.
Qed.

Lemma floor_log2_mono (x y : Q) :
  (0 < x)%Q -> (x <= y)%Q -> floor_log2 x <= floor_log2 y.
Proof.
  intros Hx H. assert (Hy : (0 < y)%Q) by lra.
  destruct (floor_log2_spec Hx) as [L _].
  destruct (floor_log2_spec Hy) as [_ U].
  assert (T : (2 ^ floor_log2 x < 2 ^ (floor_log2 y + 1))%Q) by lra.
  apply two_lt_inv in T. lia.
Qed.

Lemma round_pos_mono (x y : Q) :
  (0 < x)%Q -> (x <= y)%Q -> (round_pos x <= round_pos y)%Q.
Proof.
  intros Hx H. assert (Hy : (0 < y)%Q) by lra.
  pose proof (floor_log2_mono Hx H) as M.
  destruct (Z.eq_dec (Z.max (floor_log2 x - 52) (- 1074))
                     (Z.max (floor_log2 y - 52) (- 1074))) as [E|N].
  - unfold round_pos. rewrite E. set (e := Z.max (floor_log2 y - 52) _).
    rewrite !Qred_correct. pose proof (two_pos e) as P.
    assert (S : (x / 2 ^ e <= y / 2 ^ e)%Q).
    { apply Qle_shift_div_l; [exact P|].
      unfold Qdiv. rewrite <- Qmult_assoc, (Qmult_comm (/ _)).
      rewrite Qmult_inv_r by lra. lra. }
    apply nearest_even_mono in S. rewrite Zle_Qle in S. nra.
  - pose proof (round_pos_upper Hx) as U. cbv zeta in U.
    assert (N' : - 1074 <= floor_log2 y - 52) by lia.
    pose proof (round_pos_lower Hy N') as L.
    assert (T : (2 ^ (Z.max (floor_log2 x - 52) (- 1074) + 53)
                 <= 2 ^ floor_log2 y)%Q) by (apply two_le; lia).
    lra.
Qed.

Lemma round_nonneg (x : Q) : (0 <= x)%Q -> (0 <= round x)%Q.
Proof.
  intros H. unfold round.
  destruct (Qcompare_spec x 0) as [E|E|E]; [lra|lra|].
  apply round_pos_nonneg. lra.
Qed.

Lemma round_nonpos (x : Q) : (x <= 0)%Q -> (round x <= 0)%Q.
Proof.
  intros H. unfold round.
  destruct (Qcompare_spec x 0) as [E|E|E]; [lra| |lra].
  rewrite Qred_correct.
  assert (P : (0 <= - x)%Q) by lra. apply round_pos_nonneg in P. lra.
Qed.

Lemma round_mono (x y : Q) : (x <= y)%Q -> (round x <= round y)%Q.
Proof.
  intros H.
  destruct (Qlt_le_dec 0 x) as [Px|Nx].
  - unfold round.
    destruct (Qcompare_spec x 0) as [E|E|E]; [lra|lra|].
    destruct (Qcompare_spec y 0) as [F|F|F]; [lra|lra|].
    now apply round_pos_mono.
  - destruct (Qlt_le_dec y 0) as [Ny|Py].
    + unfold round.
      destruct (Qcompare_spec x 0) as [E|E|E]; [lra| |lra].
      destruct (Qcompare_spec y 0) as [F|F|F]; [lra| |lra].
      rewrite !Qred_correct.
      assert (P : (0 < - y)%Q) by lra. assert (P' : (- y <= - x)%Q) by lra.
      pose proof (round_pos_mono P P'). lra.
    + pose proof (round_nonpos Nx). pose proof (round_nonneg Py). lra.
Qed.

Lemma round_zero (x : Q) : (x == 0)%Q -> round x = 0%Q.
Proof.
  intros H. unfold round.
  destruct (Qcompare_spec x 0) as [E|E|E]; [reflexivity|lra|lra].
Qed.

Lemma julianday_mono (s t : Z) : s <= t -> (julianday s <= julianday t)%Q.
Proof.
  intros H. unfold julianday, div. apply round_mono.
  apply Qle_shift_div_l; [reflexivity|].
  unfold Qdiv. rewrite <- Qmult_assoc, (Qmult_comm (/ _)).
  rewrite Qmult_inv_r by discriminate. rewrite Qmult_1_r.
  rewrite <- Zle_Qle. lia.
Qed.

Lemma elapsed_ms_nonneg (now started : Z) :
  started <= now -> (0 <= elapsed_ms now started)%Q.
Proof.
  intros H. unfold elapsed_ms, mul, sub. apply round_nonneg.
  pose proof (julianday_mono H) as J.
  assert (D : (0 <= julianday now - julianday started)%Q) by lra.
  apply round_nonneg in D. nra.
Qed.

Lemma elapsed_ms_same (t : Z) : elapsed_ms t t = 0%Q.
Proof.
  unfold elapsed_ms, mul, sub. apply round_zero.
  rewrite (round_zero (x := julianday t - julianday t)); lra.
Qed.

Lemma floor_log2_below (x : Q) (k : Z) :
  (0 < x)%Q -> (x < 2 ^ (k + 1))%Q -> floor_log2 x <= k.
Proof.
  intros Hx H. destruct (floor_log2_spec Hx) as [L _].
  assert (T : (2 ^ floor_log2 x < 2 ^ (k + 1))%Q) by lra.
  apply two_lt_inv in T. lia.
Qed.

(** Rounding moves a number by half a unit in the last place at most. *)
Lemma round_error (x : Q) (k : Z) :
  (0 <= x)%Q -> (x < 2 ^ (k + 1))%Q -> - 1074 <= k - 52 ->
  (x - 2 ^ (k - 53) <= round x <= x + 2 ^ (k - 53))%Q.
Proof.
  intros Hx H N. pose proof (two_pos (k - 53)) as Pk. unfold round.
  destruct (Qcompare_spec x 0) as [E|E|E]; [lra|lra|].
  pose proof (floor_log2_below k E H) as F.
  unfold round_pos. set (e := Z.max (floor_log2 x - 52) (- 1074)).
  rewrite Qred_correct. pose proof (two_pos e) as P.
  pose proof (nearest_even_near (x / 2 ^ e)) as [A B].
  assert (X : (x / 2 ^ e * 2 ^ e == x)%Q).
  { unfold Qdiv. rewrite <- Qmult_assoc, (Qmult_comm (/ _)).
    rewrite Qmult_inv_r by lra. lra. }
  assert (T : (2 ^ e <= 2 ^ (k - 52))%Q) by (apply two_le; unfold e; lia).
  assert (T' : (2 ^ (k - 52) == 2 * 2 ^ (k - 53))%Q).
  { replace (k - 52) with (1 + (k - 53)) by lia. now rewrite two_plus. }
  set (m := inject_Z (nearest_even (x / 2 ^ e))) in *.
  set (z := (x / 2 ^ e)%Q) in *. nra.
Qed.

Lemma julianday_near (t : Z) :
  0 <= t < 4102444800 ->
  let exact := (inject_Z (t * 1000 + 210866760000000) / 86400000)%Q in
  (exact - (1 # 4294967296) <= julianday t <= exact + (1 # 4294967296))%Q.
Proof.
  intros H exact. unfold julianday, div. fold exact.
  assert (E : (exact * 86400000
               == inject_Z (t * 1000 + 210866760000000))%Q).
  { unfold exact, Qdiv. rewrite <- Qmult_assoc, (Qmult_comm (/ _)).
    rewrite Qmult_inv_r by discriminate. lra. }
  assert (L : (inject_Z 210866760000000
               <= inject_Z (t * 1000 + 210866760000000))%Q)
    by (rewrite <- Zle_Qle; lia).
  assert (U : (inject_Z (t * 1000 + 210866760000000)
               <= inject_Z 214969204800000)%Q)
    by (rewrite <- Zle_Qle; lia).
  change (inject_Z 210866760000000) with (210866760000000 # 1)%Q in L.
  change (inject_Z 214969204800000) with (214969204800000 # 1)%Q in U.
  apply (@round_error exact 21); [lra| |lia].
  change (2 ^ (21 + 1))%Q with (4194304 # 1)%Q. lra.
Qed.

Lemma elapsed_ms_near (now started : Z) :
  0 <= started -> started <= now -> now < 4102444800 ->
  let ms := inject_Z ((now - started) * 1000) in
  (ms - (1 # 20) <= elapsed_ms now started <= ms + (1 # 20))%Q.
Proof.
  intros H0 H1 H2 ms.
  pose proof (@julianday_near now ltac:(lia)) as [Ln Un].
  pose proof (@julianday_near started ltac:(lia)) as [Ls Us].
  pose proof (julianday_mono H1) as M.
  cbv zeta in *.
  set (xn := (inject_Z (now * 1000 + 210866760000000) / 86400000)%Q) in *.
  set (xs := (inject_Z (started * 1000 + 210866760000000) / 86400000)%Q)
    in *.
  assert (E : ((xn - xs) * 86400000 == ms)%Q).
  { unfold xn, xs, ms.
    replace ((now - started) * 1000)
      with ((now * 1000 + 210866760000000)
            + - (started * 1000 + 210866760000000)) by lia.
    generalize (now * 1000 + 210866760000000)
               (started * 1000 + 210866760000000).
    intros a b. rewrite inject_Z_plus, inject_Z_opp. field. }
  assert (B : (0 <= ms <= 4102444800000 # 1)%Q).
  { unfold ms. change (4102444800000 # 1)%Q with (inject_Z 4102444800000).
    rewrite <- !Zle_Qle. change 0%Q with (inject_Z 0). rewrite <- Zle_Qle.
    lia. }
  unfold elapsed_ms, mul, sub.
  set (D := (julianday now - julianday started)%Q) in *.
  assert (D0 : (0 <= D)%Q) by (unfold D; lra).
  assert (D1 : (D < 2 ^ (15 + 1))%Q).
  { change (2 ^ (15 + 1))%Q with (65536 # 1)%Q. unfold D. lra. }
  pose proof (@round_error D 15 D0 D1 ltac:(lia)) as [LD UD].
  change (2 ^ (15 - 53))%Q with (1 # 274877906944)%Q in LD, UD.
  set (RD := round D) in *.
  assert (Y0 : (0 <= RD * 86400000)%Q).
  { pose proof (round_nonneg D0). fold RD in H. lra. }
  assert (Y1 : (RD * 86400000 < 2 ^ (41 + 1))%Q).
  { change (2 ^ (41 + 1))%Q with (4398046511104 # 1)%Q. unfold D in *. lra. }
  pose proof (@round_error (RD * 86400000) 41 Y0 Y1 ltac:(lia)) as [LY UY].
  change (2 ^ (41 - 53))%Q with (1 # 4096)%Q in LY, UY.
  unfold D in *. lra.
Qed.

(** A tenth is not a double; and of two doubles as near, the even one is
    taken. *)
Lemma round_examples :
  round (1 # 10) = (3602879701896397 # 36028797018963968)%Q
  /\ round (inject_Z (2 ^ 53 + 1)) = inject_Z (2 ^ 53)
  /\ round (inject_Z (2 ^ 53 + 3)) = inject_Z (2 ^ 53 + 4)
  /\ round (inject_Z (- (2 ^ 53 + 3))) = inject_Z (- (2 ^ 53 + 4)).
Proof. repeat split; vm_compute; reflexivity. Qed.

End Rounding.

(** [createAgent] throws or appends one running row. *)
Lemma createAgent_cases (now : time) (data : AgentData) (d : Database) :
  createAgent now data d = None
  \/ exists ty desc,
       bind_text (json_or_null (ad_agentType data)) = Some ty
       /\ bind_text (json_or_null (ad_description data)) = Some desc
       /\ existsb (fun r => String.eqb (a_id r) (ad_id data)) (agents d)
          = false
       /\ createAgent now data d
          = Some (set_agents
                    (agents d ++
                     [mkAgent (ad_id data) (ad_sessionId data)
                              (or_null (ad_parentAgentId data))
                              ty desc now None "running"])
                    d).
Proof.
  unfold createAgent.
  destruct (bind_text (json_or_null (ad_agentType data))) as [ty|];
    [|now left].
  destruct (bind_text (json_or_null (ad_description data))) as [desc|];
    [|now left].
  destruct (existsb _ (agents d)) eqn:Ex; [now left|].
  right. now exists ty, desc.
Qed.

(** [recordToolEnd] throws or rewrites the rows with the given id. *)
Lemma recordToolEnd_cases (now : time) (id : Z) (data : ToolEnd)
    (d : Database) :
  recordToolEnd now id data d = None
  \/ exists error,
       bind_text (json_or_null (te_error data)) = Some error
       /\ recordToolEnd now id data d
          = Some (set_tool_uses
                    (map (fun r => if t_id r =? id
                                   then finish_tool now
                                          (json_or_null (te_output data))
                                          (te_status data) error r
                                   else r)
                         (tool_uses d))
                    d).
Proof.
  unfold recordToolEnd.
  destruct (bind_text (json_or_null (te_error data))) as [error|];
    [right|now left].
  now exists error.
Qed.

(** The two ways through the update of the post-tool hook: it throws, or
    the rows are rewritten. *)
Tactic Notation "finish_cases" ident(error) :=
  match goal with |- context [recordToolEnd ?n ?i ?dt ?b] =>
    let E := fresh "E" in
    destruct (recordToolEnd_cases n i dt b) as [E|(error & _ & E)];
    rewrite E; clear E
  end.

(** The three ways through the Task branch of the pre-tool hook: the
    insert throws, the row is added, reading the description throws. *)
Tactic Notation "spawn_cases" ident(ty) ident(desc) ident(Ex) :=
  match goal with |- context [task_description ?i] =>
    destruct (task_description i) as [?description|] end;
  [match goal with |- context [createAgent ?n ?dt ?b] =>
     let E := fresh "E" in
     destruct (createAgent_cases n dt b) as [E|(ty & desc & _ & _ & Ex & E)];
     rewrite E; clear E;
     cbn [ad_id ad_sessionId ad_parentAgentId ad_agentType ad_description]
       in *
   end|].

Lemma sql_in_In (x : string) (ids : list string) :
  sql_in x ids = true <-> In x ids.
Proof.
  unfold sql_in. rewrite existsb_exists. split.
  - intros [y [Hy E]]. apply String.eqb_eq in E. now subst.
  - intros H. exists x. split; [assumption|apply String.eqb_refl].
Qed.

Lemma sql_limit_nil (A : Type) (l o : Z) : sql_limit l o (@nil A) = [].
Proof.
  unfold sql_limit. rewrite skipn_nil.
  destruct (l <? 0); [reflexivity|apply firstn_nil].
Qed.

Lemma sql_limit_incl (A : Type) (l o : Z) (rows : list A) (x : A) :
  In x (sql_limit l o rows) -> In x rows.
Proof.
  unfold sql_limit. intros H.
  assert (In x (skipn (Z.to_nat o) rows)) as H'.
  { destruct (l <? 0); [assumption|].
    rewrite <- (firstn_skipn (Z.to_nat l) (skipn (Z.to_nat o) rows)).
    apply in_or_app. now left. }
  rewrite <- (firstn_skipn (Z.to_nat o) rows). apply in_or_app. now right.
Qed.

(** The sort is a permutation and its result is sorted. *)
Lemma insert_desc_perm (A : Type) (key : A -> Z) (x : A) (l : list A) :
  Permutation (x :: l) (insert_desc key x l).
Proof.
  induction l as [|y l IH]; simpl; [reflexivity|].
  destruct (key y <=? key x); [reflexivity|].
  rewrite perm_swap. now apply perm_skip.
Qed.

Lemma order_by_desc_perm (A : Type) (key : A -> Z) (l : list A) :
  Permutation l (order_by_desc key l).
Proof.
  induction l as [|x l IH]; simpl; [constructor|].
  rewrite <- insert_desc_perm. now apply perm_skip.
Qed.

Lemma order_by_desc_In (A : Type) (key : A -> Z) (l : list A) (x : A) :
  In x (order_by_desc key l) <-> In x l.
Proof.
  split; apply Permutation_in;
    [symmetry|]; apply order_by_desc_perm.
Qed.

Lemma insert_desc_sorted (A : Type) (key : A -> Z) (x : A) (l : list A) :
  desc key l -> desc key (insert_desc key x l).
Proof.
  unfold desc. induction l as [|y l IH]; intros S; simpl.
  - repeat constructor.
  - destruct (Z.leb_spec (key y) (key x)) as [Hle|Hgt].
    + constructor; [assumption|].
      inversion S as [|? ? S' Hall]; subst.
      constructor; [assumption|].
      rewrite Forall_forall in *. intros z Hz. specialize (Hall z Hz). lia.
    + inversion S as [|? ? S' Hall]; subst.
      constructor; [now apply IH|].
      rewrite Forall_forall in *. intros z Hz.
      apply (Permutation_in _ (Permutation_sym (insert_desc_perm key x l))) in Hz.
      destruct Hz as [<-|Hz]; [lia|now apply Hall].
Qed.

Lemma order_by_desc_sorted (A : Type) (key : A -> Z) (l : list A) :
  desc key (order_by_desc key l).
Proof.
  induction l as [|x l IH]; simpl; [constructor|].
  now apply insert_desc_sorted.
Qed.

Lemma desc_firstn (A : Type) (key : A -> Z) (n : nat) (l : list A) :
  desc key l -> desc key (firstn n l).
Proof.
  unfold desc. revert n. induction l as [|x l IH]; intros [|n] S; simpl;
    try constructor.
  - inversion S; subst. now apply IH.
  - inversion S as [|? ? S' Hall]; subst.
    rewrite Forall_forall in *. intros z Hz. apply Hall.
    rewrite <- (firstn_skipn n l). apply in_or_app. now left.
Qed.

Lemma desc_sql_limit (A : Type) (key : A -> Z) (limit : Z) (l : list A) :
  desc key l -> desc key (sql_limit limit 0 l).
Proof.
  unfold sql_limit. simpl. intros S.
  destruct (limit <? 0); [assumption|now apply desc_firstn].
Qed.

(** ** The stale-recovery sweep *)
Module Sweep.

Lemma cleanup_rows (now : time) (d : Database) :
  cleanupStalePendingTools now d
  = set_tool_uses (map (sweep_row now (ended_session_ids d)) (tool_uses d)) d.
Proof.
  unfold cleanupStalePendingTools, sweep_old, sweep_ended, set_tool_uses.
  simpl. f_equal. rewrite map_map. reflexivity.
Qed.

Lemma sweep_row_idem (now : time) (ended : list string) (r : ToolUse) :
  sweep_row now ended (sweep_row now ended r) = sweep_row now ended r.
Proof.
  unfold sweep_row.
  destruct (is_pending r && sql_in (t_session_id r) ended) eqn:E1.
  - reflexivity.
  - destruct (is_pending r && (t_started_at r <? now - 3600)) eqn:E2.
    + reflexivity.
    + now rewrite E1, E2.
Qed.

(** After the sweep a pending row belongs to no ended session and is not
    older than an hour. *)
Lemma sweep_row_pending (now : time) (ended : list string) (r : ToolUse) :
  is_pending (sweep_row now ended r) = true ->
  sql_in (t_session_id (sweep_row now ended r)) ended = false
  /\ (t_started_at (sweep_row now ended r) <? now - 3600) = false.
Proof.
  unfold sweep_row.
  destruct (is_pending r && sql_in (t_session_id r) ended) eqn:E1.
  - simpl. discriminate.
  - destruct (is_pending r && (t_started_at r <? now - 3600)) eqn:E2.
    + simpl. discriminate.
    + intros P. rewrite P in E1, E2. simpl in E1, E2. now split.
Qed.

Lemma ended_session_ids_spec (d : Database) (sid : string) :
  In sid (ended_session_ids d)
  <-> exists s, In s (sessions d) /\ s_id s = sid /\ s_ended_at s <> None.
Proof.
  unfold ended_session_ids. rewrite in_map_iff. split.
  - intros [s [E Hs]]. apply filter_In in Hs. destruct Hs as [Hs He].
    exists s. split; [exact Hs|]. split; [exact E|].
    destruct (s_ended_at s); [discriminate|discriminate He].
  - intros [s (Hs & E & He)]. exists s. split; [exact E|].
    apply filter_In. split; [exact Hs|].
    destruct (s_ended_at s); [reflexivity|contradiction].
Qed.

(** C7. The stale-recovery sweep is idempotent at a fixed current time:
    running it twice leaves the store as running it once does.  The first
    run closes, as 'interrupted' and with [ended_at] the current time,
    every pending tool use whose session has a row with [ended_at] set and
    every pending tool use that started more than an hour before the
    current time; it leaves the sessions and every other tool use as they
    are.  So after one run no pending tool use belongs to a session whose
    [ended_at] is set and none started more than an hour before the
    current time, and the second run finds nothing to close.  Every
    SessionStart runs the sweep, whatever the session: the tool uses it
    leaves are those the sweep leaves. *)
Theorem cleanupStalePendingTools_idempotent (now : time) (d : Database) :
  let d1 := cleanupStalePendingTools now d in
  let ended (r : ToolUse) :=
    exists s, In s (sessions d) /\ s_id s = t_session_id r
              /\ s_ended_at s <> None in
  cleanupStalePendingTools now d1 = d1
  /\ sessions d1 = sessions d
  /\ (forall r, In r (tool_uses d) -> t_status r = "pending" ->
        ended r \/ t_started_at r < now - 3600 ->
        exists msg, In (interrupt_tool now msg r) (tool_uses d1))
  /\ (forall r, In r (tool_uses d) ->
        t_status r <> "pending"
        \/ (~ ended r /\ now - 3600 <= t_started_at r) ->
        In r (tool_uses d1))
  /\ (forall r, In r (tool_uses d1) -> t_status r = "pending" ->
        (forall s, In s (sessions d1) -> s_id s = t_session_id r ->
                   s_ended_at s = None)
        /\ now - 3600 <= t_started_at r)
  /\ sweep_ended now d1 = d1
  /\ sweep_old now d1 = d1
  /\ (forall env data st,
        tool_uses (db (session_start env data st))
        = tool_uses (cleanupStalePendingTools (Hooks.now env) (db st))).
Proof.
  assert (Hsame : forall f l,
             (forall r : ToolUse, In r l -> f r = r) -> map f l = l).
  { intros f l H. induction l as [|x l IH]; simpl; [reflexivity|].
    rewrite H by (now left). f_equal. apply IH. intros r Hr. apply H. now right. }
  assert (Hpend : forall r, In r (tool_uses (cleanupStalePendingTools now d)) ->
             is_pending r = true ->
             sql_in (t_session_id r) (ended_session_ids d) = false
             /\ (t_started_at r <? now - 3600) = false).
  { intros r Hr P. rewrite cleanup_rows in Hr. simpl in Hr.
    apply in_map_iff in Hr. destruct Hr as [r0 [<- _]].
    now apply sweep_row_pending. }
  assert (Hended : ended_session_ids (cleanupStalePendingTools now d)
                   = ended_session_ids d).
  { rewrite cleanup_rows. reflexivity. }
  assert (Hsess : sessions (cleanupStalePendingTools now d) = sessions d).
  { rewrite cleanup_rows. reflexivity. }
  assert (Hin : forall r, sql_in (t_session_id r) (ended_session_ids d) = true
                          <-> exists s, In s (sessions d)
                                        /\ s_id s = t_session_id r
                                        /\ s_ended_at s <> None).
  { intros r. rewrite sql_in_In. apply ended_session_ids_spec. }
  cbv zeta.
  split; [|split; [exact Hsess|split; [|split; [|split; [|split; [|split]]]]]].
  - rewrite (cleanup_rows now (cleanupStalePendingTools now d)), Hended.
    rewrite cleanup_rows. unfold set_tool_uses. simpl. f_equal.
    rewrite map_map. apply map_ext. intros r. apply sweep_row_idem.
  - intros r Hr Hp Hc. rewrite cleanup_rows. cbn [tool_uses set_tool_uses].
    assert (P : is_pending r = true)
      by (unfold is_pending; now apply String.eqb_eq).
    destruct (sql_in (t_session_id r) (ended_session_ids d)) eqn:E.
    + exists "Session ended abnormally". apply in_map_iff. exists r.
      split; [|exact Hr]. unfold sweep_row. rewrite P, E. reflexivity.
    + exists "Stale pending tool (session likely ended abnormally)".
      apply in_map_iff. exists r. split; [|exact Hr].
      unfold sweep_row. rewrite P, E. cbn [andb]. rewrite P.
      destruct Hc as [Hc|Hc].
      * apply Hin in Hc. congruence.
      * apply Z.ltb_lt in Hc. now rewrite Hc.
  - intros r Hr Hc. rewrite cleanup_rows. cbn [tool_uses set_tool_uses].
    apply in_map_iff. exists r. split; [|exact Hr]. unfold sweep_row.
    destruct Hc as [Hc|[Hne Hold]].
    + assert (P : is_pending r = false).
      { unfold is_pending. now apply String.eqb_neq. }
      rewrite P. cbn [andb]. now rewrite P.
    + destruct (sql_in (t_session_id r) (ended_session_ids d)) eqn:E.
      * apply Hin in E. contradiction.
      * rewrite andb_false_r. apply Z.ltb_ge in Hold. rewrite Hold.
        now rewrite andb_false_r.
  - intros r Hr Hp.
    assert (P : is_pending r = true)
      by (unfold is_pending; now apply String.eqb_eq).
    destruct (Hpend r Hr P) as [E1 E2]. split.
    + intros s Hs Hid. rewrite Hsess in Hs.
      destruct (s_ended_at s) as [t|] eqn:Et; [|reflexivity].
      exfalso. apply Bool.not_true_iff_false in E1. apply E1, Hin.
      exists s. split; [exact Hs|]. split; [exact Hid|]. now rewrite Et.
    + now apply Z.ltb_ge in E2.
  - unfold sweep_ended. rewrite Hended.
    rewrite Hsame.
    + now destruct (cleanupStalePendingTools now d).
    + intros r Hr. destruct (is_pending r) eqn:P; [|reflexivity].
      destruct (Hpend r Hr P) as [E _]. now rewrite E.
  - unfold sweep_old. rewrite Hsame.
    + now destruct (cleanupStalePendingTools now d).
    + intros r Hr. destruct (is_pending r) eqn:P; [|reflexivity].
      destruct (Hpend r Hr P) as [_ E]. now rewrite E.
  - reflexivity.
Qed.

End Sweep.

(** ** Who writes the agents table *)
Module AgentFrame.

Lemma session_end_agents (env : Env) (st : State) :
  agents (db (session_end env st)) = agents (db st).
Proof.
  unfold session_end.
  destruct (or_null (currentSessionId (getContext (context_file st))));
    reflexivity.
Qed.

Lemma cleanup_agents (now : time) (d : Database) :
  agents (cleanupStalePendingTools now d) = agents d.
Proof. reflexivity. Qed.

Lemma session_start_agents (env : Env) (data : SessionData) (st : State) :
  agents (db (session_start env data st)) = agents (db st).
Proof. reflexivity. Qed.

Lemma post_tool_agents (env : Env) (d : option PostToolData) (st : State) :
  agents (db (post_tool env d st)) = agents (db st).
Proof.
  unfold post_tool.
  destruct (pendingToolUseId (getContext (context_file st))) as [id|];
    [|reflexivity].
  destruct (id =? 0); [reflexivity|]. finish_cases err; reflexivity.
Qed.

Lemma stop_agents (env : Env) (r : option string) (st : State) :
  agents (db (stop env r st)) = agents (db st).
Proof.
  unfold stop.
  destruct (or_null (currentSessionId (getContext (context_file st))));
    reflexivity.
Qed.

(** The pre-tool hook leaves the table alone or appends one running row
    under an id that is not in the table. *)
Lemma pre_tool_agents (env : Env) (d : option PreToolData) (st : State) :
  agents (db (pre_tool env d st)) = agents (db st)
  \/ exists row,
       agents (db (pre_tool env d st)) = (agents (db st) ++ [row])%list
       /\ ~ In (a_id row) (map a_id (agents (db st)))
       /\ a_id row = generateId (date_now env) (random36 env)
       /\ a_parent_agent_id row
          = or_null (currentAgentId (getContext (context_file st)))
       /\ Some (a_session_id row)
          = or_null (currentSessionId (getContext (context_file st)))
       /\ a_ended_at row = None /\ a_status row = "running".
Proof.
  unfold pre_tool.
  destruct (or_null (currentSessionId (getContext (context_file st))))
    as [sid|] eqn:Es; [|now left].
  match goal with |- context [String.eqb ?n "Task"] =>
    destruct (String.eqb n "Task") end; [|now left].
  spawn_cases ty desc Ex; [now left| |now left].
  right. simpl. eexists. split; [reflexivity|]. simpl.
  split.
  { intros Hid. apply in_map_iff in Hid. destruct Hid as [r [Hr1 Hr2]].
    apply Bool.not_true_iff_false in Ex. apply Ex.
    apply existsb_exists. exists r. split; [assumption|].
    now apply String.eqb_eq. }
  unfold or_null at 1.
  destruct (or_null (currentAgentId (getContext (context_file st)))) as [p|] eqn:Ep.
  - apply or_null_Some in Ep. destruct Ep as [_ Hp].
    unfold truthy_string. destruct (String.eqb_spec p ""); [contradiction|].
    simpl. repeat split.
  - repeat split.
Qed.

(** The subagent-stop hook rewrites rows with [close_agent], status
    'completed', and nothing else. *)
Lemma subagent_stop_agents (env : Env) (res : option json) (st : State) :
  agents (db (subagent_stop env res st)) = agents (db st)
  \/ exists id,
       agents (db (subagent_stop env res st))
       = map (fun r => if String.eqb (a_id r) id
                       then close_agent (now env) "completed" r else r)
             (agents (db st)).
Proof.
  unfold subagent_stop.
  destruct (or_null (currentSessionId (getContext (context_file st))));
    [|now left].
  destruct (rev (agentStack (getContext (context_file st)))) as [|top below];
    [now left|].
  right. exists top. reflexivity.
Qed.

(** C10. Neither SessionEnd nor the sweep (nor SessionStart, which runs
    it) touches the agents table, so an agent that is running when its
    session ends stays running with a null [ended_at].  After any hook,
    every agent row is a row that was there unchanged, or a new row that is
    running, or a row closed by SubagentStop; and such a row has status
    'completed'. *)
Theorem agents_closed_only_by_subagent_stop :
  (forall env st, agents (db (session_end env st)) = agents (db st))
  /\ (forall now d, agents (cleanupStalePendingTools now d) = agents d)
  /\ (forall env data st,
        agents (db (session_start env data st)) = agents (db st))
  /\ (forall env h st r',
        In r' (agents (db (step env h st))) ->
        In r' (agents (db st))
        \/ (~ In (a_id r') (map a_id (agents (db st)))
            /\ a_ended_at r' = None /\ a_status r' = "running")
        \/ (exists res r,
              h = SubagentStop res /\ In r (agents (db st))
              /\ r' = close_agent (now env) "completed" r
              /\ a_status r' = "completed"
              /\ a_ended_at r' = Some (now env))).
Proof.
  split; [exact session_end_agents|].
  split; [exact cleanup_agents|].
  split; [exact session_start_agents|].
  intros env h st r' Hin. destruct h as [data|d|d|res|reason|]; cbn [step] in Hin.
  - left. exact Hin.
  - destruct (pre_tool_agents env d st)
      as [E|(row & E & Hfresh & _ & _ & _ & He & Hs)];
      rewrite E in Hin; [now left|].
    apply in_app_or in Hin. destruct Hin as [Hin|[<-|[]]].
    + now left.
    + right. left. now repeat split.
  - rewrite post_tool_agents in Hin. now left.
  - destruct (subagent_stop_agents env res st) as [E|[id E]];
      rewrite E in Hin; [now left|].
    apply in_map_iff in Hin. destruct Hin as [r [Hr Hin]].
    destruct (String.eqb (a_id r) id).
    + right. right. exists res, r. subst r'. repeat split; assumption.
    + left. now subst r'.
  - rewrite stop_agents in Hin. now left.
  - rewrite session_end_agents in Hin. now left.
Qed.

End AgentFrame.

(** ** Deleting sessions *)
Module Delete.

Lemma filter_all (A : Type) (f : A -> bool) (l : list A) :
  (forall x, In x l -> f x = true) -> filter f l = l.
Proof.
  intros H. induction l as [|x l IH]; simpl; [reflexivity|].
  rewrite H by (now left). f_equal. apply IH. intros y Hy. apply H. now right.
Qed.

Lemma filter_none (A : Type) (f : A -> bool) (l : list A) :
  (forall x, In x l -> f x = false) -> filter f l = [].
Proof.
  intros H. induction l as [|x l IH]; simpl; [reflexivity|].
  rewrite H by (now left). apply IH. intros y Hy. apply H. now right.
Qed.

(** The store at the end is the store after the four statements. *)
Lemma deleteSessions_order (ids : list string) (d : Database) :
  deleteSessions ids d
  = delete_session_rows ids
      (delete_agents ids (delete_events ids (delete_tool_uses ids d))).
Proof.
  destruct ids as [|i ids]; [|reflexivity].
  unfold deleteSessions, delete_session_rows, delete_agents, delete_events,
    delete_tool_uses, set_sessions, set_agents, set_events, set_tool_uses.
  simpl. rewrite !filter_all by reflexivity. now destruct d.
Qed.

Lemma deleteSessions_tables (ids : list string) (d : Database) :
  tool_uses (deleteSessions ids d)
  = filter (fun r => negb (sql_in (t_session_id r) ids)) (tool_uses d)
  /\ events (deleteSessions ids d)
     = filter (fun r => negb (sql_in (e_session_id r) ids)) (events d)
  /\ agents (deleteSessions ids d)
     = filter (fun r => negb (sql_in (a_session_id r) ids)) (agents d)
  /\ sessions (deleteSessions ids d)
     = filter (fun r => negb (sql_in (s_id r) ids)) (sessions d).
Proof. rewrite deleteSessions_order. repeat split. Qed.

Lemma kept_row (A : Type) (sid : A -> string) (ids : list string)
    (l : list A) (r : A) :
  In r (filter (fun r => negb (sql_in (sid r) ids)) l)
  <-> In r l /\ ~ In (sid r) ids.
Proof.
  rewrite filter_In, negb_true_iff, <- sql_in_In.
  now destruct (sql_in (sid r) ids).
Qed.

(** A store the deletion passes through has no orphan of its own
    making: a row whose session was stored at the start still has it. *)
Lemma steps_keep_sessions (ids : list string) (d di : Database) :
  In di (deleteSessions_steps ids d) ->
  (forall r, In r (tool_uses di) ->
     In r (tool_uses d)
     /\ (In (t_session_id r) (map s_id (sessions d)) ->
         In (t_session_id r) (map s_id (sessions di))))
  /\ (forall r, In r (events di) ->
        In r (events d)
        /\ (In (e_session_id r) (map s_id (sessions d)) ->
            In (e_session_id r) (map s_id (sessions di))))
  /\ (forall r, In r (agents di) ->
        In r (agents d)
        /\ (In (a_session_id r) (map s_id (sessions d)) ->
            In (a_session_id r) (map s_id (sessions di)))).
Proof.
  destruct ids as [|i0 ids0]; [intros []|].
  set (ids := i0 :: ids0).
  assert (K : forall sid, In sid (map s_id (sessions d)) -> ~ In sid ids ->
                In sid (map s_id (filter (fun r => negb (sql_in (s_id r) ids))
                                         (sessions d)))).
  { intros sid Hs Hn. apply in_map_iff in Hs. destruct Hs as [x [<- Hx]].
    apply in_map. now apply kept_row. }
  cbn [deleteSessions_steps]. fold ids.
  intros [<-|[<-|[<-|[<-|[]]]]];
    cbn [delete_tool_uses delete_events delete_agents delete_session_rows
         set_tool_uses set_events set_agents set_sessions
         tool_uses events agents sessions];
    (split; [|split]); intros r Hr; rewrite ?kept_row in Hr;
    try (destruct Hr as [Hr Hn]); (split; [exact Hr|]); intros Hs;
    try exact Hs; now apply K.
Qed.

(** C6, as amended.  Deleting a list of sessions runs four statements, in
    the order tool uses, events, agents, sessions, each deleting from its
    table the rows of the listed sessions and touching no other table; for
    an empty list nothing is run.  The session rows go last: in every store
    the deletion passes through, a tool use, an event or an agent whose
    session was stored at the start still finds its session stored.
    Afterwards a row of any of the four tables is there exactly when it was
    there before and its session is not in the list: every row owned by a
    listed session is gone, every other row is kept.  For a listed id that
    is not the empty string, the queries filtered by that id
    ([getToolUses], [getEvents], [getAgents], whatever their other filters)
    return nothing, and no session listing shows a row with that id. *)
Theorem deleteSessions_cascade (ids : list string) (d : Database) :
  let d' := deleteSessions ids d in
  (ids = [] /\ deleteSessions_steps ids d = []
   \/ exists d1 d2 d3,
        deleteSessions_steps ids d = [d1; d2; d3; d']
        /\ d1 = set_tool_uses (tool_uses d') d
        /\ d2 = set_events (events d') d1
        /\ d3 = set_agents (agents d') d2
        /\ d' = set_sessions (sessions d') d3)
  /\ (forall di, In di (deleteSessions_steps ids d) ->
        (forall r, In r (tool_uses di) ->
           In (t_session_id r) (map s_id (sessions d)) ->
           In (t_session_id r) (map s_id (sessions di)))
        /\ (forall r, In r (events di) ->
              In (e_session_id r) (map s_id (sessions d)) ->
              In (e_session_id r) (map s_id (sessions di)))
        /\ (forall r, In r (agents di) ->
              In (a_session_id r) (map s_id (sessions d)) ->
              In (a_session_id r) (map s_id (sessions di))))
  /\ (forall r, In r (tool_uses d')
                <-> In r (tool_uses d) /\ ~ In (t_session_id r) ids)
  /\ (forall r, In r (events d')
                <-> In r (events d) /\ ~ In (e_session_id r) ids)
  /\ (forall r, In r (agents d')
                <-> In r (agents d) /\ ~ In (a_session_id r) ids)
  /\ (forall r, In r (sessions d')
                <-> In r (sessions d) /\ ~ In (s_id r) ids)
  /\ (forall s, In s ids -> s <> "" ->
        (forall f, tf_sessionId f = Some s -> getToolUses f d' = [])
        /\ (forall f, ef_sessionId f = Some s -> getEvents f d' = [])
        /\ (forall limit, getAgents (Some s) limit d' = [])
        /\ (forall limit offset branch r,
              In r (getSessions limit offset branch d') -> s_id r <> s)).
Proof.
  cbv zeta.
  destruct (deleteSessions_tables ids d) as (Ht & He & Ha & Hs).
  split.
  { destruct ids as [|i0 ids0]; [left; now split|right].
    eexists _, _, _. split; [reflexivity|].
    now destruct d. }
  split.
  { intros di Hdi. destruct (steps_keep_sessions ids d di Hdi) as (A & B & C).
    split; [|split]; intros r Hr; [apply A|apply B|apply C]; exact Hr. }
  split; [intros r; rewrite Ht; apply kept_row|].
  split; [intros r; rewrite He; apply kept_row|].
  split; [intros r; rewrite Ha; apply kept_row|].
  split; [intros r; rewrite Hs; apply kept_row|].
  intros s Hin Hne. repeat split.
  - intros f Hf. unfold getToolUses. rewrite filter_none; [apply sql_limit_nil|].
    intros r Hr. rewrite Ht in Hr. apply kept_row in Hr. destruct Hr as [_ Hr].
    unfold opt_filter at 1. rewrite Hf, (or_null_nonempty Hne).
    destruct (String.eqb_spec (t_session_id r) s) as [E|_]; [|reflexivity].
    rewrite E in Hr. contradiction.
  - intros f Hf. unfold getEvents. rewrite filter_none; [apply sql_limit_nil|].
    intros r Hr. rewrite He in Hr. apply kept_row in Hr. destruct Hr as [_ Hr].
    unfold opt_filter at 1. rewrite Hf, (or_null_nonempty Hne).
    destruct (String.eqb_spec (e_session_id r) s) as [E|_]; [|reflexivity].
    rewrite E in Hr. contradiction.
  - intros limit. unfold getAgents. rewrite filter_none; [apply sql_limit_nil|].
    intros r Hr. rewrite Ha in Hr. apply kept_row in Hr. destruct Hr as [_ Hr].
    unfold opt_filter. rewrite (or_null_nonempty Hne).
    destruct (String.eqb_spec (a_session_id r) s) as [E|_]; [|reflexivity].
    rewrite E in Hr. contradiction.
  - intros limit offset branch r Hr E. unfold getSessions in Hr.
    apply sql_limit_incl, order_by_desc_In, filter_In in Hr.
    destruct Hr as [Hr _]. rewrite Hs in Hr. apply kept_row in Hr.
    destruct Hr as [_ Hr]. rewrite E in Hr. contradiction.
Qed.

Lemma deleteSessions_cascade_witness :
  getToolUses (mkToolFilters (Some "A") None None None None None)
              (deleteSessions ["A"] store_A) = []
  /\ getAgents (Some "A") None (deleteSessions ["A"] store_A) = [].
Proof.
  destruct (deleteSessions_cascade ["A"] store_A)
    as (_ & _ & _ & _ & _ & _ & H).
  destruct (H "A") as (Ht & _ & Ha & _).
  - simpl. now left.
  - discriminate.
  - split; [apply Ht; reflexivity|apply Ha].
Defined.

(** The claim as stated fails for the empty id: the query drops a falsy
    session filter, so that after deleting [""] the query "filtered" by
    [""] still returns the rows of session "A". *)
Lemma deleteSessions_empty_id_counterexample :
  In "" [""]
  /\ getToolUses (mkToolFilters (Some "") None None None None None)
                 (deleteSessions [""] store_A)
     = tool_uses store_A
  /\ tool_uses store_A <> [].
Proof. repeat split; [now left|discriminate]. Qed.

End Delete.

(** ** What the hooks do to the context and to the tool uses *)
Module Correlate.

Lemma run_app (t1 t2 : list (Env * Hook)) (st : State) :
  run (t1 ++ t2) st = run t2 (run t1 st).
Proof.
  revert st. induction t1 as [|[env h] t1 IH]; intros st; simpl;
    [reflexivity|apply IH].
Qed.

Lemma session_start_ctx (env : Env) (data : SessionData) (st : State) :
  ctx (session_start env data st)
  = mkContext (Some (generateId (date_now env) (random36 env))) None None [].
Proof. reflexivity. Qed.

Lemma session_end_ctx (env : Env) (st : State) :
  ctx (session_end env st) = mkContext None None None [].
Proof. reflexivity. Qed.

Lemma pre_tool_session (env : Env) (d : option PreToolData) (st : State) :
  currentSessionId (ctx (pre_tool env d st)) = currentSessionId (ctx st).
Proof.
  unfold pre_tool, ctx.
  destruct (or_null (currentSessionId (getContext (context_file st))));
    [|reflexivity].
  match goal with |- context [String.eqb ?n "Task"] =>
    destruct (String.eqb n "Task") end; [|reflexivity].
  destruct (task_description _); [|reflexivity].
  match goal with |- context [createAgent ?a ?b ?c] =>
    destruct (createAgent a b c) end; reflexivity.
Qed.

Lemma post_tool_session (env : Env) (d : option PostToolData) (st : State) :
  currentSessionId (ctx (post_tool env d st)) = currentSessionId (ctx st).
Proof.
  unfold post_tool, ctx.
  destruct (pendingToolUseId (getContext (context_file st))) as [id|];
    [|reflexivity].
  destruct (id =? 0); [reflexivity|]. finish_cases err; reflexivity.
Qed.

Lemma subagent_stop_session (env : Env) (r : option json) (st : State) :
  currentSessionId (ctx (subagent_stop env r st)) = currentSessionId (ctx st).
Proof.
  unfold subagent_stop, ctx.
  destruct (or_null (currentSessionId (getContext (context_file st))));
    [|reflexivity].
  destruct (rev (agentStack (getContext (context_file st)))); reflexivity.
Qed.

Lemma stop_session (env : Env) (r : option string) (st : State) :
  currentSessionId (ctx (stop env r st)) = currentSessionId (ctx st).
Proof.
  unfold stop, ctx.
  destruct (or_null (currentSessionId (getContext (context_file st))));
    reflexivity.
Qed.

Lemma inner_session (trace : list (Env * Hook)) (st : State) :
  forallb (fun eh => inner (snd eh)) trace = true ->
  currentSessionId (ctx (run trace st)) = currentSessionId (ctx st).
Proof.
  revert st. induction trace as [|[env h] trace IH]; intros st Hall;
    [reflexivity|].
  simpl in Hall. apply andb_true_iff in Hall. destruct Hall as [Hh Hall].
  simpl. rewrite (IH _ Hall).
  destruct h; try discriminate; cbn [step].
  - apply pre_tool_session.
  - apply post_tool_session.
  - apply subagent_stop_session.
  - apply stop_session.
Qed.

Lemma paired_inner pairs :
  forallb (fun eh => inner (snd eh)) (paired pairs) = true.
Proof. induction pairs as [|p pairs IH]; simpl; [reflexivity|exact IH]. Qed.

(** What SessionEnd does to the tool uses when a session is current. *)
Lemma session_end_tool_uses (env : Env) (st : State) (s : string) :
  or_null (currentSessionId (ctx st)) = Some s ->
  tool_uses (db (session_end env st))
  = map (fun r => if String.eqb (t_session_id r) s && is_pending r
                  then interrupt_tool (now env)
                         "Session ended before tool completed" r
                  else r)
        (tool_uses (db st)).
Proof.
  unfold session_end, ctx. intros ->. reflexivity.
Qed.

(** A pending row of the current session is interrupted by SessionEnd. *)
Lemma session_end_interrupts (env : Env) (st : State) (s : string)
    (r : ToolUse) :
  or_null (currentSessionId (ctx st)) = Some s ->
  In r (tool_uses (db st)) -> t_session_id r = s -> t_status r = "pending" ->
  exists r',
    In r' (tool_uses (db (session_end env st)))
    /\ t_id r' = t_id r /\ t_session_id r' = s
    /\ t_status r' = "interrupted" /\ t_ended_at r' = Some (now env).
Proof.
  intros Hs Hin Hsid Hp.
  exists (interrupt_tool (now env) "Session ended before tool completed" r).
  rewrite (session_end_tool_uses env st Hs). split.
  - apply in_map_iff. exists r. split; [|assumption].
    unfold is_pending. rewrite Hsid, Hp, String.eqb_refl. reflexivity.
  - repeat split. exact Hsid.
Qed.

Lemma session_end_none_pending (env : Env) (st : State) (s : string)
    (r : ToolUse) :
  or_null (currentSessionId (ctx st)) = Some s ->
  In r (tool_uses (db (session_end env st))) -> t_session_id r = s ->
  t_status r <> "pending".
Proof.
  intros Hs Hin Hsid Hp. rewrite (session_end_tool_uses env st Hs) in Hin.
  apply in_map_iff in Hin. destruct Hin as [r0 [E _]].
  destruct (String.eqb (t_session_id r0) s && is_pending r0) eqn:C.
  - subst r. discriminate.
  - subst r0. unfold is_pending in C.
    rewrite Hsid, Hp, String.eqb_refl in C. discriminate.
Qed.

(** C4. After SessionStart, any sequence of the hooks that fire inside
    a session (pre- and post-invocations, paired or not, SubagentStop,
    Stop) and SessionEnd, no tool use of that session is pending; and every
    tool use of the session that was pending when SessionEnd fired, such as
    one whose post-invocation never came, is found afterwards with status
    'interrupted' and with [ended_at] the time of the SessionEnd.  Every
    sequence of paired pre- and post-invocations is such a sequence. *)
Theorem no_pending_after_session_end
    (st0 : State) (env0 : Env) (data : SessionData)
    (body : list (Env * Hook)) (envE : Env) :
  forallb (fun eh => inner (snd eh)) body = true ->
  let sid := generateId (date_now env0) (random36 env0) in
  let before := run ((env0, SessionStart data) :: body) st0 in
  let after :=
    run ((env0, SessionStart data) :: body ++ [(envE, SessionEnd)]) st0 in
  (forall r, In r (tool_uses (db after)) -> t_session_id r = sid ->
             t_status r <> "pending")
  /\ (forall r, In r (tool_uses (db before)) -> t_session_id r = sid ->
                t_status r = "pending" ->
                exists r',
                  In r' (tool_uses (db after)) /\ t_id r' = t_id r
                  /\ t_session_id r' = sid
                  /\ t_status r' = "interrupted"
                  /\ t_ended_at r' = Some (now envE))
  /\ (forall pairs,
        forallb (fun eh => inner (snd eh)) (paired pairs) = true).
Proof.
  intros Hbody. cbv zeta.
  change ((env0, SessionStart data) :: body ++ [(envE, SessionEnd)])
    with (((env0, SessionStart data) :: body) ++ [(envE, SessionEnd)])%list.
  rewrite run_app. cbn [run step].
  set (before := run body (session_start env0 data st0)).
  assert (Hs : or_null (currentSessionId (ctx before))
               = Some (generateId (date_now env0) (random36 env0))).
  { unfold before. rewrite (inner_session _ _ Hbody).
    rewrite session_start_ctx. apply or_null_generateId. }
  split; [|split].
  - intros r. now apply session_end_none_pending.
  - intros r. now apply session_end_interrupts.
  - apply paired_inner.
Qed.

End Correlate.

(** ** Finalising a tool use *)
Module PostTool.
Import Correlate.

Lemma hasError_spec (d : option PostToolData) :
  hasError d = error_given d || output_signals_failure d.
Proof.
  destruct d as [[out err]|]; [|reflexivity].
  unfold hasError, error_given, output_signals_failure, json_or_null.
  simpl. destruct err as [e|]; [|reflexivity].
  destruct (truthy e); reflexivity.
Qed.

Lemma post_tool_set (env : Env) (d : option PostToolData) (st : State)
    (id : Z) (err : option string) :
  pendingToolUseId (ctx st) = Some id -> id <> 0 ->
  bind_text (json_or_null (error_of d)) = Some err ->
  post_tool env d st
  = mkState
      (set_tool_uses
         (map (fun r => if t_id r =? id
                        then finish_tool (now env)
                               (json_or_null (output_of d))
                               (final_status d) err r
                        else r)
              (tool_uses (db st)))
         (db st))
      (Some (mkContext (currentSessionId (ctx st)) (currentAgentId (ctx st))
                       None (agentStack (ctx st)))).
Proof.
  unfold post_tool, ctx, final_status, error_of, output_of, recordToolEnd.
  intros -> Hid Herr.
  destruct (Z.eqb_spec id 0); [contradiction|].
  cbn [te_error te_output te_status]. rewrite Herr.
  now rewrite hasError_spec.
Qed.

(** When the error cannot be bound the hook dies: nothing is written and
    the pending id stays. *)
Lemma post_tool_throws (env : Env) (d : option PostToolData) (st : State) :
  bind_text (json_or_null (error_of d)) = None -> post_tool env d st = st.
Proof.
  unfold post_tool, error_of, recordToolEnd. intros Herr.
  destruct (pendingToolUseId (getContext (context_file st))) as [id|];
    [|reflexivity].
  destruct (id =? 0); [reflexivity|].
  cbn [te_error]. now rewrite Herr.
Qed.

Lemma post_tool_unset (env : Env) (d : option PostToolData) (st : State) :
  pendingToolUseId (ctx st) = None \/ pendingToolUseId (ctx st) = Some 0 ->
  post_tool env d st = st.
Proof. unfold post_tool, ctx. now intros [->| ->]. Qed.

(** The pre-tool hook for a tool that is not "Task", in an open session. *)
Lemma pre_tool_plain (env : Env) (name : string) (input : option json)
    (st : State) (s : string) :
  or_null (currentSessionId (ctx st)) = Some s ->
  name <> "" -> name <> "Task" ->
  pre_tool env (Some (mkPreToolData (Some name) input)) st
  = mkState
      (fst (recordToolStart (now env)
              (mkToolStart s (or_null (currentAgentId (ctx st))) name input)
              (db st)))
      (Some (mkContext (currentSessionId (ctx st)) (currentAgentId (ctx st))
                       (Some (seq_tool_uses (db st) + 1))
                       (agentStack (ctx st)))).
Proof.
  unfold pre_tool, ctx. intros -> Hne Hnt. cbn [pre_tool_name pre_tool_input].
  unfold or_default. rewrite (or_null_nonempty Hne).
  destruct (String.eqb_spec name "Task"); [contradiction|]. reflexivity.
Qed.

Lemma filter_of_session_map (s : string) (f : ToolUse -> ToolUse)
    (l : list ToolUse) :
  (forall r, t_session_id (f r) = t_session_id r) ->
  (forall r, In r l -> t_session_id r <> s) ->
  filter (of_session s) (map f l) = [].
Proof.
  intros Hf Hn. apply Delete.filter_none. intros r Hr.
  apply in_map_iff in Hr. destruct Hr as [r0 [<- Hr0]].
  unfold of_session. rewrite Hf.
  destruct (String.eqb_spec (t_session_id r0) s) as [E|]; [|reflexivity].
  now apply Hn in Hr0.
Qed.

Lemma read_scenario_rows (st0 : State) (env0 env1 env2 : Env)
    (data : SessionData) :
  let sid := generateId (date_now env0) (random36 env0) in
  0 <= seq_tool_uses (db st0) ->
  (forall r, In r (tool_uses (db st0)) -> t_session_id r <> sid) ->
  filter (of_session sid)
         (tool_uses (db (run (read_scenario env0 env1 env2 data) st0)))
  = [mkToolUse (seq_tool_uses (db st0) + 1) sid None "Read"
       (Some (JObj [("path", JStr "a.txt")])) (Some (JStr "contents"))
       (now env1) (Some (now env2))
       (Some (elapsed_ms (now env2) (now env1))) "success" None].
Proof.
  intros sid Hseq Hfresh. unfold read_scenario. cbn [run step].
  set (st1 := session_start env0 data st0).
  assert (Hc1 : ctx st1 = mkContext (Some sid) None None []) by reflexivity.
  assert (Hs1 : or_null (currentSessionId (ctx st1)) = Some sid).
  { rewrite Hc1. apply or_null_generateId. }
  rewrite (pre_tool_plain env1 _ st1 Hs1) by discriminate.
  rewrite Hc1. cbn [currentSessionId currentAgentId agentStack or_null].
  set (st2 := mkState _ _).
  assert (Hp : pendingToolUseId (ctx st2) = Some (seq_tool_uses (db st0) + 1))
    by reflexivity.
  rewrite (@post_tool_set env2 _ st2 _ None Hp) by (lia || reflexivity).
  cbn [db]. unfold set_tool_uses. cbn [tool_uses].
  unfold st2. cbn [db fst recordToolStart tool_uses].
  rewrite map_app, filter_app.
  unfold st1 at 1. cbn [session_start db createSession set_sessions tool_uses].
  rewrite Sweep.cleanup_rows. cbn [set_tool_uses tool_uses].
  rewrite map_map, filter_of_session_map; [| |exact Hfresh].
  - cbn [map filter app ts_sessionId ts_agentId ts_toolName ts_toolInput t_id
         of_session t_session_id].
    rewrite Z.eqb_refl. unfold of_session, finish_tool. cbn [t_session_id].
    rewrite String.eqb_refl. reflexivity.
  - intros r. destruct (t_id (sweep_row _ _ r) =? _);
      unfold sweep_row;
      repeat match goal with |- context [if ?c then _ else _] => destruct c end;
      reflexivity.
Qed.

(** C3, as amended.  A post-invocation whose context holds a pending
    tool-use id (an id other than 0, as every rowid is) finalises the rows
    with that id: [ended_at] is the current time, [duration_ms] the double
    that SQLite computes from the two Julian days, the error the text of
    the error field (null when the field is falsy), and the status is
    'error' when the error field is present and truthy (for a string: not
    empty) or when the output is a string that contains "error", and
    'success' otherwise; the other rows are left as they are and the
    pending id is cleared.  When the error field is an array or an object
    it cannot be bound: the hook dies, nothing is written and the pending
    id stays; an error that is absent or a string never does that.
    Without a pending id (null, or the falsy 0) the hook writes nothing.
    The duration is not the elapsed time in milliseconds but a double near
    it: it is 0 when the two times are the same, it is not negative when
    the clock has not gone back, and for times from 1970 to 2099 it is
    within a twentieth of a millisecond of the elapsed time.  In the
    scenario SessionStart, pre-invocation of "Read", post-invocation with
    output "contents", run on a store without rows of the new session and
    with a clock that does not go back, the session has exactly one tool
    use afterwards: tool "Read", status 'success', a duration that is not
    negative. *)
Theorem post_tool_finalizes_pending :
  (forall env d st id,
     pendingToolUseId (ctx st) = Some id -> id <> 0 ->
     let st' := post_tool env d st in
     match bind_text (json_or_null (error_of d)) with
     | None => st' = st
     | Some err =>
         pendingToolUseId (ctx st') = None
         /\ List.length (tool_uses (db st'))
            = List.length (tool_uses (db st))
         /\ (forall r, In r (tool_uses (db st)) -> t_id r = id ->
               exists r',
                 In r' (tool_uses (db st')) /\ t_id r' = id
                 /\ t_ended_at r' = Some (now env)
                 /\ t_duration_ms r'
                    = Some (elapsed_ms (now env) (t_started_at r))
                 /\ t_status r' = final_status d
                 /\ t_error r' = err)
         /\ (forall r, In r (tool_uses (db st)) -> t_id r <> id ->
               In r (tool_uses (db st')))
     end)
  /\ (forall d, final_status d
                = if error_given d || output_signals_failure d
                  then "error" else "success")
  /\ (forall d,
        error_of d = None
        -> bind_text (json_or_null (error_of d)) = Some None)
  /\ (forall d e,
        error_of d = Some (JStr e)
        -> bind_text (json_or_null (error_of d)) = Some (or_null (Some e))
           /\ error_given d = negb (String.eqb e ""))
  /\ (forall env d st,
        pendingToolUseId (ctx st) = None \/ pendingToolUseId (ctx st) = Some 0 ->
        post_tool env d st = st)
  /\ (forall t, elapsed_ms t t = 0%Q)
  /\ (forall t started, started <= t -> (0 <= elapsed_ms t started)%Q)
  /\ (forall t started,
        0 <= started -> started <= t -> t < 4102444800 ->
        let ms := inject_Z ((t - started) * 1000) in
        (ms - (1 # 20) <= elapsed_ms t started <= ms + (1 # 20))%Q)
  /\ (forall st0 env0 env1 env2 data,
        let sid := generateId (date_now env0) (random36 env0) in
        0 <= seq_tool_uses (db st0) ->
        (forall r, In r (tool_uses (db st0)) -> t_session_id r <> sid) ->
        now env1 <= now env2 ->
        exists row dur,
          filter (of_session sid)
                 (tool_uses (db (run (read_scenario env0 env1 env2 data) st0)))
          = [row]
          /\ t_tool_name row = "Read" /\ t_status row = "success"
          /\ t_duration_ms row = Some dur /\ (0 <= dur)%Q).
Proof.
  split; [|split; [reflexivity|]].
  - intros env d st id Hp Hid. cbv zeta.
    destruct (bind_text (json_or_null (error_of d))) as [err|] eqn:Herr;
      [|now apply post_tool_throws].
    rewrite (post_tool_set env d st Hp Hid Herr).
    unfold ctx. cbn [context_file getContext pendingToolUseId db].
    unfold set_tool_uses. cbn [tool_uses].
    split; [reflexivity|]. split; [apply List.length_map|]. split.
    + intros r Hr Hrid. eexists. split.
      * apply in_map_iff. exists r. split; [reflexivity|exact Hr].
      * rewrite <- Hrid, Z.eqb_refl. cbn. repeat split.
    + intros r Hr Hrid. apply in_map_iff. exists r. split; [|exact Hr].
      destruct (Z.eqb_spec (t_id r) id); [contradiction|reflexivity].
  - split; [now intros d ->|].
    split.
    { intros [[out err]|] e H; [|discriminate H]. cbn in H. subst err.
      unfold error_of, error_given. cbn [post_error json_or_null truthy or_null].
      unfold truthy_string. now destruct (String.eqb e ""). }
    split; [exact post_tool_unset|].
    split; [exact Rounding.elapsed_ms_same|].
    split; [exact Rounding.elapsed_ms_nonneg|].
    split; [exact Rounding.elapsed_ms_near|].
    intros st0 env0 env1 env2 data sid Hseq Hfresh Hclock. subst sid.
    eexists. exists (elapsed_ms (now env2) (now env1)).
    rewrite (read_scenario_rows st0 env0 env1 env2 data Hseq Hfresh).
    split; [reflexivity|]. split; [reflexivity|]. split; [reflexivity|].
    split; [reflexivity|]. now apply Rounding.elapsed_ms_nonneg.
Qed.

Lemma post_tool_finalizes_pending_witness :
  exists row dur,
    filter (of_session (generateId 1700000000000 "k3x9q2a"))
      (tool_uses (db (run (read_scenario env_a env_b env_c no_data) init)))
    = [row]
    /\ t_tool_name row = "Read" /\ t_status row = "success"
    /\ t_duration_ms row = Some dur /\ (0 <= dur)%Q.
Proof.
  destruct post_tool_finalizes_pending as (_ & _ & _ & _ & _ & _ & _ & _ & H).
  apply (H init env_a env_b env_c no_data); cbn; [lia|intros r []|lia].
Defined.

(** The claim as stated fails when the error field is present but empty:
    the hook tests the field for truthiness, so that the row ends with
    status 'success'.  It fails for the duration as well: a read that
    takes the two seconds from 22:13:21 to 22:13:23 on 14 November 2023
    gets 2000.0293850898743 (the double 4194365625 / 2^21), not 2000. *)
Lemma post_tool_claim_counterexample :
  let d := mkPostToolData (Some (JStr "contents")) (Some (JStr "")) in
  post_error d <> None
  /\ map t_status
         (tool_uses (db (post_tool (mkEnv 103 0 "t" "r") (Some d) pending_read)))
     = ["success"]
  /\ elapsed_ms 1700000003 1700000001 = (4194365625 # 2097152)%Q
  /\ ~ Qeq (elapsed_ms 1700000003 1700000001) 2000%Q.
Proof.
  split; [discriminate|]. split; [reflexivity|].
  split; [vm_compute; reflexivity|]. vm_compute. discriminate.
Qed.

End PostTool.

(** ** Recording a tool use that spawns an agent *)
Module PreTool.
Import Correlate.

(** The pre-tool hook for "Task" in an open session, the new id being
    free and the two fields storable. *)
Lemma pre_tool_task (env : Env) (input : option json) (st : State)
    (s : string) (ty desc : option string) :
  let a := generateId (date_now env) (random36 env) in
  or_null (currentSessionId (ctx st)) = Some s ->
  ~ In a (map a_id (agents (db st))) ->
  spawn_fields input = Some (ty, desc) ->
  pre_tool env (task input) st
  = mkState
      (mkDatabase (sessions (db st))
         (agents (db st) ++
          [mkAgent a s (or_null (currentAgentId (ctx st))) ty desc
                   (now env) None "running"])
         (tool_uses (db st) ++
          [mkToolUse (seq_tool_uses (db st) + 1) s
                     (or_null (currentAgentId (ctx st))) "Task"
                     (json_or_null input) None (now env) None None
                     "pending" None])
         (events (db st) ++
          [mkEvent (seq_events (db st) + 1) s (Some a) "agent_start"
                   (Some (JObj (opt_field "toolInput" input))) (now env)])
         (seq_tool_uses (db st) + 1) (seq_events (db st) + 1))
      (Some (mkContext (currentSessionId (ctx st)) (Some a)
                       (Some (seq_tool_uses (db st) + 1))
                       (agentStack (ctx st) ++ [a]))).
Proof.
  intros a Hs Hfresh Hfields. unfold pre_tool, task, ctx in *.
  rewrite Hs. cbn [pre_tool_name pre_tool_input].
  change (or_default (Some "Task") "unknown") with "Task".
  cbn [String.eqb Ascii.eqb Bool.eqb andb].
  unfold spawn_fields in Hfields.
  destruct (task_description input) as [description|]; [|discriminate].
  unfold createAgent. cbn [ad_id ad_agentType ad_description].
  destruct (bind_text (json_or_null (Some _))) as [ty'|]; [|discriminate].
  destruct (bind_text (json_or_null description)) as [desc'|];
    [|discriminate].
  injection Hfields as -> ->.
  fold a.
  destruct (existsb (fun r => String.eqb (a_id r) a) (agents (db st))) eqn:Ex.
  - exfalso. apply Hfresh. apply existsb_exists in Ex.
    destruct Ex as [r [Hr E]]. apply String.eqb_eq in E. rewrite <- E.
    now apply in_map.
  - unfold recordEvent, recordToolStart, updateContext, saveContext, assign.
    cbn -[or_null json_or_null]. rewrite !or_null_idem.
    unfold a. rewrite or_null_generateId. reflexivity.
Qed.

(** When the description cannot be read or a field cannot be bound, the
    hook dies before it has written anything. *)
Lemma pre_tool_task_throws (env : Env) (input : option json) (st : State) :
  spawn_fields input = None -> pre_tool env (task input) st = st.
Proof.
  intros Hfields. unfold pre_tool, task.
  destruct (or_null (currentSessionId (getContext (context_file st))));
    [|reflexivity].
  cbn [pre_tool_name pre_tool_input].
  change (or_default (Some "Task") "unknown") with "Task".
  cbn [String.eqb Ascii.eqb Bool.eqb andb].
  unfold spawn_fields in Hfields.
  destruct (task_description input) as [description|]; [|reflexivity].
  unfold createAgent. cbn [ad_agentType ad_description].
  destruct (bind_text (json_or_null (Some _))) as [ty|]; [|reflexivity].
  destruct (bind_text (json_or_null description)) as [desc|];
    [discriminate|reflexivity].
Qed.

(** What is stored for a task whose three fields are absent or strings. *)
Lemma spawn_fields_typed (input : option json) :
  textual input "subagent_type" -> textual input "description" ->
  textual input "prompt" ->
  spawn_fields input
  = Some (Some (or_default (string_field input "subagent_type") "unknown"),
          typed_description input).
Proof.
  intros Ht Hd Hp.
  unfold spawn_fields, task_description, typed_description, string_field,
    json_or, or_default.
  change (truthy_string "unknown") with true.
  destruct Ht as [-> | [t ->]], Hd as [-> | [d ->]], Hp as [-> | [p ->]];
    cbn [json_or_null truthy or_null option_map bind_text];
    change (truthy_string "unknown") with true;
    repeat match goal with
           | |- context [truthy_string ?x] =>
               destruct (truthy_string x) eqn:?;
               cbn [json_or_null truthy or_null option_map bind_text];
               change (truthy_string "unknown") with true
           end;
    try discriminate; try reflexivity;
    repeat match goal with
           | H : truthy_string _ = _ |- _ => rewrite H
           end; reflexivity.
Qed.

(** C1, as amended.  A pre-invocation of "Task" in an open session, with a
    fresh agent id, reads the type and the description from the input.
    When that fails (a prompt that is neither absent, null nor a string
    under a falsy description; a field that is an array or an object) the
    hook dies and nothing is written.  Otherwise it appends one agent row
    (running, owned by the session, its parent the agent that was current,
    with that type and description), pushes the new agent on the stack and
    makes it current, and appends one tool-use row with status 'pending'
    owned by the session, whose id is recorded as [pendingToolUseId].  That
    tool use is attributed to the agent that was current before the push
    (null at top level), which is the parent of the new agent, not to the
    new agent.  When the three fields are absent or strings, nothing fails:
    the type is the given one or 'unknown', the description the given one
    or the first hundred characters of the prompt. *)
Theorem pre_tool_task_attribution (env : Env) (input : option json)
    (st : State) (s : string) :
  let a := generateId (date_now env) (random36 env) in
  let st' := pre_tool env (task input) st in
  or_null (currentSessionId (ctx st)) = Some s ->
  ~ In a (map a_id (agents (db st))) ->
  match spawn_fields input with
  | None => st' = st
  | Some (ty, desc) =>
      exists arow trow,
        agents (db st') = (agents (db st) ++ [arow])%list
        /\ a_id arow = a /\ a_session_id arow = s
        /\ a_status arow = "running"
        /\ a_parent_agent_id arow = or_null (currentAgentId (ctx st))
        /\ a_agent_type arow = ty /\ a_description arow = desc
        /\ agentStack (ctx st') = (agentStack (ctx st) ++ [a])%list
        /\ currentAgentId (ctx st') = Some a
        /\ tool_uses (db st') = (tool_uses (db st) ++ [trow])%list
        /\ t_status trow = "pending" /\ t_session_id trow = s
        /\ t_tool_name trow = "Task"
        /\ t_agent_id trow = or_null (currentAgentId (ctx st))
        /\ t_agent_id trow = a_parent_agent_id arow
        /\ pendingToolUseId (ctx st') = Some (t_id trow)
  end
  /\ (textual input "subagent_type" -> textual input "description" ->
      textual input "prompt" ->
      spawn_fields input
      = Some (Some (or_default (string_field input "subagent_type")
                               "unknown"),
              typed_description input)).
Proof.
  intros a st' Hs Hfresh. subst st'. split; [|apply spawn_fields_typed].
  destruct (spawn_fields input) as [[ty desc]|] eqn:Hfields.
  - rewrite (pre_tool_task env input st Hs Hfresh Hfields).
    do 2 eexists. cbn [db agents tool_uses context_file ctx getContext
                       agentStack currentAgentId pendingToolUseId].
    repeat (split; [reflexivity|]). reflexivity.
  - now apply pre_tool_task_throws.
Qed.

Lemma pre_tool_task_attribution_witness :
  (exists arow trow,
     agents (db (pre_tool env_b (task (Some explore_task)) started)) = [arow]
     /\ a_agent_type arow = Some "explorer"
     /\ a_description arow = Some "map the hooks"
     /\ tool_uses (db (pre_tool env_b (task (Some explore_task)) started))
        = [trow]
     /\ t_agent_id trow = a_parent_agent_id arow
     /\ pendingToolUseId (ctx (pre_tool env_b (task (Some explore_task))
                                          started))
        = Some (t_id trow))
  /\ (exists arow,
        agents (db (pre_tool env_b (task (Some numeric_fields)) started))
        = [arow]
        /\ a_agent_type arow = Some "7" /\ a_description arow = Some "5")
  /\ pre_tool env_b (task (Some numeric_prompt)) started = started.
Proof.
  split; [|split].
  - destruct (pre_tool_task_attribution env_b (Some explore_task) started
                (s := generateId 1700000000000 "k3x9q2a"))
      as [(arow & trow & Ha & _ & _ & _ & _ & Hty & Hd & _ & _ & Ht & _ & _
           & _ & _ & Hp & Hid) _]; [reflexivity|intros []|].
    exists arow, trow. repeat split; assumption.
  - destruct (pre_tool_task_attribution env_b (Some numeric_fields) started
                (s := generateId 1700000000000 "k3x9q2a"))
      as [(arow & trow & Ha & _ & _ & _ & _ & Hty & Hd & _) _];
      [reflexivity|intros []|].
    exists arow. repeat split; assumption.
  - destruct (pre_tool_task_attribution env_b (Some numeric_prompt) started
                (s := generateId 1700000000000 "k3x9q2a"))
      as [H _]; [reflexivity|intros []|exact H].
Defined.

(** The claim as stated fails on the first "Task" of a session: the agent
    created and pushed is the current agent afterwards, but the tool use
    recorded by the same invocation has a null [agent_id]. *)
Lemma pre_tool_task_counterexample :
  let st' := pre_tool env_b (task None) started in
  let a := generateId 1700000001000 "m1n2b3v" in
  map a_id (agents (db st')) = [a]
  /\ agentStack (ctx st') = [a]
  /\ currentAgentId (ctx st') = Some a
  /\ map t_agent_id (tool_uses (db st')) = [None]
  /\ map t_status (tool_uses (db st')) = ["pending"].
Proof. repeat split. Qed.

End PreTool.

(** ** Open sessions *)
Module Sessions.
Import Correlate.

Lemma inner_sessions (env : Env) (h : Hook) (st : State) :
  inner h = true -> sessions (db (step env h st)) = sessions (db st).
Proof.
  destruct h as [data|d|d|res|reason|]; try discriminate; intros _; cbn [step].
  - unfold pre_tool.
    destruct (or_null (currentSessionId (getContext (context_file st))));
      [|reflexivity].
    match goal with |- context [String.eqb ?n "Task"] =>
      destruct (String.eqb n "Task") end; [|reflexivity].
    spawn_cases ty desc Ex; reflexivity.
  - unfold post_tool.
    destruct (pendingToolUseId (getContext (context_file st))) as [id|];
      [|reflexivity].
    destruct (id =? 0); [reflexivity|]. finish_cases err; reflexivity.
  - unfold subagent_stop.
    destruct (or_null (currentSessionId (getContext (context_file st))));
      [|reflexivity].
    destruct (rev (agentStack (getContext (context_file st)))); reflexivity.
  - unfold stop.
    destruct (or_null (currentSessionId (getContext (context_file st))));
      reflexivity.
Qed.

Lemma inner_step_session (env : Env) (h : Hook) (st : State) :
  inner h = true ->
  currentSessionId (ctx (step env h st)) = currentSessionId (ctx st).
Proof.
  intros H. apply (inner_session [(env, h)] st). simpl. now rewrite H.
Qed.

(** A selection of the rows of a table keeps its key a key. *)
Lemma NoDup_map_filter (Row Key : Type) (id : Row -> Key)
    (keep : Row -> bool) (rows : list Row)
    (Hkey : NoDup (map id rows)) :
  NoDup (map id (filter keep rows)).
Proof.
  induction rows as [|x rows IH]; simpl; [constructor|].
  inversion Hkey as [|? ? Hx N']; subst.
  destruct (keep x); simpl; [constructor|]; auto.
  intros Hin. apply Hx. apply in_map_iff in Hin.
  destruct Hin as [y [E Hy]]. apply filter_In in Hy.
  apply in_map_iff. exists y. tauto.
Qed.

Lemma session_start_tracked (env : Env) (data : SessionData) (st : State) :
  tracked st -> currentSessionId (ctx st) = None ->
  tracked (session_start env data st).
Proof.
  intros [N O] Hc.
  assert (Hclosed : forall r, In r (sessions (db st)) -> is_open r = false).
  { intros r Hr. destruct (is_open r) eqn:E; [|reflexivity].
    specialize (O r Hr E). rewrite Hc in O. discriminate. }
  unfold tracked. rewrite session_start_ctx.
  cbn [session_start db createSession set_sessions sessions currentSessionId].
  change (sessions (cleanupStalePendingTools (now env) (db st)))
    with (sessions (db st)).
  set (sid := generateId (date_now env) (random36 env)).
  split.
  - rewrite map_app. cbn [map s_id]. apply NoDup_app.
    + now apply NoDup_map_filter.
    + repeat constructor. intros [].
    + intros x Hx [<-|[]]. apply in_map_iff in Hx.
      destruct Hx as [r [E Hr]]. apply filter_In in Hr. destruct Hr as [_ Hr].
      rewrite E, String.eqb_refl in Hr. discriminate.
  - intros r Hr Hopen. apply in_app_or in Hr. destruct Hr as [Hr|[<-|[]]].
    + apply filter_In in Hr. destruct Hr as [Hr _].
      rewrite (Hclosed r Hr) in Hopen. discriminate.
    + apply or_null_generateId.
Qed.

Lemma session_end_tracked (env : Env) (st : State) :
  tracked st -> tracked (session_end env st).
Proof.
  intros [N O]. unfold tracked. rewrite session_end_ctx.
  unfold session_end.
  destruct (or_null (currentSessionId (getContext (context_file st))))
    as [s|] eqn:Es; cbn [db].
  - unfold endSession, set_sessions. cbn [sessions recordEvent
      markPendingToolsInterrupted set_tool_uses].
    split.
    + rewrite map_map.
      erewrite map_ext; [exact N|]. intros r.
      now destruct (String.eqb (s_id r) s).
    + intros r Hr Hopen. apply in_map_iff in Hr. destruct Hr as [r0 [E Hr0]].
      destruct (String.eqb_spec (s_id r0) s) as [Eid|Hne].
      * subst r. discriminate.
      * subst r0. specialize (O r Hr0 Hopen). unfold ctx in O.
        rewrite Es in O. congruence.
  - split; [exact N|]. intros r Hr Hopen. specialize (O r Hr Hopen).
    unfold ctx in O. rewrite Es in O. discriminate.
Qed.

Lemma in_order_tracked (trace : list (Env * Hook)) (under_way : bool)
    (st : State) :
  in_order under_way trace = true ->
  tracked st ->
  (under_way = false -> currentSessionId (ctx st) = None) ->
  tracked (run trace st).
Proof.
  revert under_way st.
  induction trace as [|[env h] trace IH]; intros under_way st Hord T Hc;
    [exact T|].
  destruct (inner h) eqn:Hin.
  - assert (Hord' : in_order under_way trace = true)
      by (destruct h; first [discriminate|exact Hord]).
    cbn [run]. apply (IH under_way); [exact Hord'| |].
    + destruct T as [N O]. split.
      * now rewrite inner_sessions.
      * rewrite inner_sessions, inner_step_session by assumption. exact O.
    + intros E. rewrite inner_step_session by assumption. now apply Hc.
  - destruct h; try discriminate; cbn [in_order] in Hord; cbn [run step].
    + apply andb_true_iff in Hord. destruct Hord as [Hu Hord].
      apply negb_true_iff in Hu.
      apply (IH true); [exact Hord| |discriminate].
      now apply session_start_tracked; [|apply Hc].
    + apply (IH false); [exact Hord| |reflexivity].
      now apply session_end_tracked.
Qed.

Lemma at_most_one (A B : Type) (f : A -> B) (c : B) (l : list A) :
  NoDup (map f l) -> (forall x, In x l -> f x = c) -> (List.length l <= 1)%nat.
Proof.
  destruct l as [|x [|y l]]; simpl; intros N H; [lia|lia|].
  exfalso. inversion N as [|? ? Hx _]; subst. apply Hx. left.
  rewrite (H x), (H y); auto.
Qed.

(** C9, as amended.  When the hooks arrive in order, that is when each
    SessionStart fires at the beginning or after the SessionEnd of the
    session before, every reachable store has at most one open session
    row, and an open row is the row of the session named by the context.
    SessionStart itself closes nothing: the rows of the other sessions are
    kept as they are, open ones included. *)
Theorem at_most_one_open_session (trace : list (Env * Hook)) :
  in_order false trace = true ->
  (List.length (open_sessions (db (run trace init))) <= 1)%nat
  /\ (forall r, In r (open_sessions (db (run trace init))) ->
                currentSessionId (ctx (run trace init)) = Some (s_id r))
  /\ (forall env data st r,
        In r (sessions (db st)) ->
        s_id r <> generateId (date_now env) (random36 env) ->
        In r (sessions (db (session_start env data st)))).
Proof.
  intros Hord.
  assert (Hkeep : forall env data st r,
             In r (sessions (db st)) ->
             s_id r <> generateId (date_now env) (random36 env) ->
             In r (sessions (db (session_start env data st)))).
  { intros env data st r Hr Hne.
    cbn [session_start db createSession set_sessions sessions].
    apply in_or_app. left. apply filter_In. split; [exact Hr|].
    now destruct (String.eqb_spec (s_id r)
                    (generateId (date_now env) (random36 env))). }
  assert (T : tracked (run trace init)).
  { apply (in_order_tracked trace Hord); [|reflexivity].
    split; [constructor|intros r []]. }
  destruct T as [N O].
  assert (Hcur : forall r, In r (open_sessions (db (run trace init))) ->
                   currentSessionId (ctx (run trace init)) = Some (s_id r)).
  { intros r Hr. apply filter_In in Hr. destruct Hr as [Hr Ho].
    destruct (or_null_Some _ (O r Hr Ho)) as [E _]. exact E. }
  split; [|split; [exact Hcur|exact Hkeep]].
  destruct (currentSessionId (ctx (run trace init))) as [c|] eqn:Ec.
  - apply (@at_most_one _ _ s_id c).
    + now apply NoDup_map_filter.
    + intros r Hr. specialize (Hcur r Hr). congruence.
  - destruct (open_sessions (db (run trace init))) as [|r l]; simpl; [lia|].
    specialize (Hcur r (or_introl eq_refl)). discriminate.
Qed.

Lemma at_most_one_open_session_witness :
  (List.length
     (open_sessions
        (db (run [(env_a, SessionStart no_data);
                  (env_b, SessionEnd);
                  (env_c, SessionStart no_data)] init)))
   <= 1)%nat.
Proof.
  apply (proj1 (at_most_one_open_session
                  [(env_a, SessionStart no_data);
                   (env_b, SessionEnd);
                   (env_c, SessionStart no_data)]
                  eq_refl)).
Defined.

(** The claim as stated fails when a session never receives its
    SessionEnd: the next SessionStart inserts a second open row and closes
    nothing. *)
Lemma two_open_sessions_counterexample :
  map s_ended_at
      (sessions
         (db (run [(env_a, SessionStart no_data);
                   (env_c, SessionStart no_data)] init)))
  = [None; None]
  /\ List.length
       (open_sessions
          (db (run [(env_a, SessionStart no_data);
                    (env_c, SessionStart no_data)] init)))
     = 2%nat.
Proof. split; reflexivity. Qed.

End Sessions.

(** ** The timeline *)
Module Timeline.

Lemma where_session (f : TimelineFilters) (s : string) :
  lf_sessionId f = Some s -> s <> "" ->
  (forall r, toolWhere f r
             = String.eqb (t_session_id r) s
               && in_range (lf_startTime f) (lf_endTime f) (t_started_at r))
  /\ (forall e, eventWhere f e
                = String.eqb (e_session_id e) s
                  && in_range (lf_startTime f) (lf_endTime f) (e_timestamp e)).
Proof.
  intros Hf Hs. unfold toolWhere, eventWhere, opt_filter, in_range,
    time_ge, time_le.
  rewrite Hf, (or_null_nonempty Hs).
  split; intros r; now rewrite andb_assoc.
Qed.

Lemma merged_keys (f : TimelineFilters) (s : string) (d : Database) :
  lf_sessionId f = Some s -> s <> "" ->
  map key (merged f d) = matching_keys s (lf_startTime f) (lf_endTime f) d.
Proof.
  intros Hf Hs. destruct (where_session f Hf Hs) as [Ht He].
  unfold merged, matching_keys. rewrite map_app, !map_map. f_equal.
  - rewrite (filter_ext _ _ Ht). reflexivity.
  - rewrite (filter_ext _ _ He). reflexivity.
Qed.

Lemma NoDup_tagged (A : Type) (tag : string) (id : A -> Z) (l : list A) :
  NoDup (map id l) -> NoDup (map (fun r => (tag, id r)) l).
Proof.
  intros N. rewrite <- (map_map id (fun i => (tag, i))).
  apply Finite.Injective_map_NoDup; [|exact N].
  intros x y [= E]. exact E.
Qed.

Lemma matching_keys_NoDup (s : string) (lo hi : option string)
    (d : Database) :
  NoDup (map t_id (tool_uses d)) -> NoDup (map e_id (events d)) ->
  NoDup (matching_keys s lo hi d).
Proof.
  intros Nt Ne. unfold matching_keys. apply NoDup_app.
  - apply NoDup_tagged. now apply Sessions.NoDup_map_filter.
  - apply NoDup_tagged. now apply Sessions.NoDup_map_filter.
  - intros k H1 H2. apply in_map_iff in H1. apply in_map_iff in H2.
    destruct H1 as [r [<- _]]. destruct H2 as [e [E _]]. discriminate.
Qed.

Lemma NoDup_firstn (A : Type) (n : nat) (l : list A) :
  NoDup l -> NoDup (firstn n l).
Proof.
  intros N. rewrite <- (firstn_skipn n l) in N.
  now apply NoDup_app_remove_r in N.
Qed.

Lemma desc_app (A : Type) (k : A -> Z) (l1 l2 : list A) :
  desc k (l1 ++ l2) ->
  forall y x, In y l1 -> In x l2 -> k x <= k y.
Proof.
  unfold desc. induction l1 as [|a l1 IH]; intros S y x Hy Hx; [destruct Hy|].
  inversion S as [|? ? S' Hall]; subst. destruct Hy as [<-|Hy].
  - rewrite Forall_forall in Hall. apply Hall. apply in_or_app. now right.
  - now apply (IH S').
Qed.

Lemma getTimeline_sorted_merge (f : TimelineFilters) (d : Database) :
  getTimeline f d
  = sql_limit (limit_of f) 0 (order_by_desc tl_timestamp (merged f d)).
Proof. reflexivity. Qed.

Lemma sql_limit_length (A : Type) (limit : Z) (l : list A) :
  List.length (sql_limit limit 0 l)
  = if limit <? 0 then List.length l
    else Nat.min (Z.to_nat limit) (List.length l).
Proof.
  unfold sql_limit. simpl. destruct (limit <? 0); [reflexivity|].
  apply length_firstn.
Qed.

Lemma sql_limit_all (A : Type) (limit : Z) (l : list A) :
  limit < 0 \/ Z.of_nat (List.length l) <= limit ->
  sql_limit limit 0 l = l.
Proof.
  unfold sql_limit. simpl. intros H.
  destruct (Z.ltb_spec limit 0); [reflexivity|].
  apply firstn_all2. lia.
Qed.

(** C2, as amended.  For a session id that is not the empty string and a
    store whose rowids are keys, the timeline is made of tool uses and
    events of that session and time range only, the same test being applied
    to [started_at] on one side and to [timestamp] on the other: the text
    of the time, 'YYYY-MM-DD HH:MM:SS', is compared with the bounds as
    texts.  It has no duplicate key and is sorted by timestamp,
    non-increasing.  It is the merged feed ordered by timestamp descending
    and cut to the limit, 200 when none or 0 is given, no cut for a
    negative one: its length is the smaller of the limit and the number of
    matching rows, and a matching row that is left out is not newer than
    any row returned.  When the matching rows are no more than the limit,
    its keys are exactly the union of the matching tool-use and event
    keys. *)
Theorem getTimeline_union (f : TimelineFilters) (s : string) (d : Database) :
  lf_sessionId f = Some s -> s <> "" ->
  NoDup (map t_id (tool_uses d)) -> NoDup (map e_id (events d)) ->
  let rows := getTimeline f d in
  let keys := matching_keys s (lf_startTime f) (lf_endTime f) d in
  (forall k, In k (map key rows) -> In k keys)
  /\ NoDup (map key rows)
  /\ desc tl_timestamp rows
  /\ rows = sql_limit (limit_of f) 0 (order_by_desc tl_timestamp (merged f d))
  /\ map key (merged f d) = keys
  /\ List.length rows
     = (if limit_of f <? 0 then List.length keys
        else Nat.min (Z.to_nat (limit_of f)) (List.length keys))
  /\ (forall x y, In x (merged f d) -> ~ In x rows -> In y rows ->
                  tl_timestamp x <= tl_timestamp y)
  /\ (limit_of f < 0 \/ Z.of_nat (List.length keys) <= limit_of f ->
      Permutation (map key rows) keys
      /\ forall k, In k (map key rows) <-> In k keys).
Proof.
  intros Hf Hs Nt Ne rows keys.
  pose proof (merged_keys f d Hf Hs) as Hk. fold keys in Hk.
  pose proof (order_by_desc_perm tl_timestamp (merged f d)) as Hperm.
  set (sorted := order_by_desc tl_timestamp (merged f d)) in *.
  assert (Hrows : rows = sql_limit (limit_of f) 0 sorted) by reflexivity.
  assert (Hlen : List.length sorted = List.length keys).
  { rewrite <- (Permutation_length Hperm), <- Hk. symmetry. apply length_map. }
  assert (Nsorted : NoDup (map key sorted)).
  { apply (Permutation_NoDup (Permutation_map key Hperm)).
    rewrite Hk. now apply matching_keys_NoDup. }
  split; [|split; [|split; [|split; [|split; [|split; [|split]]]]]].
  - intros k Hin. apply in_map_iff in Hin. destruct Hin as [x [<- Hx]].
    rewrite <- Hk. apply in_map. rewrite Hrows in Hx.
    apply sql_limit_incl in Hx. now apply order_by_desc_In in Hx.
  - rewrite Hrows. unfold sql_limit. simpl.
    destruct (limit_of f <? 0); [exact Nsorted|].
    rewrite <- firstn_map. now apply NoDup_firstn.
  - rewrite Hrows. apply desc_sql_limit, order_by_desc_sorted.
  - exact Hrows.
  - exact Hk.
  - rewrite Hrows, sql_limit_length, Hlen. reflexivity.
  - intros x y Hx Hnx Hy. rewrite Hrows in Hnx, Hy.
    unfold sql_limit in Hnx, Hy. simpl in Hnx, Hy.
    assert (Hxs : In x sorted) by now apply order_by_desc_In.
    destruct (limit_of f <? 0); [contradiction|].
    pose proof (order_by_desc_sorted tl_timestamp (merged f d)) as S.
    fold sorted in S.
    rewrite <- (firstn_skipn (Z.to_nat (limit_of f)) sorted) in S, Hxs.
    apply in_app_or in Hxs. destruct Hxs as [Hxs|Hxs]; [contradiction|].
    eapply desc_app; eassumption.
  - intros Hall. rewrite <- Hlen in Hall.
    rewrite Hrows, (sql_limit_all sorted Hall).
    assert (P : Permutation (map key sorted) keys).
    { rewrite <- Hk. symmetry. now apply Permutation_map. }
    split; [exact P|].
    intros k. split; apply Permutation_in; [exact P|now symmetry].
Qed.

(** The timeline of session "S" from the thirteenth second on. *)
Lemma getTimeline_union_witness :
  map key (getTimeline (mkTimelineFilters (Some "S")
                          (Some "1970-01-01 00:00:13") None None)
                       two_sessions)
  = [("tool", 3); ("event", 1)]
  /\ Permutation
       (map key (getTimeline (mkTimelineFilters (Some "S")
                                (Some "1970-01-01 00:00:13") None None)
                             two_sessions))
       (matching_keys "S" (Some "1970-01-01 00:00:13") None two_sessions).
Proof.
  split; [vm_compute; reflexivity|].
  destruct (getTimeline_union
              (mkTimelineFilters (Some "S") (Some "1970-01-01 00:00:13")
                                 None None)
              (s := "S") two_sessions)
    as (_ & _ & _ & _ & _ & _ & _ & H).
  - reflexivity.
  - discriminate.
  - simpl. repeat constructor; simpl; intuition discriminate.
  - simpl. repeat constructor; simpl; intuition discriminate.
  - assert (G : limit_of (mkTimelineFilters (Some "S")
                            (Some "1970-01-01 00:00:13") None None) < 0
                \/ Z.of_nat (List.length
                               (matching_keys "S" (Some "1970-01-01 00:00:13")
                                              None two_sessions))
                   <= limit_of (mkTimelineFilters (Some "S")
                                  (Some "1970-01-01 00:00:13") None None))
      by (right; vm_compute; discriminate).
    exact (proj1 (H G)).
Defined.

Lemma In_key_eqb (k : string * Z) (l : list (string * Z)) :
  In k l -> existsb (key_eqb k) l = true.
Proof.
  intros H. apply existsb_exists. exists k. split; [exact H|].
  unfold key_eqb. now rewrite String.eqb_refl, Z.eqb_refl.
Qed.

(** The claim as stated fails on three counts.  With more than 200
    matching rows the timeline of a session is cut: the oldest tool use of
    [busy] is a matching key and is not returned.  For the empty session id
    the filter is dropped: no row matches in [two_sessions], yet the
    timeline returns the rows of the other sessions.  And the time range is
    a range of texts: with the lower bound written in the ISO form, the T
    after the date makes the bound larger than every time of its day, so
    that no row of [two_sessions] is returned from the start of that day
    on, though all are later. *)
Lemma getTimeline_counterexample :
  (In ("tool", 1) (matching_keys "S" None None busy)
   /\ ~ In ("tool", 1)
          (map key (getTimeline (mkTimelineFilters (Some "S") None None None)
                                busy)))
  /\ (matching_keys "" None None two_sessions = []
      /\ map key (getTimeline (mkTimelineFilters (Some "") None None None)
                              two_sessions)
         = [("tool", 2); ("tool", 3); ("event", 1); ("tool", 1)])
  /\ (getTimeline (mkTimelineFilters (Some "S")
                     (Some "1970-01-01T00:00:00.000Z") None None)
                  two_sessions = []
      /\ map key (getTimeline (mkTimelineFilters (Some "S")
                                 (Some "1970-01-01 00:00:00") None None)
                              two_sessions)
         = [("tool", 3); ("event", 1); ("tool", 1)]).
Proof.
  split; [split|split; [split|split]].
  - vm_compute. left. reflexivity.
  - intros H. apply In_key_eqb in H. vm_compute in H. discriminate.
  - vm_compute. reflexivity.
  - vm_compute. reflexivity.
  - vm_compute. reflexivity.
  - vm_compute. reflexivity.
Qed.

End Timeline.

(** ** The agent forest *)
Module Forest.
Import Correlate.

Lemma parent_steps_fuel (tbl : list Agent) (f f' : nat) (id : string) (k : nat) :
  parent_steps f tbl id = Some k -> (f <= f')%nat ->
  parent_steps f' tbl id = Some k.
Proof.
  revert f' id k. induction f as [|f IH]; intros f' id k H Hle;
    [discriminate|].
  destruct f' as [|f']; [lia|]. simpl in *.
  destruct (find_agent tbl id) as [r|]; [|discriminate].
  destruct (a_parent_agent_id r) as [p|]; [|exact H].
  destruct (parent_steps f tbl p) as [m|] eqn:E; [|discriminate].
  rewrite (IH f' p m E) by lia. exact H.
Qed.

Lemma parent_steps_le (tbl : list Agent) (f : nat) (id : string) (k : nat) :
  parent_steps f tbl id = Some k -> (1 <= k <= f)%nat.
Proof.
  revert id k. induction f as [|f IH]; intros id k H; [discriminate|].
  simpl in H. destruct (find_agent tbl id) as [r|]; [|discriminate].
  destruct (a_parent_agent_id r) as [p|].
  - destruct (parent_steps f tbl p) as [m|] eqn:E; [|discriminate].
    injection H as <-. apply IH in E. lia.
  - injection H as <-. lia.
Qed.

(** Appending a row does not change the walk from an agent that reaches
    null. *)
Lemma find_agent_app (tbl : list Agent) (new : Agent) (id : string) (r : Agent) :
  find_agent tbl id = Some r -> find_agent (tbl ++ [new]) id = Some r.
Proof.
  unfold find_agent. induction tbl as [|x tbl IH]; simpl; [discriminate|].
  destruct (String.eqb (a_id x) id); [auto|exact IH].
Qed.

Lemma parent_steps_app (tbl : list Agent) (new : Agent) (f : nat)
    (id : string) (k : nat) :
  parent_steps f tbl id = Some k ->
  parent_steps f (tbl ++ [new]) id = Some k.
Proof.
  revert id k. induction f as [|f IH]; intros id k H; [discriminate|].
  simpl in *. destruct (find_agent tbl id) as [r|] eqn:Ef; [|discriminate].
  rewrite (find_agent_app tbl new id Ef).
  destruct (a_parent_agent_id r) as [p|]; [|exact H].
  destruct (parent_steps f tbl p) as [m|] eqn:E; [|discriminate].
  now rewrite (IH p m E).
Qed.

Lemma close_if_keeps (now : time) (id : string) (r : Agent) :
  a_id (close_if now id r) = a_id r
  /\ a_session_id (close_if now id r) = a_session_id r
  /\ a_parent_agent_id (close_if now id r) = a_parent_agent_id r.
Proof. unfold close_if. destruct (String.eqb (a_id r) id); repeat split. Qed.

Lemma find_agent_close (now : time) (c : string) (tbl : list Agent)
    (id : string) :
  find_agent (map (close_if now c) tbl) id
  = option_map (close_if now c) (find_agent tbl id).
Proof.
  unfold find_agent. induction tbl as [|x tbl IH]; simpl; [reflexivity|].
  destruct (close_if_keeps now c x) as [-> _].
  destruct (String.eqb (a_id x) id); [reflexivity|exact IH].
Qed.

Lemma parent_steps_close (now : time) (c : string) (tbl : list Agent)
    (f : nat) (id : string) :
  parent_steps f (map (close_if now c) tbl) id = parent_steps f tbl id.
Proof.
  revert id. induction f as [|f IH]; intros id; [reflexivity|].
  simpl. rewrite find_agent_close.
  destruct (find_agent tbl id) as [r|]; [|reflexivity]. simpl.
  destruct (close_if_keeps now c r) as (_ & _ & ->).
  destruct (a_parent_agent_id r) as [p|]; [|reflexivity].
  now rewrite IH.
Qed.

Lemma find_agent_fresh (tbl : list Agent) (new : Agent) :
  ~ In (a_id new) (map a_id tbl) ->
  find_agent (tbl ++ [new]) (a_id new) = Some new.
Proof.
  unfold find_agent. induction tbl as [|x tbl IH]; simpl; intros H.
  - now rewrite String.eqb_refl.
  - destruct (String.eqb_spec (a_id x) (a_id new)) as [E|_].
    + exfalso. apply H. now left.
    + apply IH. intros Hin. apply H. now right.
Qed.

Lemma find_agent_row (tbl : list Agent) (r : Agent) :
  NoDup (map a_id tbl) -> In r tbl -> find_agent tbl (a_id r) = Some r.
Proof.
  unfold find_agent. induction tbl as [|x tbl IH]; simpl; intros N Hin;
    [destruct Hin|].
  inversion N as [|? ? Hx N']; subst. destruct Hin as [->|Hin].
  - now rewrite String.eqb_refl.
  - destruct (String.eqb_spec (a_id x) (a_id r)) as [E|_]; [|now apply IH].
    exfalso. apply Hx. rewrite E. now apply in_map.
Qed.

Lemma pre_tool_effect (env : Env) (d : option PreToolData) (st : State) :
  effect env st (pre_tool env d st).
Proof.
  unfold pre_tool. fold (ctx st).
  destruct (or_null (currentSessionId (ctx st))) as [sid|] eqn:Es;
    [|now apply Keep].
  match goal with |- context [String.eqb ?n "Task"] =>
    destruct (String.eqb n "Task") end; [|now apply Keep].
  spawn_cases ty desc Ex; [now apply Keep| |now apply Keep].
  match goal with |- context [mkAgent ?a ?b ?c ?d ?e ?f ?g ?h] =>
    apply (@Push env st _ sid (mkAgent a b c d e f g h)) end;
    cbn [a_id a_session_id a_parent_agent_id]; try reflexivity.
  - exact Es.
  - intros Hin. apply in_map_iff in Hin. destruct Hin as [r [E Hr]].
    apply Bool.not_true_iff_false in Ex. apply Ex. apply existsb_exists.
    exists r. split; [exact Hr|]. now apply String.eqb_eq.
  - apply or_null_idem.
Qed.

Lemma step_effect (env : Env) (h : Hook) (st : State) :
  effect env st (step env h st).
Proof.
  destruct h as [data|d|d|res|reason|]; cbn [step].
  - now apply Reset.
  - apply pre_tool_effect.
  - apply Keep; [apply AgentFrame.post_tool_agents| | |apply post_tool_session];
      unfold post_tool, ctx;
      (destruct (pendingToolUseId (getContext (context_file st))) as [id|];
       [destruct (id =? 0); [|finish_cases err]|]); reflexivity.
  - unfold subagent_stop. fold (ctx st).
    destruct (or_null (currentSessionId (ctx st))) as [sid|];
      [|now apply Keep].
    destruct (rev (agentStack (ctx st))) as [|c below] eqn:Er;
      [now apply Keep|].
    now apply (@Pop env st _ c below).
  - apply Keep; [apply AgentFrame.stop_agents| | |apply stop_session];
      unfold stop, ctx;
      destruct (or_null (currentSessionId (getContext (context_file st))));
      reflexivity.
  - apply Reset; [apply AgentFrame.session_end_agents| |]; reflexivity.
Qed.

Lemma forest_init : forest init.
Proof.
  split; simpl.
  - constructor.
  - intros [|i] r p H; discriminate.
  - reflexivity.
  - intros a [].
  - intros [|i] a H; discriminate.
Qed.

Lemma stack_of_rev (stack : list string) (c : string) (below : list string) :
  rev stack = c :: below -> stack = (rev below ++ [c])%list.
Proof. intros H. rewrite <- (rev_involutive stack), H. reflexivity. Qed.

Lemma forest_keep (st st' : State) :
  forest st ->
  agents (db st') = agents (db st) ->
  agentStack (ctx st') = agentStack (ctx st) ->
  currentAgentId (ctx st') = currentAgentId (ctx st) ->
  currentSessionId (ctx st') = currentSessionId (ctx st) ->
  forest st'.
Proof.
  intros [F1 F2 F3 F4 F5] Ea Es Ec Ess.
  split; rewrite ?Ea, ?Es, ?Ec, ?Ess; assumption.
Qed.

Lemma forest_reset (st st' : State) :
  forest st ->
  agents (db st') = agents (db st) ->
  agentStack (ctx st') = [] ->
  currentAgentId (ctx st') = None ->
  forest st'.
Proof.
  intros [F1 F2 F3 F4 F5] Ea Es Ec.
  split; rewrite ?Ea, ?Es, ?Ec; try assumption.
  - reflexivity.
  - intros a [].
  - intros [|i] a H; discriminate.
Qed.

Lemma forest_pop (now : time) (st st' : State) (c : string)
    (below : list string) :
  forest st ->
  rev (agentStack (ctx st)) = c :: below ->
  agents (db st') = map (close_if now c) (agents (db st)) ->
  agentStack (ctx st') = rev below ->
  currentAgentId (ctx st') = hd_error below ->
  currentSessionId (ctx st') = currentSessionId (ctx st) ->
  forest st'.
Proof.
  intros [F1 F2 F3 F4 F5] Er Ea Es Ec Ess.
  apply stack_of_rev in Er.
  split; rewrite ?Ea, ?Es, ?Ec, ?Ess.
  - rewrite map_map. erewrite map_ext; [exact F1|].
    intros r. apply close_if_keeps.
  - intros i r p Hi Hp. rewrite nth_error_map in Hi.
    destruct (nth_error (agents (db st)) i) as [r0|] eqn:E0; [|discriminate].
    injection Hi as <-.
    destruct (close_if_keeps now c r0) as (_ & Hs & Hpar).
    rewrite Hpar in Hp. destruct (F2 i r0 p E0 Hp) as (j & q & Hj & Hq & Hid & Hsid).
    exists j, (close_if now c q). split; [exact Hj|].
    rewrite nth_error_map, Hq.
    destruct (close_if_keeps now c q) as (-> & -> & _).
    rewrite Hs. repeat split; assumption.
  - unfold top. now rewrite rev_involutive.
  - intros a Ha.
    destruct (F4 a) as (Hne & sid & q & Hsid & Hq & Hid & Hs).
    { rewrite Er. apply in_or_app. now left. }
    split; [exact Hne|]. exists sid, (close_if now c q).
    destruct (close_if_keeps now c q) as (-> & -> & _).
    repeat split; try assumption. now apply in_map.
  - intros i a Hi fuel Hf. rewrite parent_steps_close.
    apply F5; [|exact Hf]. rewrite Er.
    rewrite nth_error_app1; [exact Hi|].
    apply nth_error_Some. congruence.
Qed.

Lemma forest_push (st st' : State) (sid : string) (new : Agent) :
  forest st ->
  or_null (currentSessionId (ctx st)) = Some sid ->
  ~ In (a_id new) (map a_id (agents (db st))) ->
  a_id new <> "" ->
  a_session_id new = sid ->
  a_parent_agent_id new = or_null (currentAgentId (ctx st)) ->
  agents (db st') = (agents (db st) ++ [new])%list ->
  agentStack (ctx st') = (agentStack (ctx st) ++ [a_id new])%list ->
  currentAgentId (ctx st') = Some (a_id new) ->
  currentSessionId (ctx st') = currentSessionId (ctx st) ->
  forest st'.
Proof.
  intros [F1 F2 F3 F4 F5] Hsid Hfresh Hne Hs Hpar Ea Es Ec Ess.
  (* the parent of the new row is the top of the stack *)
  assert (Hparent : a_parent_agent_id new = top (agentStack (ctx st))).
  { rewrite Hpar, F3. unfold top.
    destruct (rev (agentStack (ctx st))) as [|p below] eqn:Er; [reflexivity|].
    simpl. apply or_null_nonempty. apply F4.
    rewrite (stack_of_rev _ Er). apply in_or_app. right. now left. }
  split; rewrite ?Ea, ?Es, ?Ec, ?Ess.
  - rewrite map_app. apply NoDup_app; [exact F1|repeat constructor; intros []|].
    intros x Hx [<-|[]]. contradiction.
  - intros i r p Hi Hp.
    destruct (Nat.lt_ge_cases i (List.length (agents (db st)))) as [Hlt|Hge].
    + rewrite nth_error_app1 in Hi by exact Hlt.
      destruct (F2 i r p Hi Hp) as (j & q & Hj & Hq & Hid & Hqs).
      exists j, q. repeat split; try assumption.
      rewrite nth_error_app1 by lia. exact Hq.
    + rewrite nth_error_app2 in Hi by exact Hge.
      destruct (i - List.length (agents (db st)))%nat as [|n] eqn:En;
        [|destruct n; discriminate].
      injection Hi as <-. rewrite Hparent in Hp. unfold top in Hp.
      destruct (rev (agentStack (ctx st))) as [|p' below] eqn:Er;
        [discriminate|].
      injection Hp as ->.
      destruct (F4 p) as (_ & sid' & q & Hsid' & Hq & Hid & Hqs).
      { rewrite (stack_of_rev _ Er). apply in_or_app. right. now left. }
      destruct (In_nth_error _ _ Hq) as [j Hj].
      exists j, q. split.
      * assert (j < List.length (agents (db st)))%nat
          by (apply nth_error_Some; congruence).
        lia.
      * rewrite nth_error_app1 by (apply nth_error_Some; congruence).
        repeat split; try assumption. congruence.
  - unfold top. rewrite rev_app_distr. reflexivity.
  - intros a Ha. apply in_app_or in Ha. destruct Ha as [Ha|[<-|[]]].
    + destruct (F4 a Ha) as (Hna & sid' & q & Hsid' & Hq & Hid & Hqs).
      split; [exact Hna|]. exists sid', q. repeat split; try assumption.
      apply in_or_app. now left.
    + split; [exact Hne|]. exists sid, new. repeat split; try assumption.
      apply in_or_app. right. now left.
  - intros i a Hi fuel Hf.
    destruct (Nat.lt_ge_cases i (List.length (agentStack (ctx st)))) as [Hlt|Hge].
    + rewrite nth_error_app1 in Hi by exact Hlt.
      apply parent_steps_app. now apply F5.
    + rewrite nth_error_app2 in Hi by exact Hge.
      destruct (i - List.length (agentStack (ctx st)))%nat as [|n] eqn:En;
        [|destruct n; discriminate].
      injection Hi as <-.
      assert (Ei : i = List.length (agentStack (ctx st))) by lia.
      destruct fuel as [|fuel]; [lia|]. simpl.
      rewrite (find_agent_fresh _ _ Hfresh), Hparent. unfold top.
      destruct (rev (agentStack (ctx st))) as [|p below] eqn:Er; simpl.
      * assert (E0 : agentStack (ctx st) = [])
          by (rewrite <- (rev_involutive (agentStack (ctx st))), Er;
              reflexivity).
        rewrite E0 in Ei. simpl in Ei. now subst i.
      * apply stack_of_rev in Er.
        assert (El : List.length (agentStack (ctx st))
                     = (List.length (rev below) + 1)%nat).
        { rewrite Er, length_app. reflexivity. }
        rewrite (parent_steps_app _ new fuel p
                   (k := (List.length (rev below) + 1)%nat)).
        -- simpl. f_equal. lia.
        -- apply F5; [|lia]. rewrite Er.
           rewrite nth_error_app2 by lia. now rewrite Nat.sub_diag.
Qed.

Lemma forest_step (env : Env) (h : Hook) (st : State) :
  forest st -> forest (step env h st).
Proof.
  intros F. destruct (step_effect env h st)
    as [Ea Es Ec Ess|Ea Es Ec|sid new Hsid Hfresh Hid Hs Hpar Ea Es Ec Ess
        |c below Er Ea Es Ec Ess].
  - eapply forest_keep; eassumption.
  - eapply forest_reset; eassumption.
  - eapply forest_push; try eassumption.
    rewrite Hid. intros E.
    pose proof (generateId_truthy (date_now env) (random36 env)) as T.
    rewrite E in T. discriminate.
  - eapply forest_pop; eassumption.
Qed.

Lemma forest_run (trace : list (Env * Hook)) (st : State) :
  forest st -> forest (run trace st).
Proof.
  revert st. induction trace as [|[env h] trace IH]; intros st F; [exact F|].
  simpl. apply IH. now apply forest_step.
Qed.

(** A walk that reaches null is not changed by later hooks. *)
Lemma parent_steps_step (env : Env) (h : Hook) (st : State) (fuel : nat)
    (id : string) (k : nat) :
  parent_steps fuel (agents (db st)) id = Some k ->
  parent_steps fuel (agents (db (step env h st))) id = Some k.
Proof.
  intros H. destruct (step_effect env h st)
    as [Ea _ _ _|Ea _ _|sid new _ _ _ _ _ Ea _ _ _|c below _ Ea _ _ _];
    rewrite Ea.
  - exact H.
  - exact H.
  - now apply parent_steps_app.
  - now rewrite parent_steps_close.
Qed.

Lemma parent_steps_run (trace : list (Env * Hook)) (st : State) (fuel : nat)
    (id : string) (k : nat) :
  parent_steps fuel (agents (db st)) id = Some k ->
  parent_steps fuel (agents (db (run trace st))) id = Some k.
Proof.
  revert st. induction trace as [|[env h] trace IH]; intros st H; [exact H|].
  simpl. apply IH. now apply parent_steps_step.
Qed.

(** In a table whose parents are earlier rows, the walk from row [i]
    reaches null in at most [i + 1] steps. *)
Lemma chain_bounded (tbl : list Agent) :
  NoDup (map a_id tbl) -> parents_earlier tbl ->
  forall i r, nth_error tbl i = Some r ->
    exists k, (1 <= k <= i + 1)%nat
              /\ parent_steps (i + 1) tbl (a_id r) = Some k.
Proof.
  intros N P i. induction i as [i IH] using lt_wf_ind. intros r Hi.
  replace (i + 1)%nat with (S i) by lia. simpl.
  rewrite (find_agent_row tbl r N (nth_error_In _ _ Hi)).
  destruct (a_parent_agent_id r) as [p|] eqn:Ep.
  - destruct (P i r p Hi Ep) as (j & q & Hj & Hq & Hid & _).
    destruct (IH j Hj q Hq) as (k & Hk & Hsteps).
    rewrite Hid in Hsteps.
    rewrite (parent_steps_fuel _ _ Hsteps (f' := i)) by lia.
    exists (S k). split; [lia|reflexivity].
  - exists 1%nat. split; [lia|reflexivity].
Qed.

Lemma chain_total (tbl : list Agent) (r : Agent) :
  NoDup (map a_id tbl) -> parents_earlier tbl -> In r tbl ->
  exists k, (1 <= k <= List.length tbl)%nat
            /\ parent_steps (List.length tbl) tbl (a_id r) = Some k.
Proof.
  intros N P Hin. destruct (In_nth_error _ _ Hin) as [i Hi].
  destruct (chain_bounded N P i Hi) as (k & Hk & Hs).
  assert (i < List.length tbl)%nat by (apply nth_error_Some; congruence).
  exists k. split; [lia|].
  eapply parent_steps_fuel; [exact Hs|lia].
Qed.

(** C5. In every state reached from the initial one by hook invocations,
    in any order: agent ids are a key; a [parent_agent_id] that is set
    names a row inserted earlier, of the same session; from every agent,
    following [parent_agent_id] reaches null, within as many steps as
    there are rows.  For an agent created by a hook, the number of steps
    (the agent itself, then its ancestors) is the depth of the agent stack
    once the agent is pushed, one more than the depth before, and stays so
    whatever hooks follow. *)
Theorem agent_forest_acyclic (trace : list (Env * Hook)) :
  let st := run trace init in
  NoDup (map a_id (agents (db st)))
  /\ (forall i r p,
        nth_error (agents (db st)) i = Some r ->
        a_parent_agent_id r = Some p ->
        exists j q,
          (j < i)%nat /\ nth_error (agents (db st)) j = Some q
          /\ a_id q = p /\ a_session_id q = a_session_id r)
  /\ (forall r, In r (agents (db st)) ->
        exists k, (1 <= k <= List.length (agents (db st)))%nat
                  /\ parent_steps (List.length (agents (db st)))
                                  (agents (db st)) (a_id r) = Some k)
  /\ (forall env h later r,
        let created := step env h st in
        let final := run later created in
        In r (agents (db created)) ->
        ~ In (a_id r) (map a_id (agents (db st))) ->
        exists k,
          k = List.length (agentStack (ctx created))
          /\ k = S (List.length (agentStack (ctx st)))
          /\ parent_steps (List.length (agents (db final)))
                          (agents (db final)) (a_id r) = Some k).
Proof.
  cbv zeta. pose proof (forest_run trace forest_init) as F.
  set (st := run trace init) in *.
  split; [apply F|]. split; [apply F|].
  split; [intros r; apply chain_total; apply F|].
  intros env h later r Hin Hfresh.
  pose proof (forest_step env h F) as F2.
  destruct (step_effect env h st)
    as [Ea _ _ _|Ea _ _|sid new _ _ _ _ _ Ea Es _ _|c below _ Ea _ _ _].
  - rewrite Ea in Hin. exfalso. apply Hfresh. now apply in_map.
  - rewrite Ea in Hin. exfalso. apply Hfresh. now apply in_map.
  - rewrite Ea in Hin. apply in_app_or in Hin.
    destruct Hin as [Hin|[<-|[]]];
      [exfalso; apply Hfresh; now apply in_map|].
    exists (S (List.length (agentStack (ctx st)))).
    split; [rewrite Es, length_app; simpl; lia|]. split; [reflexivity|].
    set (k := S (List.length (agentStack (ctx st)))).
    assert (Hk : parent_steps k (agents (db (run later (step env h st))))
                              (a_id new) = Some k).
    { apply parent_steps_run.
      replace k with (List.length (agentStack (ctx st)) + 1)%nat
        by (unfold k; lia).
      apply (f_depth F2); [|lia]. rewrite Es.
      rewrite nth_error_app2 by lia. now rewrite Nat.sub_diag. }
    pose proof (forest_run later F2) as Ff.
    assert (Hid : exists r', In r' (agents (db (run later (step env h st))))
                             /\ a_id r' = a_id new).
    { destruct (parent_steps k (agents (db (run later (step env h st))))
                  (a_id new)) eqn:E; [|discriminate].
      destruct k as [|k']; [discriminate|]. simpl in E.
      destruct (find_agent (agents (db (run later (step env h st))))
                  (a_id new)) as [r'|] eqn:Ef; [|discriminate].
      unfold find_agent in Ef. apply find_some in Ef. destruct Ef as [Hr' Ee].
      apply String.eqb_eq in Ee. now exists r'. }
    destruct Hid as (r' & Hr' & Hid).
    destruct (@chain_total _ r' (f_ids Ff) (f_parents Ff) Hr')
      as (k' & Hk' & Hs').
    rewrite Hid in Hs'. rewrite Hs'. f_equal.
    set (n := List.length (agents (db (run later (step env h st))))) in *.
    assert (H1 := @parent_steps_fuel _ _ (Nat.max k n) _ _ Hk (Nat.le_max_l k n)).
    assert (H2 := @parent_steps_fuel _ _ (Nat.max k n) _ _ Hs' (Nat.le_max_r k n)).
    congruence.
  - rewrite Ea in Hin. exfalso. apply Hfresh.
    apply in_map_iff in Hin. destruct Hin as [r0 [<- Hr0]].
    destruct (close_if_keeps (now env) c r0) as (-> & _). now apply in_map.
Qed.

End Forest.

(** ** The guard of the raw query *)
Module Guard.
Import Mcp.

Lemma space_not_folded (c : ascii) : is_space c = true -> lower_char c = c.
Proof.
  destruct c as [[] [] [] [] [] [] [] []]; intros H;
    first [discriminate H|reflexivity].
Qed.

Lemma folded_not_space (c x : ascii) :
  lower_char c = x -> is_space x = false -> is_space c = false.
Proof.
  intros E Hx. destruct (is_space c) eqn:Hc; [|reflexivity].
  rewrite (space_not_folded c Hc) in E. congruence.
Qed.

Lemma trim_start_split (q : string) :
  exists ws, q = ws ++ trim_start q /\ all_space ws = true.
Proof.
  induction q as [|c q [ws [E A]]]; simpl.
  - now exists "".
  - destruct (is_space c) eqn:Hc.
    + exists (String c ws). simpl. rewrite Hc, A. split; [now f_equal|reflexivity].
    + now exists "".
Qed.

Lemma trim_end_split (s : string) :
  exists trailing, s = trim_end s ++ trailing.
Proof.
  induction s as [|c s [t E]]; simpl.
  - now exists "".
  - destruct (trim_end s) as [|k kept] eqn:Ek.
    + destruct (is_space c).
      * exists (String c s). reflexivity.
      * exists t. simpl. now f_equal.
    + exists t. simpl. now f_equal.
Qed.

Lemma trim_end_keeps (c : ascii) (s : string) :
  is_space c = false -> trim_end (String c s) = String c (trim_end s).
Proof.
  intros Hc. simpl. destruct (trim_end s); [now rewrite Hc|reflexivity].
Qed.

Lemma trim_start_spaces (ws : string) (c : ascii) (s : string) :
  all_space ws = true -> is_space c = false ->
  trim_start (ws ++ String c s) = String c s.
Proof.
  intros A Hc. induction ws as [|w ws IH]; simpl.
  - now rewrite Hc.
  - simpl in A. apply andb_true_iff in A. destruct A as [Hw A].
    rewrite Hw. now apply IH.
Qed.

Lemma append_assoc (a b c : string) : (a ++ b) ++ c = a ++ b ++ c.
Proof. induction a as [|x a IH]; simpl; [reflexivity|now f_equal]. Qed.

Lemma toLowerCase_app (a b : string) :
  toLowerCase (a ++ b) = toLowerCase a ++ toLowerCase b.
Proof. induction a as [|c a IH]; simpl; [reflexivity|now f_equal]. Qed.

Lemma prefix_app (p s : string) : String.prefix p (p ++ s) = true.
Proof.
  induction p as [|c p IH]; simpl; [now destruct s|].
  destruct (ascii_dec c c); [exact IH|congruence].
Qed.

Lemma prefix_split (p s : string) :
  String.prefix p s = true -> exists rest, s = p ++ rest.
Proof.
  revert s. induction p as [|c p IH]; intros s H.
  - now exists s.
  - destruct s as [|d s]; [discriminate|]. simpl in H.
    destruct (ascii_dec c d) as [<-|]; [|discriminate].
    destruct (IH s H) as [rest ->]. now exists rest.
Qed.

Lemma toLowerCase_split (s a b : string) :
  toLowerCase s = a ++ b ->
  exists w rest, s = w ++ rest /\ toLowerCase w = a /\ toLowerCase rest = b.
Proof.
  revert s. induction a as [|c a IH]; intros s H; simpl in H.
  - exists "", s. now repeat split.
  - destruct s as [|d s]; [discriminate|]. simpl in H.
    injection H as Hc H. destruct (IH s H) as (w & rest & -> & Hw & Hr).
    exists (String d w), rest. simpl. rewrite Hc, Hw. now repeat split.
Qed.

(** The guard is the predicate. *)
Lemma guard_spec (q : string) :
  startsWith (toLowerCase (trim q)) "select" = true <-> begins_with_select q.
Proof.
  unfold startsWith, trim, begins_with_select. split.
  - intros H. destruct (trim_start_split q) as (ws & Eq & A).
    destruct (trim_end_split (trim_start q)) as [trailing Et].
    apply prefix_split in H. destruct H as [rest' H].
    apply toLowerCase_split in H. destruct H as (w & rest & Ew & Hw & _).
    exists ws, w, (rest ++ trailing). split; [|now split].
    rewrite Eq at 1. rewrite Et at 1. rewrite Ew.
    f_equal. apply append_assoc.
  - intros (ws & w & rest & -> & A & Hw).
    destruct w as [|c1 [|c2 [|c3 [|c4 [|c5 [|c6 [|c7 w]]]]]]]; try discriminate.
    simpl in Hw. injection Hw as H1 H2 H3 H4 H5 H6.
    assert (S1 := folded_not_space c1 H1 eq_refl).
    assert (S2 := folded_not_space c2 H2 eq_refl).
    assert (S3 := folded_not_space c3 H3 eq_refl).
    assert (S4 := folded_not_space c4 H4 eq_refl).
    assert (S5 := folded_not_space c5 H5 eq_refl).
    assert (S6 := folded_not_space c6 H6 eq_refl).
    cbn [append]. rewrite trim_start_spaces by assumption.
    rewrite !trim_end_keeps by assumption.
    cbn [toLowerCase]. rewrite H1, H2, H3, H4, H5, H6.
    apply (prefix_app "select").
Qed.

Section Engine.

Variable Rows : Type.
Variable sqlite_all : string -> Database -> Database * Outcome Rows.

(** C8. A query whose trimmed, case-folded text does not begin with
    "select" is rejected: the handler throws, the response on the wire is
    the internal error -32603 carrying the message, and the store is the
    one before.  A query that does begin with "select" is handed to the
    storage engine as it was given, and what the engine returns is what
    the caller gets: its rows as the result (or its error as an internal
    error).  "DROP TABLE sessions" is rejected and "SELECT * FROM sessions
    LIMIT 1" is accepted. *)
Theorem query_db_guard :
  (forall q store,
     ~ begins_with_select q ->
     query_db sqlite_all q store
     = (store, Throws "Only SELECT queries are allowed")
     /\ handleRequest_query_db sqlite_all q store
        = (store, RpcError (-32603) "Only SELECT queries are allowed"))
  /\ (forall q store,
        begins_with_select q ->
        query_db sqlite_all q store = sqlite_all q store
        /\ forall store' rows,
             sqlite_all q store = (store', Returns rows) ->
             handleRequest_query_db sqlite_all q store
             = (store', RpcResult rows))
  /\ (forall q, begins_with_select q
                <-> startsWith (toLowerCase (trim q)) "select" = true)
  /\ ~ begins_with_select "DROP TABLE sessions"
  /\ begins_with_select "SELECT * FROM sessions LIMIT 1".
Proof.
  assert (Hno : forall q store,
             startsWith (toLowerCase (trim q)) "select" = false ->
             query_db sqlite_all q store
             = (store, Throws "Only SELECT queries are allowed")).
  { intros q store H. unfold query_db. now rewrite H. }
  assert (Hyes : forall q store,
             startsWith (toLowerCase (trim q)) "select" = true ->
             query_db sqlite_all q store = sqlite_all q store).
  { intros q store H. unfold query_db. now rewrite H. }
  split; [|split; [|split; [|split]]].
  - intros q store H.
    assert (E : startsWith (toLowerCase (trim q)) "select" = false).
    { destruct (startsWith (toLowerCase (trim q)) "select") eqn:E;
        [|reflexivity].
      apply guard_spec in E. contradiction. }
    unfold handleRequest_query_db. rewrite (Hno q store E). now split.
  - intros q store H. apply guard_spec in H. split; [now apply Hyes|].
    intros store' rows E. unfold handleRequest_query_db.
    now rewrite (Hyes q store H), E.
  - intros q. symmetry. apply guard_spec.
  - intros H. apply guard_spec in H. discriminate.
  - apply guard_spec. reflexivity.
Qed.

End Engine.

Lemma query_db_guard_witness :
  handleRequest_query_db toy_engine "DROP TABLE sessions" store_A
  = (store_A, RpcError (-32603) "Only SELECT queries are allowed")
  /\ handleRequest_query_db toy_engine "  select * FROM sessions LIMIT 1"
                            store_A
     = (store_A, RpcError (-32603) "near: syntax error")
  /\ handleRequest_query_db toy_engine "SELECT * FROM sessions LIMIT 1"
                            store_A
     = (store_A, RpcResult ["A"]).
Proof.
  destruct (query_db_guard toy_engine) as (Hno & Hyes & _ & Hdrop & Hsel).
  split; [|split].
  - apply (Hno "DROP TABLE sessions" store_A Hdrop).
  - reflexivity.
  - apply (Hyes "SELECT * FROM sessions LIMIT 1" store_A Hsel).
    reflexivity.
Defined.

End Guard.

(** ** Worked examples *)
Module Scenarios.
Import Correlate.

(** A read whose post-invocation never comes is interrupted by the
    SessionEnd. *)
Lemma no_pending_after_session_end_witness :
  exists r',
    In r' (tool_uses
             (db (run ((env_a, SessionStart no_data)
                       :: unanswered ++ [(env_d, SessionEnd)])
                      init)))
    /\ t_id r' = 1
    /\ t_session_id r' = "1700000000000-k3x9q2a"
    /\ t_status r' = "interrupted"
    /\ t_ended_at r' = Some 105.
Proof.
  refine (proj1 (proj2 (@no_pending_after_session_end init env_a no_data
                          unanswered env_d _))
            (mkToolUse 1 "1700000000000-k3x9q2a" None "Read" None None 101
                       None None "pending" None) _ _ _).
  - reflexivity.
  - left. reflexivity.
  - reflexivity.
  - reflexivity.
Defined.

(** A second agent spawned under the first reaches null in two steps, also
    after it has stopped. *)
Lemma agent_forest_acyclic_witness :
  parent_steps 2
    (agents (db (run [(env_d, SubagentStop None)]
                     (step env_c
                           (PreToolInvocation (task None))
                           (run nested init)))))
    "1700000003000-q7w8e9r"
  = Some 2%nat.
Proof.
  destruct (Forest.agent_forest_acyclic nested) as (_ & _ & _ & H).
  destruct (H env_c (PreToolInvocation (task None))
              [(env_d, SubagentStop None)]
              (mkAgent "1700000003000-q7w8e9r" "1700000000000-k3x9q2a"
                       (Some "1700000001000-m1n2b3v") (Some "unknown") None
                       103 None "running"))
    as (k & _ & Ek & Hk).
  - right. left. reflexivity.
  - simpl. intros [E|[]]. discriminate E.
  - rewrite Ek in Hk. exact Hk.
Defined.

(** An agent is spawned and the session ends: the agent is still running.
    Had the agent stopped instead, its row would be completed. *)
Lemma agents_closed_only_by_subagent_stop_witness :
  map a_status (agents (db (session_end env_d spawned))) = ["running"]
  /\ (In (mkAgent "1700000001000-m1n2b3v" "1700000000000-k3x9q2a" None
                  (Some "unknown") None 101 (Some 105) "completed")
         (agents (db spawned))
      \/ (~ In "1700000001000-m1n2b3v" (map a_id (agents (db spawned)))
          /\ Some 105 = None /\ "completed" = "running")
      \/ exists res r,
           SubagentStop None = SubagentStop res
           /\ In r (agents (db spawned))
           /\ mkAgent "1700000001000-m1n2b3v" "1700000000000-k3x9q2a" None
                      (Some "unknown") None 101 (Some 105) "completed"
              = close_agent 105 "completed" r
           /\ "completed" = "completed"
           /\ Some 105 = Some 105).
Proof.
  destruct AgentFrame.agents_closed_only_by_subagent_stop as (He & _ & _ & H).
  split.
  - rewrite He. reflexivity.
  - apply (H env_d (SubagentStop None) spawned
             (mkAgent "1700000001000-m1n2b3v" "1700000000000-k3x9q2a" None
                      (Some "unknown") None 101 (Some 105) "completed")).
    left. reflexivity.
Defined.

(** The tool use of the session that ended a minute ago is closed by
    the first statement of the sweep, the one that is two hours old by the
    second. *)
Lemma cleanupStalePendingTools_idempotent_witness :
  cleanupStalePendingTools 7300 (cleanupStalePendingTools 7300 stale)
  = cleanupStalePendingTools 7300 stale
  /\ map (fun r => (t_status r, t_ended_at r, t_error r))
         (tool_uses (cleanupStalePendingTools 7300 stale))
     = [("interrupted", Some 7300, Some "Session ended abnormally");
        ("interrupted", Some 7300,
         Some "Stale pending tool (session likely ended abnormally)");
        ("pending", None, None)].
Proof.
  split; [|reflexivity].
  exact (proj1 (Sweep.cleanupStalePendingTools_idempotent 7300 stale)).
Defined.

End Scenarios.

(** * Further properties *)

(** ** The life of a tool use under the hooks *)
Module Lifecycle.
Import Correlate.

Lemma sweep_row_cases (t : time) (ended : list string) (r : ToolUse) :
  sweep_row t ended r = r
  \/ (t_status r = "pending"
      /\ exists msg, sweep_row t ended r = interrupt_tool t msg r).
Proof.
  unfold sweep_row.
  destruct (is_pending r) eqn:P; simpl.
  - assert (Hp : t_status r = "pending") by now apply String.eqb_eq.
    destruct (sql_in (t_session_id r) ended); simpl.
    + right. split; [exact Hp|]. now eexists.
    + rewrite P. simpl. destruct (t_started_at r <? t - 3600).
      * right. split; [exact Hp|]. now eexists.
      * now left.
  - rewrite P. now left.
Qed.

Lemma pre_tool_tool_effect (env : Env) (d : option PreToolData) (st : State) :
  tool_effect env st (pre_tool env d st).
Proof.
  unfold pre_tool. fold (ctx st).
  destruct (or_null (currentSessionId (ctx st))) as [sid|] eqn:Es.
  2:{ apply Untouched; auto. }
  match goal with |- context [String.eqb ?n "Task"] =>
    destruct (String.eqb n "Task") end.
  - spawn_cases ty desc Ex.
    + apply Untouched; auto.
    + eapply Started; [exact Es|reflexivity..].
    + apply Untouched; auto.
  - eapply Started; [exact Es|reflexivity..].
Qed.

Lemma step_tool_effect (env : Env) (h : Hook) (st : State) :
  tool_effect env st (step env h st).
Proof.
  destruct h as [data|d|d|res|reason|]; cbn [step].
  - apply (Interrupted env st _
             (sweep_row (now env) (ended_session_ids (db st)))).
    + cbn [session_start db createSession set_sessions tool_uses].
      now rewrite Sweep.cleanup_rows.
    + reflexivity.
    + reflexivity.
    + intros r. apply sweep_row_cases.
  - apply pre_tool_tool_effect.
  - unfold post_tool. fold (ctx st).
    destruct (pendingToolUseId (ctx st)) as [id|] eqn:Ep.
    2:{ apply Untouched; auto. }
    destruct (Z.eqb_spec id 0).
    { apply Untouched; auto. }
    finish_cases err; [apply Untouched; auto|].
    eapply Finished; [exact Ep| |reflexivity..].
    destruct (hasError d); auto.
  - unfold subagent_stop. fold (ctx st).
    destruct (or_null (currentSessionId (ctx st)));
      [|apply Untouched; auto].
    destruct (rev (agentStack (ctx st))); apply Untouched; auto.
  - unfold stop. fold (ctx st).
    destruct (or_null (currentSessionId (ctx st))); apply Untouched; auto.
  - unfold session_end. fold (ctx st).
    destruct (or_null (currentSessionId (ctx st))) as [s|].
    + apply (Interrupted env st _
               (fun r => if String.eqb (t_session_id r) s && is_pending r
                         then interrupt_tool (now env)
                                "Session ended before tool completed" r
                         else r)); try reflexivity.
      intros r. destruct (String.eqb (t_session_id r) s); [|now left].
      simpl. destruct (is_pending r) eqn:P; [|now left].
      right. split; [now apply String.eqb_eq|now eexists].
    + apply Untouched; auto.
Qed.

Lemma sorted_snoc (l : list Z) (x : Z) :
  StronglySorted Z.lt l -> (forall y, In y l -> y < x) ->
  StronglySorted Z.lt (l ++ [x]).
Proof.
  induction l as [|a l IH]; intros S H; simpl.
  - repeat constructor.
  - inversion S as [|? ? S' Hall]; subst. constructor.
    + apply IH; [exact S'|]. intros y Hy. apply H. now right.
    + rewrite Forall_forall in *. intros y Hy. apply in_app_or in Hy.
      destruct Hy as [Hy|[<-|[]]]; [now apply Hall|apply H; now left].
Qed.

Lemma sorted_NoDup (l : list Z) : StronglySorted Z.lt l -> NoDup l.
Proof.
  induction 1 as [|a l S IH Hall]; constructor; [|exact IH].
  intros Hin. rewrite Forall_forall in Hall. specialize (Hall a Hin). lia.
Qed.

Lemma same_id_same_row (l : list ToolUse) :
  NoDup (map t_id l) ->
  forall x y, In x l -> In y l -> t_id x = t_id y -> x = y.
Proof.
  induction l as [|a l IH]; intros N x y Hx Hy E; [destruct Hx|].
  inversion N as [|? ? Ha N']; subst.
  destruct Hx as [<-|Hx], Hy as [<-|Hy]; auto.
  - exfalso. apply Ha. rewrite E. now apply in_map.
  - exfalso. apply Ha. rewrite <- E. now apply in_map.
Qed.

Lemma finish_tool_life (t : time) (out : option json) (status : string)
    (err : option string) (r : ToolUse) :
  terminal status -> lifecycle (finish_tool t out status err r).
Proof. intros T. right. split; [exact T|]. now exists t. Qed.

Lemma tools_ok_init : tools_ok init.
Proof.
  split; simpl.
  - constructor.
  - intros r [].
  - lia.
  - intros r [].
  - intros id H. discriminate H.
Qed.

Lemma map_id_same (f : ToolUse -> ToolUse) (l : list ToolUse) :
  (forall r, t_id (f r) = t_id r) -> map t_id (map f l) = map t_id l.
Proof. intros H. rewrite map_map. now apply map_ext. Qed.

Lemma tools_ok_step (env : Env) (h : Hook) (st : State) :
  tools_ok st -> tools_ok (step env h st).
Proof.
  intros [S R C L P].
  destruct (step_tool_effect env h st)
    as [Et Es Ep|f Et Es Ep Hf|id out status err Ep0 Hst Et Es Ep
        |sid agent name input Hsid Et Es Ep Ess].
  - split; rewrite ?Et, ?Es; try assumption.
    intros id Hid. destruct Ep as [Ep|[Ep Ess]]; [congruence|].
    rewrite Ep in Hid. rewrite Ess. now apply P.
  - assert (Hid : forall r, t_id (f r) = t_id r).
    { intros r. destruct (Hf r) as [->|[_ [msg ->]]]; reflexivity. }
    split; rewrite ?Et, ?Es; try assumption.
    + now rewrite map_id_same.
    + intros r Hr. apply in_map_iff in Hr. destruct Hr as [r0 [<- Hr0]].
      rewrite Hid. now apply R.
    + intros r Hr. apply in_map_iff in Hr. destruct Hr as [r0 [<- Hr0]].
      destruct (Hf r0) as [->|[_ [msg ->]]]; [now apply L|].
      apply finish_tool_life. unfold terminal. auto.
    + intros id Hid'. congruence.
  - assert (T : terminal status) by (unfold terminal; tauto).
    split; rewrite ?Et, ?Es; try assumption.
    + rewrite map_id_same; [exact S|].
      intros r. now destruct (t_id r =? id).
    + intros r Hr. apply in_map_iff in Hr. destruct Hr as [r0 [<- Hr0]].
      destruct (t_id r0 =? id); exact (R r0 Hr0).
    + intros r Hr. apply in_map_iff in Hr. destruct Hr as [r0 [<- Hr0]].
      destruct (t_id r0 =? id); [now apply finish_tool_life|now apply L].
    + intros id' Hid'. congruence.
  - split; rewrite ?Et, ?Es.
    + rewrite map_app. cbn [map t_id]. apply sorted_snoc; [exact S|].
      intros y Hy. apply in_map_iff in Hy. destruct Hy as [r [<- Hr]].
      specialize (R r Hr). lia.
    + intros r Hr. apply in_app_or in Hr. destruct Hr as [Hr|[<-|[]]].
      * specialize (R r Hr). lia.
      * simpl. lia.
    + lia.
    + intros r Hr. apply in_app_or in Hr. destruct Hr as [Hr|[<-|[]]].
      * now apply L.
      * left. repeat split.
    + intros id Hid. rewrite Ep in Hid. injection Hid as <-.
      eexists. split; [apply in_or_app; right; now left|].
      rewrite Ess. apply or_null_Some in Hsid. destruct Hsid as [-> _].
      repeat split.
Qed.

Lemma tools_ok_run (trace : list (Env * Hook)) (st : State) :
  tools_ok st -> tools_ok (run trace st).
Proof.
  revert st. induction trace as [|[env h] trace IH]; intros st H; [exact H|].
  simpl. apply IH. now apply tools_ok_step.
Qed.

(** X1. In every state the hooks reach, the rowids of the tool uses grow
    strictly along the table (so they are distinct) and lie between 1 and
    the AUTOINCREMENT counter; and every tool use is either in flight
    (status 'pending', no [ended_at], no [duration_ms]) or finished (a
    terminal status, [ended_at] set, and [duration_ms] the double that
    SQLite computes from the Julian days of [ended_at] and
    [started_at]). *)
Theorem tool_uses_well_formed (trace : list (Env * Hook)) :
  let d := db (run trace init) in
  StronglySorted Z.lt (map t_id (tool_uses d))
  /\ NoDup (map t_id (tool_uses d))
  /\ (forall r, In r (tool_uses d) -> 1 <= t_id r <= seq_tool_uses d)
  /\ (forall r, In r (tool_uses d) ->
        (t_status r = "pending" /\ t_ended_at r = None
         /\ t_duration_ms r = None)
        \/ ((t_status r = "success" \/ t_status r = "error"
             \/ t_status r = "interrupted")
            /\ exists e, t_ended_at r = Some e
                         /\ t_duration_ms r
                            = Some (elapsed_ms e (t_started_at r)))).
Proof.
  destruct (tools_ok_run trace tools_ok_init) as [S R C L P].
  cbv zeta. split; [exact S|]. split; [now apply sorted_NoDup|].
  split; [exact R|exact L].
Qed.

(** X2. In every state the hooks reach, the pending id of the context,
    when it is set, is the id of a tool use that is there, has status
    'pending' and belongs to the current session. *)
Theorem pending_id_names_pending_row (trace : list (Env * Hook)) (id : Z) :
  pendingToolUseId (ctx (run trace init)) = Some id ->
  exists r,
    In r (tool_uses (db (run trace init)))
    /\ t_id r = id /\ t_status r = "pending"
    /\ currentSessionId (ctx (run trace init)) = Some (t_session_id r).
Proof. apply (ok_pending (tools_ok_run trace tools_ok_init)). Qed.

(** X3. A finished tool use is never touched again: in a state the hooks
    reach, a row whose status is not 'pending' is found unchanged after any
    further hook.  And no hook removes or renumbers a row: the ids of the
    table before are the first ids of the table after. *)
Theorem finished_rows_never_change (trace : list (Env * Hook)) (env : Env)
    (h : Hook) :
  let st := run trace init in
  (forall r, In r (tool_uses (db st)) -> t_status r <> "pending" ->
             In r (tool_uses (db (step env h st))))
  /\ exists new,
       map t_id (tool_uses (db (step env h st)))
       = (map t_id (tool_uses (db st)) ++ new)%list.
Proof.
  cbv zeta. set (st := run trace init).
  pose proof (tools_ok_run trace tools_ok_init) as Ok. fold st in Ok.
  destruct Ok as [S R C L P].
  destruct (step_tool_effect env h st)
    as [Et Es Ep|f Et Es Ep Hf|id out status err Ep0 Hst Et Es Ep
        |sid agent name input Hsid Et Es Ep Ess]; rewrite Et.
  - split; [auto|]. exists []. now rewrite app_nil_r.
  - split.
    + intros r Hr Hp. apply in_map_iff. exists r. split; [|exact Hr].
      destruct (Hf r) as [E|[E _]]; [exact E|contradiction].
    + exists []. rewrite app_nil_r. apply map_id_same.
      intros r. destruct (Hf r) as [->|[_ [msg ->]]]; reflexivity.
  - split.
    + intros r Hr Hp. apply in_map_iff. exists r. split; [|exact Hr].
      destruct (Z.eqb_spec (t_id r) id) as [E|]; [|reflexivity].
      exfalso. destruct (P id Ep0) as (r' & Hr' & Hid' & Hp' & _).
      assert (r = r'); [|congruence].
      apply sorted_NoDup in S.
      eapply same_id_same_row; [exact S|exact Hr|exact Hr'|congruence].
    + exists []. rewrite app_nil_r. apply map_id_same.
      intros r. now destruct (t_id r =? id).
  - split.
    + intros r Hr _. apply in_or_app. now left.
    + eexists. now rewrite map_app.
Qed.

Lemma timed_step (env : Env) (h : Hook) (st : State) (t : time) :
  timed t st -> t <= now env -> timed (now env) (step env h st).
Proof.
  intros T Hle.
  assert (Hold : forall r, In r (tool_uses (db st)) ->
             t_started_at r <= now env
             /\ forall e, t_ended_at r = Some e -> t_started_at r <= e).
  { intros r Hr. destruct (T r Hr) as [H1 H2]. split; [lia|exact H2]. }
  assert (Hfin : forall r out status err, In r (tool_uses (db st)) ->
             t_started_at (finish_tool (now env) out status err r) <= now env
             /\ forall e, t_ended_at (finish_tool (now env) out status err r)
                          = Some e ->
                          t_started_at (finish_tool (now env) out status err r)
                          <= e).
  { intros r out status err Hr. destruct (Hold r Hr) as [H1 _]. simpl.
    split; [exact H1|]. intros e [= <-]. exact H1. }
  unfold timed.
  destruct (step_tool_effect env h st)
    as [Et _ _|f Et _ _ Hf|id out status err _ _ Et _ _
        |sid agent name input _ Et _ _ _]; rewrite Et; intros r Hr.
  - now apply Hold.
  - apply in_map_iff in Hr. destruct Hr as [r0 [<- Hr0]].
    destruct (Hf r0) as [->|[_ [msg ->]]]; [now apply Hold|now apply Hfin].
  - apply in_map_iff in Hr. destruct Hr as [r0 [<- Hr0]].
    destruct (t_id r0 =? id); [now apply Hfin|now apply Hold].
  - apply in_app_or in Hr. destruct Hr as [Hr|[<-|[]]]; [now apply Hold|].
    simpl. split; [lia|discriminate].
Qed.

Lemma timed_run (trace : list (Env * Hook)) (st : State) (t : time) :
  timed t st -> clock_ok t trace ->
  exists t', timed t' (run trace st).
Proof.
  revert st t. induction trace as [|[env h] trace IH]; intros st t T C.
  - now exists t.
  - destruct C as [Hle C]. simpl. apply (IH _ (now env)); [|exact C].
    now apply timed_step with (t := t).
Qed.

(** X4. When the clock the hooks read never goes back, no tool use ends
    before it starts and no duration is negative, in any state the hooks
    reach. *)
Theorem durations_not_negative (trace : list (Env * Hook)) (t0 : time) :
  clock_ok t0 trace ->
  forall r, In r (tool_uses (db (run trace init))) ->
    (forall e, t_ended_at r = Some e -> t_started_at r <= e)
    /\ (forall ms, t_duration_ms r = Some ms -> (0 <= ms)%Q).
Proof.
  intros C r Hr.
  destruct (timed_run trace (st := init) (t := t0)) as [t' T];
    [intros x []|exact C|].
  destruct (T r Hr) as [_ He]. split; [exact He|].
  intros ms Hms.
  destruct (ok_life (tools_ok_run trace tools_ok_init) r Hr)
    as [(_ & _ & Hd)|(_ & e & Hend & Hd)]; [congruence|].
  rewrite Hd in Hms. injection Hms as <-. specialize (He e Hend).
  now apply Rounding.elapsed_ms_nonneg.
Qed.

End Lifecycle.

(** ** Installing and removing the tracking hooks *)
Module Registration.
Import Settings.

Lemma obj_set_fresh (V : Type) (k : string) (v : V) (o : Obj.t V) :
  ~ In k (Obj.keys o) -> Obj.set k v o = (o ++ [(k, v)])%list.
Proof.
  induction o as [|[k' v'] o IH]; simpl; intros H; [reflexivity|].
  destruct (String.eqb_spec k' k) as [E|_]; [exfalso; auto|].
  f_equal. apply IH. intros Hin. apply H. now right.
Qed.

Lemma obj_set_present (V : Type) (k : string) (v : V) (o : Obj.t V) :
  NoDup (Obj.keys o) -> In k (Obj.keys o) ->
  Obj.set k v o
  = map (fun kv => if String.eqb (fst kv) k then (k, v) else kv) o.
Proof.
  induction o as [|[k' v'] o IH]; simpl; intros N H; [destruct H|].
  inversion N as [|? ? Hk N']; subst.
  destruct (String.eqb_spec k' k) as [E|Hne].
  - f_equal. subst k'. symmetry. rewrite <- (map_id o) at 2.
    apply map_ext_in. intros [k2 v2] Hin. simpl.
    destruct (String.eqb_spec k2 k) as [->|]; [|reflexivity].
    exfalso. apply Hk. now apply (in_map fst) in Hin.
  - f_equal. apply IH; [exact N'|]. destruct H as [H|H]; [contradiction|exact H].
Qed.

Lemma obj_get_None (V : Type) (k : string) (o : Obj.t V) :
  Obj.get k o = None <-> ~ In k (Obj.keys o).
Proof.
  induction o as [|[k' v'] o IH]; simpl; [tauto|].
  destruct (String.eqb_spec k' k) as [E|Hne].
  - split; [discriminate|]. intros H. exfalso. auto.
  - rewrite IH. tauto.
Qed.

Lemma obj_get_set_same (V : Type) (k : string) (v : V) (o : Obj.t V) :
  Obj.get k (Obj.set k v o) = Some v.
Proof.
  induction o as [|[k' v'] o IH]; simpl; [now rewrite String.eqb_refl|].
  destruct (String.eqb_spec k' k) as [E|Hne]; simpl.
  - now rewrite String.eqb_refl.
  - destruct (String.eqb_spec k' k); [contradiction|exact IH].
Qed.

Lemma obj_get_set_other (V : Type) (k k2 : string) (v : V) (o : Obj.t V) :
  k2 <> k -> Obj.get k2 (Obj.set k v o) = Obj.get k2 o.
Proof.
  intros Hne. induction o as [|[k' v'] o IH]; simpl.
  - destruct (String.eqb_spec k k2); [congruence|reflexivity].
  - destruct (String.eqb_spec k' k) as [E|Hk]; simpl.
    + subst k'. destruct (String.eqb_spec k k2); [congruence|reflexivity].
    + destruct (String.eqb_spec k' k2); [reflexivity|exact IH].
Qed.

Lemma obj_get_delete_same (V : Type) (k : string) (o : Obj.t V) :
  Obj.get k (Obj.delete k o) = None.
Proof.
  induction o as [|[k' v'] o IH]; simpl; [reflexivity|].
  destruct (String.eqb_spec k' k) as [E|Hne]; simpl; [exact IH|].
  destruct (String.eqb_spec k' k); [contradiction|exact IH].
Qed.

Lemma obj_get_delete_other (V : Type) (k k2 : string) (o : Obj.t V) :
  k2 <> k -> Obj.get k2 (Obj.delete k o) = Obj.get k2 o.
Proof.
  intros Hne. induction o as [|[k' v'] o IH]; simpl; [reflexivity|].
  destruct (String.eqb_spec k' k) as [E|Hk]; simpl.
  - subst k'. destruct (String.eqb_spec k k2); [congruence|exact IH].
  - destruct (String.eqb_spec k' k2); [reflexivity|exact IH].
Qed.

Lemma obj_set_set (V : Type) (k : string) (v w : V) (o : Obj.t V) :
  Obj.set k v (Obj.set k w o) = Obj.set k v o.
Proof.
  induction o as [|[k' v'] o IH]; simpl.
  - now rewrite String.eqb_refl.
  - destruct (String.eqb_spec k' k) as [E|Hne]; simpl.
    + now rewrite String.eqb_refl.
    + destruct (String.eqb_spec k' k); [contradiction|now f_equal].
Qed.

Lemma obj_get_In (V : Type) (k : string) (v : V) (o : Obj.t V) :
  NoDup (Obj.keys o) -> In (k, v) o -> Obj.get k o = Some v.
Proof.
  induction o as [|[k' v'] o IH]; simpl; intros N H; [destruct H|].
  inversion N as [|? ? Hk N']; subst. destruct H as [[= -> ->]|H].
  - now rewrite String.eqb_refl.
  - destruct (String.eqb_spec k' k) as [->|_]; [|now apply IH].
    exfalso. apply Hk. now apply (in_map fst) in H.
Qed.

Lemma obj_mem (k : string) (ks : list string) :
  existsb (String.eqb k) ks = true <-> In k ks.
Proof.
  rewrite existsb_exists. split.
  - intros [x [Hx E]]. apply String.eqb_eq in E. now subst.
  - intros H. exists k. split; [exact H|apply String.eqb_refl].
Qed.

Section Root.

Variable root : string.

Lemma includes_prefix (hay needle : string) :
  String.prefix needle hay = true -> includes hay needle = true.
Proof. intros H. destruct hay; cbn [includes]; now rewrite H. Qed.

Lemma includes_inside (a r b : string) : includes (a ++ r ++ b) r = true.
Proof.
  induction a as [|c a IH].
  - change (includes (r ++ b) r = true).
    apply includes_prefix. apply Guard.prefix_app.
  - cbn [append includes]. rewrite IH. apply orb_true_r.
Qed.

Lemma tracking_is_agentarium (script : string) :
  user_defs root (tracking_hook root script) = [].
Proof.
  unfold user_defs, tracking_hook, isAgentariumHookDefinition,
    tracking_command.
  cbn [filter hooks existsb command].
  rewrite <- (Guard.append_assoc "bun " dquote).
  rewrite (includes_inside ("bun " ++ dquote) root
             ("/hooks/" ++ script ++ dquote)).
  now rewrite orb_true_r.
Qed.

Lemma user_defs_idem (defs : list HookDefinition) :
  user_defs root (user_defs root defs) = user_defs root defs.
Proof.
  unfold user_defs. induction defs as [|d defs IH]; simpl; [reflexivity|].
  destruct (isAgentariumHookDefinition root d) eqn:E; simpl; [exact IH|].
  rewrite E. simpl. now f_equal.
Qed.

Lemma user_defs_app (a b : list HookDefinition) :
  user_defs root (a ++ b)%list
  = (user_defs root a ++ user_defs root b)%list.
Proof. apply filter_app. Qed.

Lemma user_hooks_app (a b : HooksConfig) :
  user_hooks root (a ++ b)%list
  = (user_hooks root a ++ user_hooks root b)%list.
Proof. unfold user_hooks. now rewrite flat_map_app. Qed.

Lemma user_hooks_keys (config : HooksConfig) (k : string) :
  In k (Obj.keys (user_hooks root config)) -> In k (Obj.keys config).
Proof.
  induction config as [|[k' d] config IH]; simpl; [auto|].
  unfold Obj.keys in *. rewrite map_app. intros H. apply in_app_or in H.
  destruct H as [H|H]; [|right; now apply IH].
  destruct (user_defs root d); [destruct H|].
  destruct H as [H|[]]. now left.
Qed.

Lemma user_hooks_object (config : HooksConfig) :
  is_object config -> is_object (user_hooks root config).
Proof.
  unfold is_object. induction config as [|[k d] config IH]; simpl; intros N;
    [constructor|].
  inversion N as [|? ? Hk N']; subst.
  destruct (user_defs root d); simpl; [now apply IH|].
  constructor; [|now apply IH].
  intros H. apply Hk. now apply user_hooks_keys.
Qed.

(** What is left has only the user's definitions, and no empty event. *)
Lemma user_hooks_entries (config : HooksConfig) (kv : string * list HookDefinition) :
  In kv (user_hooks root config) ->
  snd kv <> [] /\ user_defs root (snd kv) = snd kv.
Proof.
  unfold user_hooks. intros H. apply in_flat_map in H.
  destruct H as [[k d] [_ H]]. simpl in H.
  destruct (user_defs root d) as [|x l] eqn:E; [destruct H|].
  destruct H as [<-|[]]. cbn [snd]. split; [discriminate|].
  rewrite <- E. apply user_defs_idem.
Qed.


Lemma remove_from (config acc : HooksConfig) :
  is_object config ->
  (forall k, In k (Obj.keys config) -> ~ In k (Obj.keys acc)) ->
  fold_left
    (fun result kv =>
       let filtered :=
         filter (fun def => negb (isAgentariumHookDefinition root def))
                (snd kv) in
       match filtered with
       | [] => result
       | _ => Obj.set (fst kv) filtered result
       end)
    config acc
  = (acc ++ user_hooks root config)%list.
Proof.
  unfold is_object. revert acc.
  induction config as [|[k d] config IH]; intros acc N Hfresh; simpl.
  - now rewrite app_nil_r.
  - inversion N as [|? ? Hk N']; subst.
    fold (user_defs root d).
    destruct (user_defs root d) as [|x l] eqn:E.
    + apply IH; [exact N'|]. intros k' Hk'. apply Hfresh. now right.
    + rewrite obj_set_fresh by (apply Hfresh; now left).
      rewrite IH; [rewrite <- app_assoc; reflexivity|exact N'|].
      intros k' Hk' Hin. unfold Obj.keys in Hin. rewrite map_app in Hin.
      apply in_app_or in Hin. destruct Hin as [Hin|[<-|[]]].
      * apply (Hfresh k'); [now right|exact Hin].
      * contradiction.
Qed.

Lemma remove_spec (config : HooksConfig) :
  is_object config ->
  removeAgentariumHooksFromConfig root config = user_hooks root config.
Proof.
  intros N. unfold removeAgentariumHooksFromConfig.
  apply (remove_from [] N). intros k _ [].
Qed.

Lemma defs_of_user_hooks (config : HooksConfig) (event : string) :
  is_object config ->
  defs_of (user_hooks root config) event
  = user_defs root (defs_of config event).
Proof.
  unfold is_object, defs_of.
  induction config as [|[k d] config IH]; intros N; [reflexivity|].
  inversion N as [|? ? Hk N']; subst. simpl.
  destruct (String.eqb_spec k event) as [->|Hne].
  - destruct (user_defs root d) as [|x l] eqn:E; simpl.
    + assert (G : Obj.get event (user_hooks root config) = None).
      { apply obj_get_None. intros Hin. apply Hk. now apply user_hooks_keys. }
      now rewrite G.
    + now rewrite String.eqb_refl.
  - destruct (user_defs root d) as [|x l]; simpl; [now apply IH|].
    destruct (String.eqb_spec k event); [contradiction|now apply IH].
Qed.

Lemma has_none (config : HooksConfig) :
  (forall kv, In kv config -> user_defs root (snd kv) = snd kv) ->
  hasAgentariumHooks root config = false.
Proof.
  intros H. unfold hasAgentariumHooks.
  apply Bool.not_true_iff_false. intros E. apply existsb_exists in E.
  destruct E as [kv [Hkv E]]. apply existsb_exists in E.
  destruct E as [def [Hdef E]]. specialize (H kv Hkv).
  rewrite <- H in Hdef. unfold user_defs in Hdef.
  apply filter_In in Hdef. destruct Hdef as [_ Hd]. now rewrite E in Hd.
Qed.


End Root.

Lemma merge_one_spec (result : HooksConfig) (e : string)
    (d : list HookDefinition) :
  is_object result ->
  merge_one result (e, d)
  = match Obj.get e result with
    | Some v =>
        map (fun kv => if String.eqb (fst kv) e then (e, (v ++ d)%list) else kv)
            result
    | None => (result ++ [(e, d)])%list
    end.
Proof.
  intros N. unfold merge_one. cbn [fst snd].
  destruct (Obj.get e result) as [v|] eqn:G.
  - rewrite G. apply obj_set_present; [exact N|].
    destruct (in_dec string_dec e (Obj.keys result)) as [H|H]; [exact H|].
    apply obj_get_None in H. congruence.
  - rewrite obj_get_set_same, obj_set_set. simpl.
    apply obj_set_fresh. now apply obj_get_None.
Qed.

Lemma merge_spec (toAdd existing : HooksConfig) :
  is_object existing -> is_object toAdd ->
  mergeHooks existing toAdd
  = (map (fun kv => (fst kv, (snd kv ++ defs_of toAdd (fst kv))%list)) existing
     ++ filter (fun kv => negb (existsb (String.eqb (fst kv))
                                        (Obj.keys existing)))
               toAdd)%list.
Proof.
  change (mergeHooks existing toAdd) with (fold_left merge_one toAdd existing).
  revert existing.
  induction toAdd as [|[e d] rest IH]; intros existing N Nt.
  - simpl. rewrite app_nil_r.
    transitivity (map (fun kv : string * list HookDefinition => kv) existing);
      [now rewrite map_id|].
    apply map_ext. intros [k v]. simpl. now rewrite app_nil_r.
  - inversion Nt as [|? ? He Nr]; subst.
    assert (Hrest : defs_of rest e = []).
    { unfold defs_of. apply obj_get_None in He. now rewrite He. }
    cbn [fold_left]. rewrite (merge_one_spec e d N).
    destruct (Obj.get e existing) as [v|] eqn:G.
    + (* the event is there: its definitions are extended in place *)
      assert (Hin : In e (Obj.keys existing)).
      { destruct (in_dec string_dec e (Obj.keys existing)) as [H|H];
          [exact H|]. apply obj_get_None in H. congruence. }
      rewrite IH; [| |exact Nr].
      2:{ unfold is_object, Obj.keys in *. rewrite map_map.
          erewrite map_ext; [exact N|]. intros [k w]. cbn [fst].
          destruct (String.eqb_spec k e) as [->|]; reflexivity. }
      f_equal.
      * rewrite map_map. apply map_ext_in. intros [k w] Hkw. cbn [fst snd].
        destruct (String.eqb_spec k e) as [->|Hne]; cbn [fst snd].
        -- rewrite (obj_get_In _ _ _ N Hkw) in G. injection G as ->.
           rewrite Hrest, app_nil_r. unfold defs_of. simpl.
           now rewrite String.eqb_refl.
        -- unfold defs_of. simpl.
           destruct (String.eqb_spec e k); [congruence|reflexivity].
      * cbn [filter fst]. apply obj_mem in Hin. rewrite Hin. simpl.
        apply filter_ext. intros [k w]. cbn [fst]. f_equal.
        unfold Obj.keys. rewrite map_map. f_equal.
        apply map_ext. intros [k2 w2]. cbn [fst].
        destruct (String.eqb_spec k2 e) as [->|]; reflexivity.
    + (* the event is new: it goes to the end *)
      assert (Hnot : ~ In e (Obj.keys existing)) by now apply obj_get_None.
      rewrite IH; [| |exact Nr].
      2:{ unfold is_object, Obj.keys in *. rewrite map_app. simpl.
          apply NoDup_app; [exact N|repeat constructor; intros []|].
          intros x Hx [<-|[]]. contradiction. }
      rewrite map_app. cbn [map fst snd]. rewrite Hrest, app_nil_r.
      rewrite <- app_assoc. f_equal.
      * apply map_ext_in. intros [k w] Hkw. cbn [fst snd]. f_equal. f_equal.
        unfold defs_of. simpl.
        destruct (String.eqb_spec e k) as [->|]; [|reflexivity].
        exfalso. apply Hnot. now apply (in_map fst) in Hkw.
      * cbn [app filter fst].
        assert (Hf : existsb (String.eqb e) (Obj.keys existing) = false).
        { apply Bool.not_true_iff_false. now rewrite obj_mem. }
        rewrite Hf. simpl. f_equal.
        apply filter_ext_in. intros [k w] Hkw. cbn [fst]. f_equal.
        unfold Obj.keys. rewrite map_app, existsb_app. simpl.
        destruct (String.eqb_spec k e) as [->|]; [|now rewrite !orb_false_r].
        exfalso. apply He. now apply (in_map fst) in Hkw.
Qed.

Lemma obj_get_app (V : Type) (k : string) (a b : Obj.t V) :
  Obj.get k (a ++ b)%list
  = match Obj.get k a with Some v => Some v | None => Obj.get k b end.
Proof.
  induction a as [|[k' v'] a IH]; simpl; [reflexivity|].
  destruct (String.eqb k' k); [reflexivity|exact IH].
Qed.

Lemma obj_get_map (V : Type) (f : string -> V -> V) (k : string)
    (o : Obj.t V) :
  Obj.get k (map (fun kv => (fst kv, f (fst kv) (snd kv))) o)
  = option_map (f k) (Obj.get k o).
Proof.
  induction o as [|[k' v'] o IH]; simpl; [reflexivity|].
  destruct (String.eqb_spec k' k) as [->|_]; [reflexivity|exact IH].
Qed.

Lemma obj_get_filter (V : Type) (p : string -> bool) (k : string)
    (o : Obj.t V) :
  p k = true -> Obj.get k (filter (fun kv => p (fst kv)) o) = Obj.get k o.
Proof.
  intros Hp. induction o as [|[k' v'] o IH]; simpl; [reflexivity|].
  destruct (String.eqb_spec k' k) as [->|Hne].
  - rewrite Hp. simpl. now rewrite String.eqb_refl.
  - destruct (p k'); simpl; [|exact IH].
    destruct (String.eqb_spec k' k); [contradiction|exact IH].
Qed.

Lemma obj_get_Some_In (V : Type) (k : string) (v : V) (o : Obj.t V) :
  Obj.get k o = Some v -> In (k, v) o.
Proof.
  induction o as [|[k' v'] o IH]; simpl; [discriminate|].
  destruct (String.eqb_spec k' k) as [->|_].
  - intros [= ->]. now left.
  - intros H. right. now apply IH.
Qed.

(** The definitions of an event after a merge: those that were there,
    then those added. *)
Lemma defs_of_merge (existing toAdd : HooksConfig) (event : string) :
  is_object existing -> is_object toAdd ->
  defs_of (mergeHooks existing toAdd) event
  = (defs_of existing event ++ defs_of toAdd event)%list.
Proof.
  intros N Nt. rewrite (merge_spec N Nt). unfold defs_of.
  rewrite obj_get_app.
  rewrite (obj_get_map (fun k v => (v ++ defs_of toAdd k)%list)).
  destruct (Obj.get event existing) as [v|] eqn:G; simpl; [reflexivity|].
  rewrite (obj_get_filter
             (fun k => negb (existsb (String.eqb k) (Obj.keys existing)))).
  - reflexivity.
  - apply negb_true_iff, Bool.not_true_iff_false. rewrite obj_mem.
    now apply obj_get_None.
Qed.

Lemma merge_object (existing toAdd : HooksConfig) :
  is_object existing -> is_object toAdd ->
  is_object (mergeHooks existing toAdd).
Proof.
  intros N Nt. rewrite (merge_spec N Nt). unfold is_object, Obj.keys in *.
  rewrite map_app, map_map. cbn [fst]. apply NoDup_app.
  - exact N.
  - now apply Sessions.NoDup_map_filter.
  - intros k Hk Hk2. apply in_map_iff in Hk2.
    destruct Hk2 as [[k2 v2] [<- Hf]]. apply filter_In in Hf.
    destruct Hf as [_ Hf]. cbn [fst] in *.
    apply negb_true_iff, Bool.not_true_iff_false in Hf. apply Hf.
    now apply obj_mem.
Qed.

Section Installed.

Variable root : string.

Lemma tracking_object : is_object (getTrackingHooks root).
Proof.
  unfold is_object. simpl.
  repeat constructor; simpl; intuition discriminate.
Qed.

Lemma tracking_defs (event : string) :
  In event (Obj.keys (getTrackingHooks root)) ->
  exists script, defs_of (getTrackingHooks root) event
                 = tracking_hook root script.
Proof.
  simpl. intros H.
  repeat (destruct H as [<-|H]; [eexists; reflexivity|]). destruct H.
Qed.

Lemma tracking_only (event : string) :
  user_defs root (defs_of (getTrackingHooks root) event) = [].
Proof.
  destruct (in_dec string_dec event (Obj.keys (getTrackingHooks root)))
    as [H|H].
  - destruct (tracking_defs H) as [script ->].
    apply tracking_is_agentarium.
  - apply obj_get_None in H. unfold defs_of. now rewrite H.
Qed.

Lemma user_hooks_none (config : HooksConfig) :
  (forall kv, In kv config -> user_defs root (snd kv) = []) ->
  user_hooks root config = [].
Proof.
  induction config as [|[k d] config IH]; intros H; [reflexivity|].
  pose proof (H (k, d) (or_introl eq_refl)) as E. cbn [snd] in E.
  simpl. rewrite E. simpl. apply IH. intros kv Hkv. apply H. now right.
Qed.

(** The configuration after an installation. *)
Lemma user_hooks_installed (config : HooksConfig) :
  is_object config ->
  user_hooks root (mergeHooks (user_hooks root config) (getTrackingHooks root))
  = user_hooks root config.
Proof.
  intros N.
  rewrite (merge_spec (user_hooks_object root N) tracking_object).
  rewrite user_hooks_app.
  rewrite (@user_hooks_none (filter _ (getTrackingHooks root))), app_nil_r.
  - pose proof (user_hooks_entries root config) as He.
    induction (user_hooks root config) as [|[k v] U IH]; [reflexivity|].
    destruct (He (k, v) (or_introl eq_refl)) as [Hne Hv]. cbn [fst snd] in *.
    simpl. rewrite user_defs_app, tracking_only, app_nil_r, Hv.
    destruct v as [|x v]; [contradiction|]. simpl. f_equal.
    apply IH. intros kv Hkv. apply He. now right.
  - intros [k d] Hkd. apply filter_In in Hkd. destruct Hkd as [Hkd _].
    cbn [snd].
    assert (E : d = defs_of (getTrackingHooks root) k).
    { unfold defs_of. now rewrite (obj_get_In _ _ _ tracking_object Hkd). }
    rewrite E. apply tracking_only.
Qed.

Lemma cleaned_of (file : File) :
  is_object (config_of file) ->
  match s_hooks (readSettings file) with
  | Some config => removeAgentariumHooksFromConfig root config
  | None => []
  end = user_hooks root (config_of file).
Proof.
  unfold config_of. destruct (s_hooks (readSettings file)) as [c|];
    [apply remove_spec|reflexivity].
Qed.

Lemma config_of_Some (config : HooksConfig) (other : list (string * Js.json)) :
  config_of (Some (mkSettingsJson (Some config) other)) = config.
Proof. reflexivity. Qed.

Lemma installHooks_config (file : File) :
  is_object (config_of file) ->
  installHooks root file
  = Some (mkSettingsJson
            (Some (mergeHooks (user_hooks root (config_of file))
                              (getTrackingHooks root)))
            (s_other (readSettings file))).
Proof.
  intros N. unfold installHooks. now rewrite (cleaned_of file N).
Qed.

(** X6. Installing the tracking hooks twice is installing them once:
    the second installation first removes what the first one added. *)
Theorem installHooks_idempotent (file : File) :
  is_object (config_of file) ->
  installHooks root (installHooks root file) = installHooks root file.
Proof.
  intros N. rewrite (installHooks_config file N).
  rewrite installHooks_config.
  - rewrite config_of_Some. cbn [readSettings s_other].
    now rewrite (user_hooks_installed N).
  - rewrite config_of_Some.
    apply merge_object; [now apply user_hooks_object|apply tracking_object].
Qed.

Lemma existsb_user_defs (defs : list HookDefinition) :
  existsb (isAgentariumHookDefinition root) (user_defs root defs) = false.
Proof.
  apply Bool.not_true_iff_false. intros E. apply existsb_exists in E.
  destruct E as [d [Hd E]]. apply filter_In in Hd. destruct Hd as [_ Hd].
  now rewrite E in Hd.
Qed.

Lemma installed_event (config : HooksConfig) (event : string) :
  is_object config ->
  In event (Obj.keys (getTrackingHooks root)) ->
  existsb (isAgentariumHookDefinition root)
          (defs_of (mergeHooks (user_hooks root config)
                               (getTrackingHooks root)) event)
  = true.
Proof.
  intros N H.
  rewrite (defs_of_merge event (user_hooks_object root N) tracking_object).
  rewrite existsb_app. destruct (tracking_defs H) as [script ->].
  pose proof (tracking_is_agentarium root script) as T.
  unfold user_defs, tracking_hook in *. cbn [filter] in T. cbn [existsb].
  destruct (isAgentariumHookDefinition root _); [|discriminate T].
  now rewrite !orb_true_r.
Qed.

Lemma check_tracking_spec (file : File) :
  check_tracking root file
  = (filter (fun e => existsb (isAgentariumHookDefinition root)
                              (defs_of (config_of file) e))
            (Obj.keys (getTrackingHooks root)),
     filter (fun e => negb (existsb (isAgentariumHookDefinition root)
                                    (defs_of (config_of file) e)))
            (Obj.keys (getTrackingHooks root))).
Proof.
  unfold check_tracking, config_of, defs_of.
  f_equal; apply filter_ext; intros e;
    now destruct (Obj.get e _).
Qed.

Lemma install_uninstall_facts (file : File) :
  is_object (config_of file) ->
  check_tracking root (installHooks root file)
  = (Obj.keys (getTrackingHooks root), [])
  /\ areHooksInstalled root (installHooks root file) = true
  /\ uninstall_tracking root (installHooks root file)
     = (true, snd (uninstall_tracking root file))
  /\ config_of (snd (uninstall_tracking root file))
     = user_hooks root (config_of file)
  /\ s_other (readSettings (snd (uninstall_tracking root file)))
     = s_other (readSettings file)
  /\ check_tracking root (snd (uninstall_tracking root file))
     = ([], Obj.keys (getTrackingHooks root))
  /\ areHooksInstalled root (snd (uninstall_tracking root file)) = false.
Proof.
  intros N.
  set (U := user_hooks root (config_of file)).
  set (M := mergeHooks U (getTrackingHooks root)).
  assert (NM : is_object M)
    by (apply merge_object; [now apply user_hooks_object|apply tracking_object]).
  assert (Hhas : hasAgentariumHooks root M = true).
  { pose proof (installed_event (event := "SessionStart") N) as H.
    unfold defs_of in H. fold U M in H.
    destruct (Obj.get "SessionStart" M) as [defs|] eqn:G.
    - unfold hasAgentariumHooks. apply existsb_exists.
      exists ("SessionStart", defs). split; [now apply obj_get_Some_In|].
      apply H. simpl. now left.
    - discriminate H. simpl. now left. }
  assert (Hun : snd (uninstall_tracking root file)
                = Some (mkSettingsJson
                          (match U with [] => None | _ => Some U end)
                          (s_other (readSettings file)))).
  { unfold uninstall_tracking, U, config_of. cbn [snd].
    destruct (s_hooks (readSettings file)) as [c|] eqn:Ec.
    - rewrite (remove_spec root (config := c)).
      + now destruct (user_hooks root c).
      + unfold config_of in N. now rewrite Ec in N.
    - unfold writeSettings, set_hooks. simpl.
      destruct (readSettings file) as [h o]. simpl in Ec. now subst h. }
  assert (HU : config_of (snd (uninstall_tracking root file)) = U).
  { rewrite Hun. unfold config_of. cbn [readSettings s_hooks].
    now destruct U. }
  rewrite (installHooks_config file N). fold U M.
  split; [|split; [|split; [|split; [|split; [|split]]]]].
  - rewrite check_tracking_spec, config_of_Some.
    rewrite Delete.filter_all, Delete.filter_none; [reflexivity| |];
      intros e He; unfold M, U; rewrite (installed_event N He); reflexivity.
  - unfold areHooksInstalled. cbn [readSettings s_hooks]. exact Hhas.
  - unfold uninstall_tracking at 1. cbn [readSettings s_hooks s_other].
    rewrite Hhas, (remove_spec root NM). unfold M, U.
    rewrite (user_hooks_installed N). fold U. rewrite Hun.
    unfold set_hooks, writeSettings. cbn [s_other]. now destruct U.
  - exact HU.
  - now rewrite Hun.
  - rewrite check_tracking_spec, HU.
    rewrite Delete.filter_none, Delete.filter_all; [reflexivity| |];
      intros e He; unfold U;
      rewrite (defs_of_user_hooks root e N), existsb_user_defs; reflexivity.
  - unfold areHooksInstalled. rewrite Hun. cbn [readSettings s_hooks].
    destruct U as [|kv U'] eqn:EU; [reflexivity|]. rewrite <- EU.
    apply has_none. intros kv' Hkv. unfold U in Hkv.
    now apply user_hooks_entries in Hkv.
Qed.



(** X9. After an uninstallation no event is reported as installed, all
    six are reported as missing, and [areHooksInstalled] does not hold. *)
Theorem uninstall_is_reported (file : File) :
  is_object (config_of file) ->
  check_tracking root (snd (uninstall_tracking root file))
  = ([], Obj.keys (getTrackingHooks root))
  /\ areHooksInstalled root (snd (uninstall_tracking root file)) = false.
Proof.
  intros N.
  destruct (install_uninstall_facts file N) as (_ & _ & _ & _ & _ & H6 & H7).
  now split.
Qed.

End Installed.

(** ** Custom hooks *)

Lemma splice1_last (A : Type) (l : list A) (x : A) :
  splice1 (List.length l) (l ++ [x])%list = l.
Proof. induction l as [|y l IH]; simpl; [reflexivity|now rewrite IH]. Qed.

Lemma nth_error_last (A : Type) (l : list A) (x : A) :
  nth_error (l ++ [x])%list (List.length l) = Some x.
Proof. induction l as [|y l IH]; simpl; [reflexivity|exact IH]. Qed.

Lemma defs_of_set (config : HooksConfig) (event e : string)
    (defs : list HookDefinition) :
  defs_of (Obj.set event defs config) e
  = if String.eqb e event then defs else defs_of config e.
Proof.
  unfold defs_of. destruct (String.eqb_spec e event) as [->|Hne].
  - now rewrite obj_get_set_same.
  - rewrite obj_get_set_other; [reflexivity|congruence].
Qed.

Lemma defs_of_delete (config : HooksConfig) (event e : string) :
  defs_of (Obj.delete event config) e
  = if String.eqb e event then [] else defs_of config e.
Proof.
  unfold defs_of. destruct (String.eqb_spec e event) as [->|Hne].
  - now rewrite obj_get_delete_same.
  - rewrite obj_get_delete_other; [reflexivity|congruence].
Qed.

Lemma config_of_written (config : HooksConfig) (settings : SettingsJson) :
  config_of (writeSettings
               (match config with
                | [] => set_hooks None settings
                | _ => set_hooks (Some config) settings
                end))
  = config.
Proof. now destruct config. Qed.

(** When its event is not an inherited name, or is one the
    configuration holds, [add_custom_hook] appends the new definition to
    the end of the event's list, creating the list when there is none;
    otherwise it throws. *)
Lemma add_custom_hook_cases (event script : string)
    (toolMatcher : option string) (file : File) :
  add_custom_hook event script toolMatcher file
  = if Obj.inherited event
       && negb (existsb (String.eqb event) (Obj.keys (config_of file)))
    then None
    else Some (writeSettings
                 (set_hooks
                    (Some (Obj.set event
                             (defs_of (config_of file) event
                              ++ [custom_def script toolMatcher])%list
                             (config_of file)))
                    (readSettings file))).
Proof.
  unfold add_custom_hook, defs_of. fold (config_of file).
  fold (custom_def script toolMatcher).
  destruct (Obj.get event (config_of file)) as [defs|] eqn:G.
  - assert (H : existsb (String.eqb event) (Obj.keys (config_of file)) = true).
    { apply obj_mem. destruct (in_dec string_dec event
                                 (Obj.keys (config_of file))) as [H|H];
        [exact H|]. apply obj_get_None in H. congruence. }
    rewrite H, andb_false_r. reflexivity.
  - assert (H : existsb (String.eqb event) (Obj.keys (config_of file))
                = false).
    { apply Bool.not_true_iff_false. rewrite obj_mem.
      now apply obj_get_None. }
    rewrite H, andb_true_r. now destruct (Obj.inherited event).
Qed.

Lemma add_custom_hook_appends (event script : string)
    (toolMatcher : option string) (file added : File) (e : string) :
  add_custom_hook event script toolMatcher file = Some added ->
  defs_of (config_of added) e
  = (if String.eqb e event
     then (defs_of (config_of file) event
           ++ [custom_def script toolMatcher])%list
     else defs_of (config_of file) e)
  /\ s_other (readSettings added) = s_other (readSettings file).
Proof.
  rewrite add_custom_hook_cases.
  destruct (Obj.inherited event && _); [discriminate|]. intros [= <-].
  split; [|reflexivity].
  unfold writeSettings, set_hooks. rewrite config_of_Some.
  rewrite defs_of_set. reflexivity.
Qed.

Lemma remove_hook_result (event : option string) (index : option Z)
    (file : File) :
  match remove_hook event index file with
  | (inl _, file') => file' = file
  | (inr removed, file') =>
      exists ev i,
        Js.or_null event = Some ev
        /\ i = match index with Some z => Z.to_nat z | None => O end
        /\ removed = nth_error (defs_of (config_of file) ev) i
        /\ (forall e,
              defs_of (config_of file') e
              = if String.eqb e ev
                then splice1 i (defs_of (config_of file) ev)
                else defs_of (config_of file) e)
        /\ s_other (readSettings file') = s_other (readSettings file)
  end.
Proof.
  unfold remove_hook. destruct (Js.or_null event) as [ev|]; [|reflexivity].
  fold (config_of file).
  destruct (Obj.get ev (config_of file)) as [eventHooks|] eqn:G;
    [|reflexivity].
  match goal with |- context [if ?b then _ else _] => destruct b end;
    [reflexivity|].
  exists ev, (match index with Some z => Z.to_nat z | None => O end).
  assert (D : defs_of (config_of file) ev = eventHooks)
    by (unfold defs_of; now rewrite G).
  rewrite D. repeat split.
  - intros e. rewrite config_of_written.
    destruct (splice1 _ eventHooks) as [|d rest] eqn:S.
    + apply defs_of_delete.
    + apply defs_of_set.
  - now destruct (match splice1 _ eventHooks with
                  | [] => Obj.delete ev (config_of file)
                  | _ => _
                  end).
Qed.

(** X10. A removal that goes through takes exactly the definition at the
    index out of the event's list (the first one when no index is given)
    and returns it; every other event and the other settings stay as they
    were.  A removal that is refused writes nothing. *)
Theorem remove_hook_effect (event : option string) (index : option Z)
    (file : File) :
  match remove_hook event index file with
  | (inl _, file') => file' = file
  | (inr removed, file') =>
      exists ev i,
        Js.or_null event = Some ev
        /\ i = match index with Some z => Z.to_nat z | None => O end
        /\ removed = nth_error (defs_of (config_of file) ev) i
        /\ (forall e,
              defs_of (config_of file') e
              = if String.eqb e ev
                then splice1 i (defs_of (config_of file) ev)
                else defs_of (config_of file) e)
        /\ s_other (readSettings file') = s_other (readSettings file)
  end.
Proof. exact (remove_hook_result event index file). Qed.

(** X11. [add_custom_hook] throws, writing nothing, exactly when its
    event is a name that objects inherit ([toString], [constructor] and
    the like) and the configuration has no list of its own under it.
    Otherwise the definition just added is the last one of its event:
    for an event that is not the empty string, removing the event's last
    index returns it and leaves every event with the definitions it had
    before the addition. *)
Theorem add_then_remove (event script : string)
    (toolMatcher : option string) (file : File) :
  event <> "" ->
  let index := Z.of_nat (List.length (defs_of (config_of file) event)) in
  match add_custom_hook event script toolMatcher file with
  | None =>
      Obj.inherited event = true
      /\ ~ In event (Obj.keys (config_of file))
  | Some added =>
      (Obj.inherited event = false
       \/ In event (Obj.keys (config_of file)))
      /\ fst (remove_hook (Some event) (Some index) added)
         = inr (Some (custom_def script toolMatcher))
      /\ (forall e,
            defs_of (config_of (snd (remove_hook (Some event) (Some index)
                                                 added))) e
            = defs_of (config_of file) e)
      /\ s_other (readSettings (snd (remove_hook (Some event) (Some index)
                                                 added)))
         = s_other (readSettings file)
  end.
Proof.
  intros Hev index.
  destruct (add_custom_hook event script toolMatcher file) as [added|] eqn:Ea.
  2:{ rewrite add_custom_hook_cases in Ea.
      destruct (Obj.inherited event); [|discriminate Ea].
      destruct (existsb (String.eqb event) (Obj.keys (config_of file)))
        eqn:Ex; [discriminate Ea|].
      split; [reflexivity|]. intros H. apply obj_mem in H. congruence. }
  split.
  { rewrite add_custom_hook_cases in Ea.
    destruct (Obj.inherited event); [|now left].
    destruct (existsb (String.eqb event) (Obj.keys (config_of file)))
      eqn:Ex; [|discriminate Ea].
    right. now apply obj_mem. }
  pose proof (remove_hook_result (Some event) (Some index) added) as E.
  assert (A : forall e, defs_of (config_of added) e
                        = if String.eqb e event
                          then (defs_of (config_of file) event
                                ++ [custom_def script toolMatcher])%list
                          else defs_of (config_of file) e)
    by (intros e; now apply (add_custom_hook_appends _ _ _ _ e Ea)).
  assert (O : Js.or_null (Some event) = Some event)
    by (now apply or_null_nonempty).
  destruct (remove_hook (Some event) (Some index) added) as [[msg|removed] file']
    eqn:R.
  - exfalso. unfold remove_hook in R. rewrite O in R.
    fold (config_of added) in R.
    pose proof (A event) as Ae. rewrite String.eqb_refl in Ae.
    unfold defs_of at 1 in Ae.
    destruct (Obj.get event (config_of added)) as [d|] eqn:G.
    + subst d. rewrite List.length_app in R. simpl in R.
      unfold index in R.
      destruct (Z.ltb_spec (Z.of_nat (List.length (defs_of (config_of file) event))) 0);
        [lia|].
      destruct (Z.leb_spec
                  (Z.of_nat (List.length (defs_of (config_of file) event) + 1))
                  (Z.of_nat (List.length (defs_of (config_of file) event))));
        [lia|].
      simpl in R. discriminate R.
    + symmetry in Ae. now apply app_eq_nil in Ae as [_ ?].
  - destruct E as (ev & i & Eo & Ei & Er & Ed & Es).
    rewrite O in Eo. injection Eo as <-.
    unfold index in Ei. rewrite Nat2Z.id in Ei. subst i.
    pose proof (A event) as Ae. rewrite String.eqb_refl in Ae.
    rewrite Ae in Er, Ed. rewrite nth_error_last in Er.
    rewrite splice1_last in Ed. cbn [fst snd]. repeat split.
    + now subst removed.
    + intros e. rewrite Ed. destruct (String.eqb_spec e event) as [->|Hne];
        [reflexivity|].
      rewrite A. now destruct (String.eqb_spec e event).
    + rewrite Es. now apply (add_custom_hook_appends _ _ _ _ event Ea).
Qed.

End Registration.

(** ** Starting up *)
Module Startup.

Import Project Server.

(** X12. Whatever the project file was, after [session-start.ts] it
    exists, its restart flag is not set (the dashboard's status route
    reports [needs_restart] false), stored settings keep their creation
    time, dashboard switch and port, and a second run changes nothing. *)
Theorem session_start_project_settles (iso : string) (file : Project.File) :
  let file' := session_start_project iso file in
  isProjectInitialized file' = true
  /\ snd (fst (fst (project_status file'))) = false
  /\ (forall m, file = Stored m ->
        exists m', file' = Stored m'
                   /\ initialized m' = initialized m
                   /\ created_at m' = created_at m
                   /\ auto_open_dashboard m' = auto_open_dashboard m
                   /\ dashboard_port m' = dashboard_port m)
  /\ (forall iso2, session_start_project iso2 file' = file').
Proof.
  destruct file as [| |m]; cbv zeta.
  - split; [reflexivity|split; [reflexivity|split]];
      [intros m H; discriminate H|intros; reflexivity].
  - split; [reflexivity|split; [reflexivity|split]];
      [intros m H; discriminate H|intros; reflexivity].
  - unfold session_start_project, clearNeedsRestart. cbn.
    destruct (needs_restart m) as [[|]|] eqn:E; cbn; rewrite ?E;
      (split; [reflexivity|split; [reflexivity|split]];
       [intros m0 [= <-]; eexists; split; [reflexivity|]; now repeat split
       |intros; cbn; rewrite ?E; reflexivity]).
Qed.

Section Files.

Variables (root : string).


End Files.

(** *** The main loop *)

Lemma split_lines_cons (s : text) :
  exists line lines, split_lines s = line :: lines.
Proof.
  induction s as [|c s (line & lines & IH)]; simpl.
  - now eexists _, _.
  - destruct (c =? 10); [now eexists _, _|].
    rewrite IH. now eexists _, _.
Qed.

Lemma removelast_cons (A : Type) (x y : A) (l : list A) :
  removelast (x :: y :: l) = x :: removelast (y :: l).
Proof. reflexivity. Qed.

Lemma last_cons (A : Type) (x y : A) (l : list A) (d : A) :
  last (x :: y :: l) d = last (y :: l) d.
Proof. reflexivity. Qed.

(** Splitting a text in two before splitting it into lines: the lines
    that are complete in the first part, then the lines of what is left of
    it followed by the second part. *)
Lemma split_lines_app (a b : text) :
  split_lines (a ++ b)%list
  = (removelast (split_lines a)
     ++ split_lines (last (split_lines a) [] ++ b))%list.
Proof.
  induction a as [|c a IH]; [reflexivity|].
  cbn [app split_lines].
  destruct (split_lines_cons a) as (line & lines & E).
  destruct (c =? 10) eqn:Ec.
  - rewrite IH, E. reflexivity.
  - rewrite IH, E. destruct lines as [|l2 lines].
    + cbn [removelast last app]. cbn [split_lines].
      rewrite Ec. reflexivity.
    + rewrite !removelast_cons, !last_cons. reflexivity.
Qed.

Lemma last_line_whole (s : text) :
  split_lines (last (split_lines s) []) = [last (split_lines s) []].
Proof.
  induction s as [|c s IH]; [reflexivity|].
  cbn [split_lines]. destruct (split_lines_cons s) as (line & lines & E).
  destruct (c =? 10) eqn:Ec.
  - rewrite E in *. exact IH.
  - rewrite E in *. destruct lines as [|l2 lines].
    + cbn [last] in *. cbn [split_lines]. rewrite Ec, IH. reflexivity.
    + exact IH.
Qed.

(** *** Decoding chunk by chunk *)

Lemma decode_bytes_app (d : Decoder) (a b : bytes) :
  decode_bytes d (a ++ b)%list
  = let '(d1, out1) := decode_bytes d a in
    let '(d2, out2) := decode_bytes d1 b in
    (d2, (out1 ++ out2)%list).
Proof.
  revert d. induction a as [|x a IH]; intros d.
  - simpl. now destruct (decode_bytes d b).
  - cbn [app decode_bytes]. destruct (decode_byte d x) as [d1 o1].
    rewrite IH. destruct (decode_bytes d1 a) as [d2 o2].
    destruct (decode_bytes d2 b) as [d3 o3]. now rewrite app_assoc.
Qed.

Lemma whole_decode (chunk : bytes) :
  whole chunk ->
  decode chunk = flat_map code_units (snd (decode_bytes start chunk))
  /\ code_points chunk = snd (decode_bytes start chunk).
Proof.
  intros [Hd Hb]. unfold decode, code_points in *.
  destruct (decode_bytes start chunk) as [d out]. cbn [fst snd] in *.
  subst d. cbn [bytes_needed start Z.eqb] in *. rewrite app_nil_r in *.
  split; [|reflexivity].
  destruct out as [|p out]; [reflexivity|]. cbn [strip_bom hd_error] in *.
  destruct (Z.eqb_spec p 65279) as [->|_]; [now contradiction Hb|reflexivity].
Qed.

(** Chunks that can each be read on their own decode, one after the
    other, to what their bytes decode to when put end to end. *)
Lemma decode_whole_app (a b : bytes) :
  whole a -> whole b ->
  whole (a ++ b)%list
  /\ decode (a ++ b)%list = (decode a ++ decode b)%list.
Proof.
  intros Ha Hb.
  destruct (whole_decode Ha) as [Da Pa]. destruct (whole_decode Hb) as [Db Pb].
  destruct Ha as [Sa Ba]. destruct Hb as [Sb Bb].
  assert (E : decode_bytes start (a ++ b)%list
              = (start, (snd (decode_bytes start a)
                         ++ snd (decode_bytes start b))%list)).
  { rewrite decode_bytes_app.
    destruct (decode_bytes start a) as [da oa]. cbn [fst snd] in *. subst da.
    destruct (decode_bytes start b) as [db ob]. cbn [fst snd] in *.
    now subst db. }
  assert (W : whole (a ++ b)%list).
  { split; [now rewrite E|]. unfold code_points. rewrite E.
    cbn [bytes_needed start Z.eqb]. rewrite app_nil_r, <- Pa, <- Pb.
    destruct (code_points a) as [|p pa]; [exact Bb|exact Ba]. }
  split; [exact W|].
  destruct (whole_decode W) as [Dab _].
  rewrite Dab, E, Da, Db. cbn [snd]. apply flat_map_app.
Qed.

Lemma whole_nil : whole [].
Proof. split; [reflexivity|discriminate]. Qed.

Lemma decode_whole_concat (chunk : bytes) (chunks : list bytes) :
  whole chunk -> Forall whole chunks ->
  whole (List.concat chunks)
  /\ decode (chunk ++ List.concat chunks)%list
     = (decode chunk ++ decode (List.concat chunks))%list.
Proof.
  intros Hc Hall.
  assert (W : whole (List.concat chunks)).
  { induction Hall as [|c cs Hw _ IH]; [apply whole_nil|].
    cbn [List.concat]. now apply decode_whole_app. }
  split; [exact W|]. now apply decode_whole_app.
Qed.

Lemma ascii_whole (chunk : bytes) : ascii_only chunk -> whole chunk.
Proof.
  intros H.
  assert (E : decode_bytes start chunk = (start, chunk)).
  { induction H as [|b chunk Hb _ IH]; [reflexivity|].
    cbn [decode_bytes]. unfold decode_byte. cbn [bytes_needed start Z.eqb].
    unfold lead. destruct (Z.leb_spec b 127); [|lia].
    now rewrite IH. }
  split; [now rewrite E|]. unfold code_points. rewrite E.
  cbn [bytes_needed start Z.eqb]. rewrite app_nil_r.
  destruct H as [|b chunk Hb _]; [discriminate|].
  cbn [hd_error]. intros [= ->]. lia.
Qed.

Section Loop.

Variable St : Type.
Variable handle_line : text -> St -> St * option string.

Lemma process_lines_app (l1 l2 : list text) (st : St) :
  process_lines handle_line (l1 ++ l2) st
  = let '(st1, out1) := process_lines handle_line l1 st in
    let '(st2, out2) := process_lines handle_line l2 st1 in
    (st2, (out1 ++ out2)%list).
Proof.
  revert st. induction l1 as [|line l1 IH]; intros st.
  - simpl. now destruct (process_lines handle_line l2 st).
  - cbn [app process_lines].
    destruct (process_line handle_line line st) as [sa oa].
    rewrite IH. destruct (process_lines handle_line l1 sa) as [sb ob].
    destruct (process_lines handle_line l2 sb) as [sc oc].
    now rewrite app_assoc.
Qed.

(** X14. When every chunk of the input can be read on its own (it ends
    where a character ends and does not begin with a byte order mark, as
    every chunk of ASCII does), the main loop does not depend on how the
    input is cut into chunks: it handles, in order, every line of the
    decoded input that is followed by a line feed, and keeps what comes
    after the last line feed in its buffer. *)
Theorem main_loop_lines (chunks : list bytes) (st : St) :
  Forall whole chunks ->
  main_loop handle_line chunks [] st
  = (let lines := split_lines (decode (List.concat chunks)) in
     let '(st', out) := process_lines handle_line (removelast lines) st in
     (last lines [], st', out))
  /\ forall chunk, ascii_only chunk -> whole chunk.
Proof.
  intros Hall. split; [|apply ascii_whole].
  assert (G : forall buffer st0,
            split_lines buffer = [buffer] ->
            main_loop handle_line chunks buffer st0
            = let lines :=
                split_lines (buffer ++ decode (List.concat chunks))%list in
              let '(st', out) :=
                process_lines handle_line (removelast lines) st0 in
              (last lines [], st', out)).
  { induction Hall as [|chunk chunks Hc Hall IH]; intros buffer st0 Hb.
    - cbn [List.concat main_loop]. change (decode []) with (@nil Z).
      rewrite app_nil_r, Hb. reflexivity.
    - cbn [List.concat main_loop].
      destruct (decode_whole_concat Hc Hall) as [_ ->].
      unfold read_chunk. cbv beta iota zeta.
      rewrite app_assoc, (split_lines_app (buffer ++ decode chunk)%list).
      set (lines := split_lines (buffer ++ decode chunk)%list).
      set (rest := last lines []).
      destruct (split_lines_cons (rest ++ decode (List.concat chunks))%list)
        as (l0 & ls & E).
      assert (R : removelast (removelast lines ++ l0 :: ls)
                  = (removelast lines ++ removelast (l0 :: ls))%list)
        by (apply removelast_app; discriminate).
      assert (L : last (removelast lines ++ l0 :: ls) []
                  = last (l0 :: ls) []).
      { clear. induction (removelast lines) as [|x l IH]; [reflexivity|].
        destruct l; [reflexivity|exact IH]. }
      rewrite E, R, L, process_lines_app.
      destruct (process_lines handle_line (removelast lines) st0) as [s1 o1].
      rewrite (IH rest) by apply last_line_whole. cbv zeta. rewrite E.
      now destruct (process_lines handle_line (removelast (l0 :: ls)) s1). }
  now rewrite G.
Qed.

End Loop.

End Startup.

(** ** Hooks outside a session, and around a subagent *)
Module Brackets.

Import Correlate.

Lemma quiet_step (env : Env) (h : Hook) (st : State) :
  ctx st = Context.default ->
  match h with SessionStart _ => false | _ => true end = true ->
  db (step env h st) = db st /\ ctx (step env h st) = Context.default.
Proof.
  unfold ctx. intros C H.
  destruct h as [data|d|d|res|reason|]; try discriminate H; cbn [step];
    [unfold pre_tool|unfold post_tool|unfold subagent_stop|unfold stop
    |unfold session_end];
    rewrite ?C; cbn; try rewrite C; now split.
Qed.

(** X15. Between a SessionEnd and the next SessionStart, and before the
    first SessionStart, the hooks record nothing: the database stays as it
    is. *)
Theorem nothing_recorded_outside_session (env : Env) (st : State)
    (trace : list (Env * Hook)) :
  no_start trace = true ->
  db (run trace (session_end env st)) = db (session_end env st)
  /\ db (run trace init) = db init.
Proof.
  intros H.
  assert (Q : forall st0, ctx st0 = Context.default ->
                db (run trace st0) = db st0).
  { induction trace as [|[e h] trace IH]; intros st0 C; [reflexivity|].
    cbn [no_start forallb snd] in H. apply andb_true_iff in H.
    destruct H as [Hh Ht]. cbn [run].
    destruct (@quiet_step e h st0 C Hh) as [Ed Ec].
    rewrite (IH Ht _ Ec). exact Ed. }
  split; apply Q; reflexivity.
Qed.

Lemma plain_step (env : Env) (h : Hook) (st : State) :
  plain h = true ->
  agents (db (step env h st)) = agents (db st)
  /\ agentStack (ctx (step env h st)) = agentStack (ctx st)
  /\ currentAgentId (ctx (step env h st)) = currentAgentId (ctx st)
  /\ currentSessionId (ctx (step env h st)) = currentSessionId (ctx st).
Proof.
  intros H. destruct h as [data|d|d|res|reason|]; try discriminate H;
    cbn [step plain] in *.
  - apply negb_true_iff in H. unfold pre_tool, ctx.
    destruct (or_null (currentSessionId (getContext (context_file st))));
      [|now repeat split].
    rewrite H. now repeat split.
  - unfold post_tool, ctx.
    destruct (pendingToolUseId (getContext (context_file st))) as [id|];
      [destruct (id =? 0); [|finish_cases err]|]; now repeat split.
  - unfold stop, ctx.
    destruct (or_null (currentSessionId (getContext (context_file st))));
      now repeat split.
Qed.

Lemma plain_run (body : list (Env * Hook)) (st : State) :
  forallb plain (map snd body) = true ->
  agents (db (run body st)) = agents (db st)
  /\ agentStack (ctx (run body st)) = agentStack (ctx st)
  /\ currentAgentId (ctx (run body st)) = currentAgentId (ctx st)
  /\ currentSessionId (ctx (run body st)) = currentSessionId (ctx st).
Proof.
  revert st. induction body as [|[e h] body IH]; intros st H;
    [now repeat split|].
  cbn [map snd forallb] in H. apply andb_true_iff in H. destruct H as [Hh Hb].
  cbn [run]. destruct (IH (step e h st) Hb) as (A & B & C & D).
  destruct (@plain_step e h st Hh) as (A' & B' & C' & D').
  repeat split; congruence.
Qed.

Lemma or_default_truthy (x : option string) :
  truthy_string (or_default x "unknown") = true.
Proof.
  unfold or_default, or_null. destruct x as [s|]; [|reflexivity].
  now destruct (truthy_string s) eqn:E.
Qed.

(** In a reachable state the current agent is null or an id that is not
    empty. *)
Lemma current_agent_truthy (st : State) :
  forest st -> or_null (currentAgentId (ctx st)) = currentAgentId (ctx st).
Proof.
  intros F. rewrite (f_top F). unfold top.
  destruct (rev (agentStack (ctx st))) as [|c below] eqn:E; [reflexivity|].
  cbn [hd_error]. apply or_null_nonempty.
  apply (f_rows F c). apply in_rev. rewrite E. now left.
Qed.

(** X16. A subagent's bracket.  In a reachable state with an open
    session, a pre-invocation of "Task" (its generated id being free),
    then hooks that neither spawn nor stop an agent, then SubagentStop.
    When the Task's type and description are read and bound, the stack
    and the current agent are again what they were before the Task, the
    agents that were there are untouched, and the agent spawned is the one
    new row, with that type and description, now 'completed', started at
    the time of the Task and ended at the time of the SubagentStop, its
    parent the agent that was current.  When reading or binding them
    throws, the Task's hook writes nothing and the hooks that follow run
    from the state before it. *)
Theorem subagent_bracket (trace body : list (Env * Hook)) (env1 env2 : Env)
    (input result : option json) (sid : string) :
  let st := run trace init in
  let a := generateId (date_now env1) (random36 env1) in
  let rest := (body ++ [(env2, SubagentStop result)])%list in
  let st' := run ((env1, PreToolInvocation (task input)) :: rest) st in
  or_null (currentSessionId (ctx st)) = Some sid ->
  ~ In a (map a_id (agents (db st))) ->
  forallb plain (map snd body) = true ->
  match spawn_fields input with
  | Some (ty, desc) =>
      agentStack (ctx st') = agentStack (ctx st)
      /\ currentAgentId (ctx st') = currentAgentId (ctx st)
      /\ agents (db st')
         = (agents (db st)
            ++ [mkAgent a sid (currentAgentId (ctx st)) ty desc
                        (now env1) (Some (now env2)) "completed"])%list
  | None => st' = run rest st
  end.
Proof.
  intros st a rest st' Hs Hfresh Hbody.
  pose proof (Forest.forest_run trace Forest.forest_init) as F. fold st in F.
  unfold st', rest. cbn [run]. rewrite !run_app. cbn [run step].
  set (st1 := pre_tool env1 (task input) st).
  destruct (spawn_fields input) as [[ty desc]|] eqn:Hfields.
  2:{ unfold st1. now rewrite (@PreTool.pre_tool_task_throws env1 input st Hfields). }
  destruct (@plain_run body st1 Hbody) as (A & B & C & D).
  set (st2 := run body st1) in *.
  assert (E1 : st1 = _)
    by (apply (@PreTool.pre_tool_task env1 input st sid ty desc Hs Hfresh
                 Hfields)).
  assert (A1 : agents (db st1)
               = (agents (db st) ++
                  [mkAgent a sid (or_null (currentAgentId (ctx st))) ty desc
                     (now env1) None "running"])%list)
    by (rewrite E1; reflexivity).
  assert (B1 : agentStack (ctx st1) = (agentStack (ctx st) ++ [a])%list)
    by (rewrite E1; reflexivity).
  assert (D1 : currentSessionId (ctx st1) = currentSessionId (ctx st))
    by (rewrite E1; reflexivity).
  rewrite A1 in A. rewrite B1 in B. rewrite D1 in D. clear E1 A1 B1 D1 C.
  unfold subagent_stop. fold (ctx st2). rewrite D, Hs, B, rev_unit.
  unfold ctx at 1 2. cbn [context_file updateContext saveContext getContext
                          assign u_agentStack u_currentAgentId agentStack
                          currentAgentId db].
  rewrite rev_involutive. split; [reflexivity|split].
  - symmetry. apply (f_top F).
  - unfold recordEvent, endAgent. cbn [agents set_agents]. rewrite A.
    rewrite map_app. cbn [map a_id]. rewrite String.eqb_refl. f_equal.
    + rewrite <- (map_id (agents (db st))) at 2. apply map_ext_in.
      intros r Hr. destruct (String.eqb_spec (a_id r) a) as [E|_];
        [|reflexivity].
      exfalso. apply Hfresh. rewrite <- E. now apply in_map.
    + unfold close_agent. cbn.
      now rewrite (current_agent_truthy F).
Qed.

End Brackets.

(** ** Queries and reports *)
Module Queries.

Lemma opt_filter_text (A : Type) (arg : option string) (col : A -> string)
    (r : A) :
  opt_filter arg (fun v r => String.eqb (col r) v) r = true
  <-> wanted arg (Some (col r)).
Proof.
  unfold opt_filter, wanted. destruct (or_null arg) as [v|]; split.
  - intros E w [= <-]. apply String.eqb_eq in E. now rewrite E.
  - intros W. specialize (W v eq_refl). injection W as ->.
    apply String.eqb_refl.
  - intros _ w H. discriminate H.
  - reflexivity.
Qed.

Lemma opt_filter_nullable (A : Type) (arg : option string)
    (col : A -> option string) (r : A) :
  opt_filter arg (fun v r => col_eq (col r) v) r = true
  <-> wanted arg (col r).
Proof.
  unfold opt_filter, wanted, col_eq. destruct (or_null arg) as [v|]; split.
  - intros E w [= <-]. destruct (col r) as [c|]; [|discriminate E].
    apply String.eqb_eq in E. now rewrite E.
  - intros W. rewrite (W v eq_refl). apply String.eqb_refl.
  - intros _ w H. discriminate H.
  - reflexivity.
Qed.

Lemma desc_skipn (A : Type) (key : A -> Z) (n : nat) (l : list A) :
  desc key l -> desc key (skipn n l).
Proof.
  revert l. induction n as [|n IH]; intros l S; [exact S|].
  destruct l as [|x l]; [exact S|]. simpl. apply IH.
  now inversion S.
Qed.

Lemma desc_limit_offset (A : Type) (key : A -> Z) (limit offset : Z)
    (l : list A) :
  desc key l -> desc key (sql_limit limit offset l).
Proof.
  unfold sql_limit. intros S. apply (desc_skipn (Z.to_nat offset)) in S.
  destruct (limit <? 0); [assumption|now apply desc_firstn].
Qed.

Lemma sql_limit_bound (A : Type) (limit offset : Z) (l : list A) :
  0 <= limit -> Z.of_nat (List.length (sql_limit limit offset l)) <= limit.
Proof.
  unfold sql_limit. intros H. destruct (Z.ltb_spec limit 0); [lia|].
  rewrite length_firstn. lia.
Qed.

Lemma sql_limit_whole (A : Type) (limit offset : Z) (l : list A) :
  offset <= 0 -> limit < 0 \/ Z.of_nat (List.length l) <= limit ->
  sql_limit limit offset l = l.
Proof.
  unfold sql_limit. intros Ho H.
  replace (Z.to_nat offset) with O by lia. simpl.
  destruct (Z.ltb_spec limit 0); [reflexivity|].
  apply firstn_all2. lia.
Qed.

(** X17. What [getToolUses] returns: stored rows only, newest first, no
    more than the limit (100 when none or 0 is given); each returned row
    has the session, agent, tool name and status asked for, a filter that
    is absent or the empty string asking for nothing; and when nothing is
    skipped and the table has no more rows than the limit, every stored
    row that has what is asked for is returned. *)
Theorem getToolUses_sound (f : ToolFilters) (d : Database) :
  let asked (r : ToolUse) :=
    wanted (tf_sessionId f) (Some (t_session_id r))
    /\ wanted (tf_agentId f) (t_agent_id r)
    /\ wanted (tf_toolName f) (Some (t_tool_name r))
    /\ wanted (tf_status f) (Some (t_status r)) in
  desc t_started_at (getToolUses f d)
  /\ (0 <= num_or (tf_limit f) 100 ->
      Z.of_nat (List.length (getToolUses f d)) <= num_or (tf_limit f) 100)
  /\ (forall r, In r (getToolUses f d) -> In r (tool_uses d) /\ asked r)
  /\ (num_or (tf_offset f) 0 <= 0 ->
      Z.of_nat (List.length (tool_uses d)) <= num_or (tf_limit f) 100 ->
      forall r, In r (tool_uses d) -> asked r -> In r (getToolUses f d)).
Proof.
  intros asked. unfold getToolUses.
  set (keep := fun r : ToolUse => (_ && _ && _ && _)%bool).
  assert (K : forall r, keep r = true <-> asked r).
  { intros r. unfold keep, asked. rewrite !andb_true_iff.
    rewrite !opt_filter_text, !opt_filter_nullable. tauto. }
  split; [|split; [|split]].
  - apply desc_limit_offset, order_by_desc_sorted.
  - apply sql_limit_bound.
  - intros r Hr. apply sql_limit_incl, order_by_desc_In, filter_In in Hr.
    destruct Hr as [Hr Hk]. split; [exact Hr|now apply K].
  - intros Ho Hl r Hr Ha. rewrite sql_limit_whole.
    + apply order_by_desc_In, filter_In. split; [exact Hr|now apply K].
    + exact Ho.
    + right. rewrite <- (Permutation_length (order_by_desc_perm _ _)).
      pose proof (filter_length_le keep (tool_uses d)). lia.
Qed.

(** *** Branches *)

Lemma insert_text_perm (x : string) (l : list string) :
  Permutation (x :: l) (Reports.insert_text x l).
Proof.
  induction l as [|y l IH]; simpl; [reflexivity|].
  destruct (String.leb x y); [reflexivity|].
  rewrite perm_swap. now apply perm_skip.
Qed.

Lemma order_by_text_perm (l : list string) :
  Permutation l (Reports.order_by_text l).
Proof.
  induction l as [|x l IH]; simpl; [constructor|].
  rewrite <- insert_text_perm. now apply perm_skip.
Qed.

Lemma insert_text_sorted (x : string) (l : list string) :
  Sorted text_le l -> Sorted text_le (Reports.insert_text x l).
Proof.
  induction l as [|y l IH]; intros S; simpl.
  - repeat constructor.
  - destruct (String.leb x y) eqn:E.
    + constructor; [exact S|]. now constructor.
    + inversion S as [|? ? S' H]; subst. constructor; [now apply IH|].
      assert (Hyx : text_le y x)
        by (destruct (String.leb_total x y) as [T|T]; [congruence|exact T]).
      destruct l as [|z l]; simpl; [now constructor|].
      destruct (String.leb x z); constructor; [exact Hyx|].
      now inversion H.
Qed.

Lemma order_by_text_sorted (l : list string) :
  Sorted text_le (Reports.order_by_text l).
Proof.
  induction l as [|x l IH]; simpl; [constructor|].
  now apply insert_text_sorted.
Qed.

(** X18. [getGitBranches] lists exactly the branches some session has,
    each once, in ascending order; and a branch that is not the empty
    string is listed exactly when [getSessions], asked for that branch
    from the first row on with a limit other than 0, finds a session,
    everything it finds being of that branch. *)
Theorem getGitBranches_lists (d : Database) (b : string) (limit : Z) :
  b <> "" -> limit <> 0 ->
  NoDup (Reports.getGitBranches d)
  /\ Sorted text_le (Reports.getGitBranches d)
  /\ (In b (Reports.getGitBranches d)
      <-> exists s, In s (sessions d) /\ s_git_branch s = Some b)
  /\ (In b (Reports.getGitBranches d)
      <-> getSessions (Some limit) (Some 0) (Some b) d <> [])
  /\ (forall s, In s (getSessions (Some limit) (Some 0) (Some b) d) ->
        In s (sessions d) /\ s_git_branch s = Some b).
Proof.
  intros Hb Hl. unfold Reports.getGitBranches.
  set (bs := flat_map _ (sessions d)).
  assert (M : In b (Reports.order_by_text (nodup string_dec bs))
              <-> exists s, In s (sessions d) /\ s_git_branch s = Some b).
  { split.
    - intros H. apply (Permutation_in _ (Permutation_sym (order_by_text_perm _)))
        in H. apply nodup_In in H. apply in_flat_map in H.
      destruct H as [s [Hs H]]. exists s. split; [exact Hs|].
      destruct (s_git_branch s) as [c|]; [|destruct H].
      destruct H as [->|[]]. reflexivity.
    - intros [s [Hs E]]. apply (Permutation_in _ (order_by_text_perm _)).
      apply nodup_In. apply in_flat_map. exists s. split; [exact Hs|].
      rewrite E. now left. }
  assert (F : forall s, In s (filter (opt_filter (Some b)
                                        (fun v r => col_eq (s_git_branch r) v))
                                     (sessions d))
                        <-> In s (sessions d) /\ s_git_branch s = Some b).
  { intros s. rewrite filter_In, opt_filter_nullable. unfold wanted.
    rewrite (or_null_nonempty Hb). split; intros [H1 H2]; split; auto.
    now intros v [= <-]. }
  split; [|split; [|split; [|split]]].
  - apply (Permutation_NoDup (order_by_text_perm _)), NoDup_nodup.
  - apply order_by_text_sorted.
  - exact M.
  - rewrite M. unfold getSessions.
    set (rows := order_by_desc s_started_at _).
    assert (R : forall s, In s rows
                          <-> In s (sessions d) /\ s_git_branch s = Some b)
      by (intros s; unfold rows; rewrite order_by_desc_In; apply F).
    clearbody rows. unfold sql_limit. simpl. split.
    + intros [s Hs]. apply R in Hs. destruct rows as [|x rest]; [destruct Hs|].
      destruct (Z.ltb_spec limit 0); [discriminate|].
      destruct (Z.to_nat limit) eqn:E; [lia|discriminate].
    + intros H. destruct rows as [|x rest].
      * exfalso. apply H. destruct (limit <? 0); [reflexivity|].
        now destruct (Z.to_nat limit).
      * exists x. apply R. now left.
  - intros s Hs. apply sql_limit_incl, order_by_desc_In in Hs. now apply F.
Qed.

(** *** Grouping and counting *)

Section Grouping.

Variables (Row Key : Type).
Variable key_eqb : Key -> Key -> bool.
Hypothesis key_eqb_spec : forall a b, key_eqb a b = true <-> a = b.

Lemma seen_spec (k : Key) (seen : list Key) :
  existsb (key_eqb k) seen = true <-> In k seen.
Proof.
  rewrite existsb_exists. split.
  - intros [x [Hx E]]. apply key_eqb_spec in E. now subst.
  - intros H. exists k. split; [exact H|now apply key_eqb_spec].
Qed.

Lemma distinct_spec (ks seen : list Key) :
  NoDup (Reports.distinct key_eqb seen ks)
  /\ forall k, In k (Reports.distinct key_eqb seen ks)
               <-> In k ks /\ ~ In k seen.
Proof.
  revert seen. induction ks as [|k ks IH]; intros seen; simpl.
  - split; [constructor|]. intros k. tauto.
  - destruct (existsb (key_eqb k) seen) eqn:E.
    + apply seen_spec in E. destruct (IH seen) as [N M]. split; [exact N|].
      intros k'. rewrite M. split; [tauto|].
      intros [[->|H] H']; [contradiction|tauto].
    + apply Bool.not_true_iff_false in E. rewrite seen_spec in E.
      destruct (IH (k :: seen)) as [N M]. split.
      * constructor; [|exact N]. rewrite M. simpl. tauto.
      * intros k'. simpl. rewrite M. simpl. split.
        -- intros [<-|[H H']]; tauto.
        -- intros [[<-|H] H']; [now left|].
           destruct (key_eqb k k') eqn:Ek.
           ++ apply key_eqb_spec in Ek. now left.
           ++ right. split; [exact H|]. intros [->|H2]; [|contradiction].
              rewrite (proj2 (key_eqb_spec k' k') eq_refl) in Ek.
              discriminate Ek.
Qed.

Lemma count_once (k0 : Key) (K : list Key) :
  NoDup K -> In k0 K ->
  list_sum (map (fun k => if key_eqb k0 k then 1 else 0)%nat K) = 1%nat.
Proof.
  induction K as [|k K IH]; intros N H; [destruct H|].
  inversion N as [|? ? Hk N']; subst. simpl.
  destruct (key_eqb k0 k) eqn:E.
  - apply key_eqb_spec in E. subst k0. f_equal.
    clear IH H N N'. induction K as [|x K IH]; [reflexivity|]. simpl.
    destruct (key_eqb k x) eqn:Ex.
    + apply key_eqb_spec in Ex. subst x. exfalso. apply Hk. now left.
    + apply IH. intros H. apply Hk. now right.
  - destruct H as [->|H]; [|now apply IH].
    rewrite (proj2 (key_eqb_spec k0 k0) eq_refl) in E. discriminate E.
Qed.

Lemma list_sum_add (A : Type) (f g : A -> nat) (l : list A) :
  list_sum (map (fun x => f x + g x)%nat l)
  = (list_sum (map f l) + list_sum (map g l))%nat.
Proof. induction l as [|x l IH]; simpl; [reflexivity|]. rewrite IH. lia. Qed.

Lemma groups_cover (key : Row -> Key) (rows : list Row) (K : list Key) :
  NoDup K -> (forall r, In r rows -> In (key r) K) ->
  list_sum (map (fun k => List.length
                            (filter (fun r => key_eqb (key r) k) rows)) K)
  = List.length rows.
Proof.
  intros N. induction rows as [|r rows IH]; intros H.
  - simpl. clear. induction K as [|k K IHK]; [reflexivity|exact IHK].
  - rewrite (map_ext _ (fun k => (if key_eqb (key r) k then 1 else 0)
                                 + List.length
                                     (filter (fun r => key_eqb (key r) k) rows))%nat).
    + rewrite list_sum_add, count_once, IH; [reflexivity| |exact N|].
      * intros r' Hr'. apply H. now right.
      * apply H. now left.
    + intros k. simpl. now destruct (key_eqb (key r) k).
Qed.

(** The groups of a table: each key once, every row in the group of its
    key, no group empty. *)
Lemma group_by_spec (key : Row -> Key) (rows : list Row) :
  NoDup (map fst (Reports.group_by key_eqb key rows))
  /\ list_sum (map (fun g => List.length (snd g))
                   (Reports.group_by key_eqb key rows))
     = List.length rows
  /\ forall g, In g (Reports.group_by key_eqb key rows) ->
       snd g = filter (fun r => key_eqb (key r) (fst g)) rows
       /\ snd g <> [].
Proof.
  unfold Reports.group_by.
  destruct (distinct_spec (map key rows) []) as [N M].
  rewrite !map_map. cbn [fst snd]. rewrite map_id. repeat split.
  - exact N.
  - apply groups_cover; [exact N|]. intros r Hr. apply M.
    split; [now apply in_map|intros []].
  - apply in_map_iff in H. destruct H as [k [<- _]]. reflexivity.
  - apply in_map_iff in H. destruct H as [k [<- Hk]]. cbn [snd].
    apply M in Hk. destruct Hk as [Hk _]. apply in_map_iff in Hk.
    destruct Hk as [r [E Hr]]. intros F.
    assert (Hin : In r (filter (fun r0 => key_eqb (key r0) k) rows))
      by (apply filter_In; split; [exact Hr|now apply key_eqb_spec]).
    rewrite F in Hin. destruct Hin.
Qed.

End Grouping.

Lemma total_of_nat (A : Type) (f : A -> nat) (l : list A) :
  total (map (fun x => Z.of_nat (f x)) l) = Z.of_nat (list_sum (map f l)).
Proof.
  induction l as [|x l IH]; [reflexivity|].
  change (Z.of_nat (f x) + total (map (fun x => Z.of_nat (f x)) l)
          = Z.of_nat (f x + list_sum (map f l))).
  rewrite IH. lia.
Qed.

Lemma total_perm (l l' : list Z) : Permutation l l' -> total l = total l'.
Proof.
  unfold total. induction 1; simpl; lia.
Qed.

Lemma opt_string_eqb_spec (a b : option string) :
  Reports.opt_string_eqb a b = true <-> a = b.
Proof.
  destruct a as [x|], b as [y|]; simpl; try (split; congruence).
  rewrite String.eqb_eq. split; congruence.
Qed.

(** X19. The counts of [getAnalytics] add up: the counts by status and
    the counts by tool name each sum to the number of tool uses in scope
    (all of them, or those of the session asked for), the counts by agent
    type to the number of agents in scope; no status is listed twice; the
    count listed for a status is the number of tool uses in scope that have
    it, and is never 0; the tools come with the most used first; and
    without a session (or with the empty string) everything is in scope,
    which is how the statistics command computes its total. *)
Theorem getAnalytics_counts (sessionId : option string) (d : Database) :
  let tools :=
    filter (opt_filter sessionId (fun v r => String.eqb (t_session_id r) v))
           (tool_uses d) in
  let agts :=
    filter (opt_filter sessionId (fun v r => String.eqb (a_session_id r) v))
           (agents d) in
  let report := Reports.getAnalytics sessionId d in
  total (map snd (Reports.statusCounts report)) = Z.of_nat (List.length tools)
  /\ total (map Reports.tc_count (Reports.toolCounts report))
     = Z.of_nat (List.length tools)
  /\ total (map snd (Reports.agentCounts report))
     = Z.of_nat (List.length agts)
  /\ NoDup (map fst (Reports.statusCounts report))
  /\ (forall status n, In (status, n) (Reports.statusCounts report) ->
        n = Z.of_nat (List.length
                        (filter (fun r => String.eqb (t_status r) status)
                                tools))
        /\ 1 <= n)
  /\ desc Reports.tc_count (Reports.toolCounts report)
  /\ (or_null sessionId = None -> tools = tool_uses d /\ agts = agents d).
Proof.
  intros tools agts report. unfold report, Reports.getAnalytics.
  fold tools agts. cbn [Reports.statusCounts Reports.toolCounts
                        Reports.agentCounts].
  destruct (group_by_spec String.eqb String.eqb_eq t_status tools)
    as (N1 & S1 & G1).
  destruct (group_by_spec String.eqb String.eqb_eq t_tool_name tools)
    as (_ & S2 & _).
  destruct (group_by_spec Reports.opt_string_eqb opt_string_eqb_spec
              a_agent_type agts) as (_ & S3 & _).
  split; [|split; [|split; [|split; [|split; [|split]]]]].
  - rewrite map_map. unfold Reports.count_of. cbn [snd].
    now rewrite (total_of_nat (fun g => List.length (snd g))), S1.
  - rewrite <- (total_perm (Permutation_map Reports.tc_count
                              (order_by_desc_perm Reports.tc_count _))).
    rewrite map_map. cbn [Reports.tc_count].
    now rewrite (total_of_nat (fun g => List.length (snd g))), S2.
  - rewrite map_map. unfold Reports.count_of. cbn [snd].
    now rewrite (total_of_nat (fun g => List.length (snd g))), S3.
  - rewrite map_map. unfold Reports.count_of. cbn [fst]. exact N1.
  - intros status n H. apply in_map_iff in H.
    destruct H as [[k rows] [E Hg]]. unfold Reports.count_of in E.
    cbn [fst snd] in E. injection E as -> <-.
    destruct (G1 _ Hg) as [Er Hne]. cbn [fst snd] in *. subst rows.
    split; [reflexivity|].
    destruct (filter _ tools); [contradiction|]. simpl. lia.
  - apply order_by_desc_sorted.
  - intros H. unfold tools, agts, opt_filter. rewrite H.
    split; now apply Delete.filter_all.
Qed.

End Queries.

(** ** The event log *)
Module EventLog.

Lemma step_events (env : Env) (h : Hook) (st : State) :
  (events (db (step env h st)) = events (db st)
   /\ seq_events (db (step env h st)) = seq_events (db st))
  \/ exists e,
       events (db (step env h st)) = (events (db st) ++ [e])%list
       /\ seq_events (db (step env h st)) = seq_events (db st) + 1
       /\ recorded_by env st e.
Proof.
  unfold recorded_by, hook_events.
  destruct h as [data|d|d|res|reason|]; cbn [step].
  - left. now split.
  - unfold pre_tool. fold (ctx st).
    destruct (or_null (currentSessionId (ctx st))) as [sid|] eqn:Es;
      [|left; now split].
    match goal with |- context [String.eqb ?n "Task"] =>
      destruct (String.eqb n "Task") end; [|left; now split].
    spawn_cases ty desc Ex; [left; now split| |left; now split].
    right. eexists. cbn. repeat split; simpl; tauto.
  - left. unfold post_tool.
    destruct (pendingToolUseId (getContext (context_file st))) as [id|];
      [destruct (id =? 0); [|finish_cases err]|]; now split.
  - unfold subagent_stop. fold (ctx st).
    destruct (or_null (currentSessionId (ctx st))) as [sid|] eqn:Es;
      [|left; now split].
    destruct (rev (agentStack (ctx st))) as [|c below];
      [left; now split|].
    right. eexists. cbn. repeat split; simpl; tauto.
  - unfold stop. fold (ctx st).
    destruct (or_null (currentSessionId (ctx st))) as [sid|] eqn:Es;
      [|left; now split].
    right. eexists. cbn. repeat split; simpl; tauto.
  - unfold session_end. fold (ctx st).
    destruct (or_null (currentSessionId (ctx st))) as [sid|] eqn:Es;
      [|left; now split].
    right. eexists. cbn. repeat split; simpl; tauto.
Qed.

(** X20. The event log only grows.  A hook leaves the events that are
    there as they are and appends at most one, which takes the next rowid,
    the hook's time, the current session (there is one) and one of the four
    types the hooks record; so after any sequence of hooks the old log is
    the beginning of the new one and every new event has a rowid above the
    old counter. *)
Theorem events_only_appended (trace : list (Env * Hook)) (st : State) :
  (forall env h,
     events (db (step env h st)) = events (db st)
     \/ exists e, events (db (step env h st)) = (events (db st) ++ [e])%list
                  /\ recorded_by env st e)
  /\ exists new,
       events (db (run trace st)) = (events (db st) ++ new)%list
       /\ seq_events (db st) <= seq_events (db (run trace st))
       /\ forall e, In e new ->
            seq_events (db st) < e_id e <= seq_events (db (run trace st))
            /\ In (e_event_type e) hook_events
            /\ e_session_id e <> "".
Proof.
  split.
  - intros env h. destruct (step_events env h st) as [[E _]|[e (E & _ & R)]];
      [now left|right; now exists e].
  - revert st. induction trace as [|[env h] trace IH]; intros st.
    + exists []. rewrite app_nil_r. cbn [run].
      split; [reflexivity|split; [lia|intros e []]].
    + cbn [run]. destruct (IH (step env h st)) as (new & E & Hs & Hn).
      destruct (step_events env h st) as [[E1 S1]|[e1 (E1 & S1 & R1)]].
      * exists new. rewrite E, E1, <- S1. split; [reflexivity|].
        split; [exact Hs|exact Hn].
      * exists (e1 :: new). rewrite E, E1, <- app_assoc.
        split; [reflexivity|split; [lia|]].
        intros e [<-|H].
        -- destruct R1 as (Ei & _ & T & Eo). apply or_null_Some in Eo.
           split; [lia|split; [exact T|tauto]].
        -- apply Hn in H. destruct H as (H1 & H2 & H3).
           split; [lia|split; assumption].
Qed.

End EventLog.

(** ** Rows and their sessions *)
Module Integrity.

Import Correlate.

Lemma stored_step (env : Env) (h : Hook) (st : State) (sid : string) :
  stored (db st) sid -> stored (db (step env h st)) sid.
Proof.
  unfold stored. intros H.
  destruct h as [data|d|d|res|reason|];
    try (rewrite Sessions.inner_sessions; [exact H|reflexivity]).
  - cbn [step session_start db createSession set_sessions sessions
         cleanupStalePendingTools sweep_old sweep_ended set_tool_uses].
    rewrite map_app. apply in_or_app. cbn [map s_id].
    destruct (String.eqb_spec sid
                (generateId (date_now env) (random36 env))) as [->|Hne].
    + right. now left.
    + left. apply in_map_iff in H. destruct H as [s [<- Hs]].
      apply in_map, filter_In. split; [exact Hs|].
      apply negb_true_iff. now apply String.eqb_neq.
  - cbn [step]. unfold session_end.
    destruct (or_null (currentSessionId (getContext (context_file st))))
      as [cur|]; [|exact H].
    cbn [db endSession set_sessions sessions recordEvent
         markPendingToolsInterrupted set_tool_uses].
    rewrite map_map. erewrite map_ext; [exact H|].
    intros s. now destruct (String.eqb (s_id s) _).
Qed.

Lemma refs_init : refs_ok init.
Proof.
  split.
  - constructor.
  - intros r [].
  - intros r [].
  - intros e [].
  - intros sid H. discriminate H.
Qed.

Lemma refs_step (env : Env) (h : Hook) (st : State) :
  refs_ok st -> refs_ok (step env h st).
Proof.
  intros [N T A E C].
  assert (Cur : forall sid, or_null (currentSessionId (ctx st)) = Some sid ->
                  stored (db (step env h st)) sid).
  { intros sid H. apply stored_step. destruct (C sid H) as (s & Hs & <- & _).
    now apply in_map. }
  split.
  - destruct h as [data|d|d|res|reason|];
      try (rewrite Sessions.inner_sessions; [exact N|reflexivity]).
    + cbn [step session_start db createSession set_sessions sessions
           cleanupStalePendingTools sweep_old sweep_ended set_tool_uses].
      rewrite map_app. cbn [map s_id]. apply NoDup_app.
      * now apply Sessions.NoDup_map_filter.
      * repeat constructor. intros [].
      * intros x Hx [<-|[]]. apply in_map_iff in Hx.
        destruct Hx as [s [Es Hs]]. apply filter_In in Hs.
        destruct Hs as [_ Hs]. apply negb_true_iff in Hs.
        apply String.eqb_neq in Hs. contradiction.
    + cbn [step]. unfold session_end.
      destruct (or_null (currentSessionId (getContext (context_file st))))
        as [cur|]; [|exact N].
      cbn [db endSession set_sessions sessions recordEvent
           markPendingToolsInterrupted set_tool_uses].
      rewrite map_map. erewrite map_ext; [exact N|].
      intros s. now destruct (String.eqb (s_id s) _).
  - destruct (Lifecycle.step_tool_effect env h st)
      as [Et _ _|f Et _ _ Hf|id out status err _ _ Et _ _
          |sid agent name input Hsid Et _ _ _]; rewrite Et; intros r Hr.
    + now apply stored_step, T.
    + apply in_map_iff in Hr. destruct Hr as [r0 [<- Hr0]].
      apply stored_step.
      destruct (Hf r0) as [->|[_ [msg ->]]]; simpl; now apply T.
    + apply in_map_iff in Hr. destruct Hr as [r0 [<- Hr0]].
      apply stored_step. destruct (t_id r0 =? id); simpl; now apply T.
    + apply in_app_or in Hr. destruct Hr as [Hr|[<-|[]]];
        [now apply stored_step, T|]. now apply Cur.
  - destruct (Forest.step_effect env h st)
      as [Ea _ _ _|Ea _ _|sid new Hsid _ _ Hs _ Ea _ _ _
          |c below _ Ea _ _ _]; rewrite Ea; intros r Hr.
    + now apply stored_step, A.
    + now apply stored_step, A.
    + apply in_app_or in Hr. destruct Hr as [Hr|[<-|[]]];
        [now apply stored_step, A|]. rewrite Hs. now apply Cur.
    + apply in_map_iff in Hr. destruct Hr as [r0 [<- Hr0]].
      apply stored_step. unfold close_if.
      destruct (String.eqb (a_id r0) c); simpl; now apply A.
  - destruct (EventLog.step_events env h st) as [[Ee _]|[e (Ee & _ & R)]];
      rewrite Ee; intros e0 He.
    + now apply stored_step, E.
    + apply in_app_or in He. destruct He as [He|[<-|[]]];
        [now apply stored_step, E|].
      destruct R as (_ & _ & _ & R). now apply Cur.
  - intros sid H. destruct h as [data|d|d|res|reason|].
    + cbn [step] in *. rewrite session_start_ctx in H.
      cbn [currentSessionId] in H. rewrite or_null_generateId in H.
      injection H as <-.
      eexists. split; [|split].
      * cbn [session_start db createSession set_sessions sessions
             cleanupStalePendingTools sweep_old sweep_ended set_tool_uses].
        apply in_or_app. right. now left.
      * reflexivity.
      * reflexivity.
    + rewrite Sessions.inner_sessions by reflexivity.
      rewrite Sessions.inner_step_session in H by reflexivity. now apply C.
    + rewrite Sessions.inner_sessions by reflexivity.
      rewrite Sessions.inner_step_session in H by reflexivity. now apply C.
    + rewrite Sessions.inner_sessions by reflexivity.
      rewrite Sessions.inner_step_session in H by reflexivity. now apply C.
    + rewrite Sessions.inner_sessions by reflexivity.
      rewrite Sessions.inner_step_session in H by reflexivity. now apply C.
    + cbn [step] in H. rewrite session_end_ctx in H. discriminate H.
Qed.

Lemma refs_run (trace : list (Env * Hook)) (st : State) :
  refs_ok st -> refs_ok (run trace st).
Proof.
  revert st. induction trace as [|[env h] trace IH]; intros st R; [exact R|].
  cbn [run]. now apply IH, refs_step.
Qed.

(** X21. No orphan rows.  In every state the hooks reach, session ids
    are distinct, every tool use, agent and event belongs to a session that
    is in the sessions table, and the current session of the context, when
    there is one, is a row of that table that has not ended. *)
Theorem rows_belong_to_sessions (trace : list (Env * Hook)) :
  let st := run trace init in
  NoDup (map s_id (sessions (db st)))
  /\ (forall r, In r (tool_uses (db st)) ->
        In (t_session_id r) (map s_id (sessions (db st))))
  /\ (forall r, In r (agents (db st)) ->
        In (a_session_id r) (map s_id (sessions (db st))))
  /\ (forall e, In e (events (db st)) ->
        In (e_session_id e) (map s_id (sessions (db st))))
  /\ (forall sid, or_null (currentSessionId (ctx st)) = Some sid ->
        exists s, In s (sessions (db st)) /\ s_id s = sid
                  /\ s_ended_at s = None).
Proof.
  destruct (refs_run trace refs_init) as [N T A E C]. cbv zeta.
  split; [exact N|split; [exact T|split; [exact A|split; [exact E|exact C]]]].
Qed.

End Integrity.

(** ** The further properties on the examples *)
Module MoreScenarios.

Import Settings.

Lemma user_settings_object : is_object (config_of user_settings).
Proof.
  unfold is_object. simpl. repeat constructor; simpl; intuition discriminate.
Defined.

Lemma pending_id_names_pending_row_witness :
  exists r,
    In r (tool_uses (db (run reading init)))
    /\ t_id r = 1 /\ t_status r = "pending"
    /\ currentSessionId (ctx (run reading init)) = Some (t_session_id r).
Proof.
  apply (@Lifecycle.pending_id_names_pending_row reading 1). reflexivity.
Defined.

Lemma durations_not_negative_witness :
  In finished_read (tool_uses (db (run read_done init)))
  /\ t_started_at finished_read <= 103
  /\ Qle 0 (elapsed_ms 103 101).
Proof.
  assert (Hin : In finished_read (tool_uses (db (run read_done init))))
    by (vm_compute; left; reflexivity).
  assert (C : clock_ok 0 read_done) by (simpl; repeat split; lia).
  destruct (@Lifecycle.durations_not_negative read_done 0 C finished_read Hin)
    as [He Hm].
  split; [exact Hin|]. split; [apply He|apply Hm]; reflexivity.
Defined.


Lemma installHooks_idempotent_witness :
  installHooks plugin_root (installHooks plugin_root user_settings)
  = installHooks plugin_root user_settings.
Proof.
  exact (Registration.installHooks_idempotent plugin_root user_settings
           user_settings_object).
Defined.



Lemma uninstall_is_reported_witness :
  check_tracking plugin_root (snd (uninstall_tracking plugin_root user_settings))
  = ([], Obj.keys (getTrackingHooks plugin_root))
  /\ areHooksInstalled plugin_root
       (snd (uninstall_tracking plugin_root user_settings))
     = false.
Proof.
  exact (Registration.uninstall_is_reported plugin_root user_settings
           user_settings_object).
Defined.

(** A hook added under "PreToolUse" is removed again; one added under
    "toString" is refused. *)
Lemma add_then_remove_witness :
  (exists added,
     add_custom_hook "PreToolUse" "./lint.sh" (Some "Bash") user_settings
     = Some added
     /\ fst (remove_hook (Some "PreToolUse") (Some 2) added)
        = inr (Some (custom_def "./lint.sh" (Some "Bash"))))
  /\ add_custom_hook "toString" "./lint.sh" None user_settings = None.
Proof.
  split; [|reflexivity].
  pose proof (@Registration.add_then_remove "PreToolUse" "./lint.sh"
                (Some "Bash") user_settings) as H.
  destruct (add_custom_hook "PreToolUse" "./lint.sh" (Some "Bash")
              user_settings) as [added|] eqn:E;
    [|vm_compute in E; discriminate E].
  exists added. split; [reflexivity|].
  apply H. discriminate.
Defined.

Lemma main_loop_lines_witness :
  Server.main_loop counting cut_input [] 0 = ([112], 4, ["ok"]).
Proof.
  assert (H : Forall whole cut_input)
    by (repeat constructor; vm_compute; discriminate).
  rewrite (proj1 (Startup.main_loop_lines counting 0 H)). reflexivity.
Defined.

(** A chunk that ends inside a character does change what is read: each
    half is replaced by U+FFFD, and the line has two code units where the
    input in one chunk has one. *)
Lemma main_loop_cut_character :
  Server.main_loop counting cut_character [] 0 = ([], 2, ["ok"])
  /\ Server.main_loop counting [List.concat cut_character] [] 0
     = ([], 1, ["ok"])
  /\ map Server.decode cut_character = [[65533]; [65533; 10]]
  /\ Server.decode (List.concat cut_character) = [233; 10].
Proof. repeat split. Qed.



Lemma nothing_recorded_outside_session_witness :
  db (run stray (session_end env_a (run read_done init)))
  = db (session_end env_a (run read_done init)).
Proof.
  refine (proj1 (@Brackets.nothing_recorded_outside_session env_a
                   (run read_done init) stray _)).
  reflexivity.
Defined.

Lemma subagent_bracket_witness :
  agents (db (run ((env_b, PreToolInvocation (task (Some explore_task)))
                   :: inside ++ [(env_d, SubagentStop None)])%list
                  (run [(env_a, SessionStart no_data)] init)))
  = [mkAgent "1700000001000-m1n2b3v" "1700000000000-k3x9q2a" None
             (Some "explorer") (Some "map the hooks") 101 (Some 105)
             "completed"].
Proof.
  refine (proj2 (proj2 (@Brackets.subagent_bracket
                          [(env_a, SessionStart no_data)] inside env_b env_d
                          (Some explore_task) None "1700000000000-k3x9q2a"
                          _ _ _))).
  - reflexivity.
  - simpl. tauto.
  - reflexivity.
Defined.

Lemma getGitBranches_lists_witness :
  Sorted text_le (Reports.getGitBranches on_branches)
  /\ (In "dev" (Reports.getGitBranches on_branches)
      <-> exists s, In s (sessions on_branches)
                    /\ s_git_branch s = Some "dev").
Proof.
  destruct (@Queries.getGitBranches_lists on_branches "dev" 50)
    as (_ & S & M & _); [discriminate|lia|].
  split; [exact S|exact M].
Defined.

End MoreScenarios.
